(** * korbit_tools: diff hunk interpretation and snippet location

    A shallow embedding of [korbit_tools/models.py],
    [korbit_tools/string_search.py] and [korbit_tools/diff_representation.py].

    Modelling conventions.
    - A Python [str] is a [string]: a sequence of characters with code
      points below 256.  In that range the decimal digits of [\d] and of
      [int()] are exactly [0]..[9].
    - A Python [int] is a [Z].
    - A raised exception is the [Raise] case of [result].  The functions of
      string_search.py and diff_representation.py that are embedded here
      raise [IndexError], at an index into an empty list, and [ValueError],
      at [int()] of a number written with more than 4300 digits.
    - [re] patterns are values of [regex], run by a backtracking matcher that
      tries alternatives in the order of Python's engine (greedy first).
    - [fuzz.ratio] comes from the fuzzywuzzy package, not from this
      repository: the functions that call it take the score as a parameter. *)

From Stdlib Require Import ZArith List Bool Ascii String Lia.
Import ListNotations.
Open Scope string_scope.
Open Scope Z_scope.

(* ------------------------------------------------------------------ *)
(** ** Exceptions *)

Inductive exn : Set := IndexError | ValueError.

Inductive result (A : Type) : Type :=
| Ok (a : A)
| Raise (e : exn).
Arguments Ok {A} a.
Arguments Raise {A} e.

Definition bind {A B : Type} (r : result A) (f : A -> result B) : result B :=
  match r with
  | Ok a => f a
  | Raise e => Raise e
  end.

Notation "x <- c ;; k" := (bind c (fun x => k))
  (at level 61, c at next level, right associativity).

(** A loop or a comprehension that builds a list with one item for each
    element of [xs], in order; the first item that raises ends it. *)
Fixpoint for_each {A B : Type} (f : A -> result B) (xs : list A)
    : result (list B) :=
  match xs with
  | [] => Ok []
  | x :: xs' => y <- f x ;; ys <- for_each f xs' ;; Ok (y :: ys)
  end.

(* ------------------------------------------------------------------ *)
(** ** Python string primitives *)

Module Py.

Definition nl : string := String "010"%char "".

Definition slen (s : string) : nat := String.length s.

(** [prefix.startswith] read the other way round: [startswith s p] is
    [s.startswith(p)]. *)
Fixpoint startswith (s p : string) {struct p} : bool :=
  match p with
  | EmptyString => true
  | String c p' =>
      match s with
      | EmptyString => false
      | String d s' => Ascii.eqb d c && startswith s' p'
      end
  end.

(** [drop n s] is [s[n:]]. *)
Fixpoint drop (n : nat) (s : string) : string :=
  match n with
  | O => s
  | S n' => match s with
            | EmptyString => EmptyString
            | String _ s' => drop n' s'
            end
  end.

(** [take n s] is [s[:n]]. *)
Fixpoint take (n : nat) (s : string) : string :=
  match n with
  | O => EmptyString
  | S n' => match s with
            | EmptyString => EmptyString
            | String c s' => String c (take n' s')
            end
  end.

(** [contains sub s] is [sub in s]. *)
Fixpoint contains (sub s : string) : bool :=
  startswith s sub ||
  match s with
  | EmptyString => false
  | String _ s' => contains sub s'
  end.

(** Characters for which [str.isspace] holds below code point 256:
    TAB..CR, FS..US, space, NEL and NBSP. *)
Definition is_space (c : ascii) : bool :=
  let n := nat_of_ascii c in
  ((9 <=? n) && (n <=? 13) || (28 <=? n) && (n <=? 32) ||
   (n =? 133) || (n =? 160))%nat.

Fixpoint lstrip (s : string) : string :=
  match s with
  | EmptyString => EmptyString
  | String c s' => if is_space c then lstrip s' else s
  end.

Fixpoint rstrip (s : string) : string :=
  match s with
  | EmptyString => EmptyString
  | String c s' =>
      match rstrip s' with
      | EmptyString => if is_space c then EmptyString else String c EmptyString
      | r => String c r
      end
  end.

(** [s.strip()] *)
Definition strip (s : string) : string := rstrip (lstrip s).

(** Line boundaries of [str.splitlines] below code point 256:
    LF, VT, FF, CR, FS, GS, RS and NEL ([CR LF] counts once). *)
Definition is_linebreak (c : ascii) : bool :=
  let n := nat_of_ascii c in
  ((10 <=? n) && (n <=? 13) || (28 <=? n) && (n <=? 30) || (n =? 133))%nat.

Definition push_char (c : ascii) (ls : list string) : list string :=
  match ls with
  | [] => [String c EmptyString]
  | l :: ls' => String c l :: ls'
  end.

(** [s.splitlines()]; [after_cr] remembers that the previous character was
    a CR, so that a following LF does not open a second line. *)
Fixpoint splitlines_from (after_cr : bool) (s : string) : list string :=
  match s with
  | EmptyString => []
  | String c s' =>
      if after_cr && Ascii.eqb c "010" then splitlines_from false s'
      else if is_linebreak c then
        EmptyString :: splitlines_from (Ascii.eqb c "013") s'
      else push_char c (splitlines_from false s')
  end.

Definition splitlines (s : string) : list string := splitlines_from false s.

(** [s.split("\n")] *)
Fixpoint split_nl (s : string) : list string :=
  match s with
  | EmptyString => [EmptyString]
  | String c s' =>
      if Ascii.eqb c "010" then EmptyString :: split_nl s'
      else push_char c (split_nl s')
  end.

Definition is_digit (c : ascii) : bool :=
  let n := nat_of_ascii c in ((48 <=? n) && (n <=? 57))%nat.

Definition digit_value (c : ascii) : Z := Z.of_nat (nat_of_ascii c) - 48.

Fixpoint int_acc (acc : Z) (s : string) : Z :=
  match s with
  | EmptyString => acc
  | String c s' => int_acc (10 * acc + digit_value c) s'
  end.

(** The number that a string of decimal digits denotes. *)
Definition decimal (s : string) : Z := int_acc 0 s.

(** [all_chars p s]: every character of [s] is in the class [p]. *)
Fixpoint all_chars (p : ascii -> bool) (s : string) : bool :=
  match s with
  | EmptyString => true
  | String c s' => p c && all_chars p s'
  end.

(** A non-empty run of the class [p], what [c+] matches. *)
Definition is_run (p : ascii -> bool) (s : string) : bool :=
  negb (String.eqb s "") && all_chars p s.

(** A non-empty string of decimal digits, what [\d+] matches. *)
Definition is_number (s : string) : bool := is_run is_digit s.

(** [sys.int_info.default_max_str_digits]: CPython refuses to convert a
    string of more digits than this, and the program does not lift the
    limit with [sys.set_int_max_str_digits]. *)
Definition max_str_digits : Z := 4300.

(** [int(s)] for a string without sign, blanks and underscores, as are the
    strings the diff parser converts: the number that [s] denotes when [s]
    is a non-empty string of at most [max_str_digits] decimal digits, and
    [ValueError] otherwise. *)
Definition int (s : string) : result Z :=
  if is_number s && (Z.of_nat (slen s) <=? max_str_digits)
  then Ok (decimal s)
  else Raise ValueError.

End Py.

(* ------------------------------------------------------------------ *)
(** ** Regular expressions

    The fragment of [re] the four patterns of [DiffRepresentation] and the
    ellipsis pattern of [split_and_process_snippet] are written in.
    Repetition is only ever applied to a character class. *)

Module Re.
Import Py.

Inductive regex : Type :=
| Lit (s : string)              (* literal text *)
| Plus (p : ascii -> bool)      (* [c+], greedy *)
| Star (p : ascii -> bool)      (* [c*], greedy *)
| Opt (r : regex)               (* [r?], greedy *)
| Alt (r1 r2 : regex)           (* [r1|r2] *)
| Seq (r1 r2 : regex)           (* [r1 r2] *)
| Group (i : nat) (r : regex)   (* the [i]-th capturing group *)
| Eos.                          (* [$] *)

(** Captured groups, most recently closed first. *)
Definition captures : Type := list (nat * string).

Fixpoint group (i : nat) (caps : captures) : string :=
  match caps with
  | [] => EmptyString
  | (j, s) :: caps' => if Nat.eqb i j then s else group i caps'
  end.

Section Matcher.
Context {A : Type}.

(** The longest run of [p] first, then shorter ones, until the
    continuation [k] accepts. *)
Fixpoint greedy (p : ascii -> bool) (s : string)
    (k : string -> option A) : option A :=
  match s with
  | String c s' =>
      if p c then
        match greedy p s' k with
        | Some a => Some a
        | None => k s
        end
      else k s
  | EmptyString => k s
  end.

(** [$] holds at the end of the text and before a final newline. *)
Definition at_end (s : string) : bool :=
  match s with
  | EmptyString => true
  | String c EmptyString => Ascii.eqb c "010"
  | _ => false
  end.

(** [rmatch r s caps k] matches [r] at the front of [s] and hands the rest
    of the text and the groups to [k]; when [k] refuses, the next
    alternative of [r] is tried. *)
Fixpoint rmatch (r : regex) (s : string) (caps : captures)
    (k : string -> captures -> option A) : option A :=
  match r with
  | Lit l => if startswith s l then k (drop (slen l) s) caps else None
  | Plus p =>
      match s with
      | String c s' =>
          if p c then greedy p s' (fun s'' => k s'' caps) else None
      | EmptyString => None
      end
  | Star p => greedy p s (fun s' => k s' caps)
  | Opt r1 =>
      match rmatch r1 s caps k with
      | Some a => Some a
      | None => k s caps
      end
  | Alt r1 r2 =>
      match rmatch r1 s caps k with
      | Some a => Some a
      | None => rmatch r2 s caps k
      end
  | Seq r1 r2 => rmatch r1 s caps (fun s' caps' => rmatch r2 s' caps' k)
  | Group i r1 =>
      rmatch r1 s caps
        (fun s' caps' => k s' ((i, take (slen s - slen s') s) :: caps'))
  | Eos => if at_end s then k s caps else None
  end.
End Matcher.

(** A match of [r] at the very front of [s]: its groups and the text after
    it. *)
Definition match_at (r : regex) (s : string) : option (captures * string) :=
  rmatch r s [] (fun s' caps => Some (caps, s')).

Definition cat (rs : list regex) : regex := fold_right Seq (Lit "") rs.

(** The scan shared by [re.findall] and [re.sub]: leftmost match first, the
    search resumes where the match ended.  [fuel] bounds the number of
    positions visited; [S (slen s)] is enough, as no pattern of this program
    matches the empty text.  Each item carries the unmatched text before
    its match; the second component of the result is the unmatched text
    after the last match. *)
Fixpoint scan_fuel (fuel : nat) (r : regex) (s : string)
    : list (string * captures) * string :=
  match fuel with
  | O => ([], s)
  | S fuel' =>
      match match_at r s with
      | Some (caps, rest) =>
          let '(ms, tl) := scan_fuel fuel' r rest in
          ((EmptyString, caps) :: ms, tl)
      | None =>
          match s with
          | EmptyString => ([], EmptyString)
          | String c s' =>
              match scan_fuel fuel' r s' with
              | ((pre, caps) :: ms, tl) => ((String c pre, caps) :: ms, tl)
              | ([], tl) => ([], String c tl)
              end
          end
      end
  end.

Definition scan (r : regex) (s : string) : list (string * captures) * string :=
  scan_fuel (S (slen s)) r s.

(** [re.findall(r, s)], each match given by its groups. *)
Definition findall (r : regex) (s : string) : list captures :=
  map snd (fst (scan r s)).

(** [re.sub(r, "", s)] *)
Definition sub_empty (r : regex) (s : string) : string :=
  let '(ms, tl) := scan r s in
  fold_right (fun m acc => fst m ++ acc) tl ms.

End Re.

(* ------------------------------------------------------------------ *)
(** ** models.py *)

Record LineNumberRange : Set := mkRange {
  start_number : Z;
  end_number : Z
}.

(** [r.start_number = n] *)
Definition set_start_number (r : LineNumberRange) (n : Z) : LineNumberRange :=
  {| start_number := n; end_number := end_number r |}.

(* ------------------------------------------------------------------ *)
(** ** string_search.py *)

Module StringSearch.
Import Py Re.

(** [r"(\[|\{)?\.\.\.(\]|\})?$"] *)
Definition regex_ellipsis : regex :=
  cat [Opt (Group 1 (Alt (Lit "[") (Lit "{")));
       Lit "...";
       Opt (Group 2 (Alt (Lit "]") (Lit "}")));
       Eos].

(** [lines[0] = f(lines[0])]; raises on the empty list. *)
Definition update_first (f : string -> string) (lines : list string)
    : result (list string) :=
  match lines with
  | [] => Raise IndexError
  | l :: ls => Ok (f l :: ls)
  end.

(** [lines[-1] = f(lines[-1])]; raises on the empty list. *)
Fixpoint update_last (f : string -> string) (lines : list string)
    : result (list string) :=
  match lines with
  | [] => Raise IndexError
  | [l] => Ok [f l]
  | l :: ls => ls' <- update_last f ls ;; Ok (l :: ls')
  end.

Definition split_and_process_snippet (code_snippet : string)
    : result (list string) :=
  let code_snippet_lines := splitlines (strip code_snippet) in
  code_snippet_lines <-
    update_first (sub_empty regex_ellipsis) code_snippet_lines ;;
  code_snippet_lines <-
    update_last (sub_empty regex_ellipsis) code_snippet_lines ;;
  Ok (map strip code_snippet_lines).

(** [lines[0]] and [lines[-1]] *)
Definition first_line (lines : list string) : result string :=
  match lines with
  | [] => Raise IndexError
  | l :: _ => Ok l
  end.

Definition last_line (lines : list string) : result string :=
  match lines with
  | [] => Raise IndexError
  | l :: ls => Ok (last ls l)
  end.

Section Locator.
(** [fuzz.ratio], a score between 0 and 100. *)
Variable fuzz_ratio : string -> string -> Z.

(** The loop of [get_line_idx_in_content], [idx] counting from [from]. *)
Fixpoint get_line_idx_from (from : Z) (end_line : string)
    (content_lines : list string) (fuzzy_match : bool) : Z :=
  match content_lines with
  | [] => -1
  | content_line :: more =>
      if fuzzy_match && (fuzz_ratio end_line (strip content_line) >? 90)
         || contains end_line content_line
      then from
      else get_line_idx_from (from + 1) end_line more fuzzy_match
  end.

Definition get_line_idx_in_content (end_line : string)
    (content_lines : list string) (fuzzy_match : bool) : Z :=
  get_line_idx_from 0 end_line content_lines fuzzy_match.

Definition get_line_number_range (start_line_idx : Z)
    (content_lines : list string) (end_line : string) (fuzzy_match : bool)
    : option LineNumberRange :=
  let end_line_idx :=
    get_line_idx_in_content end_line
      (skipn (Z.to_nat start_line_idx) content_lines) fuzzy_match
    + start_line_idx in
  if start_line_idx >? end_line_idx then None
  else Some (mkRange (start_line_idx + 1) (end_line_idx + 1)).

Section Scan.
Variables (start_line_contents end_line_contents : string)
          (content_lines : list string).

(** The [while] loop of [scan_content]; the state is [idx] and the list
    [line_number_ranges] of the enclosing function. *)
Fixpoint scan_content_loop (fuel : nat) (fuzzy_match : bool) (idx : Z)
    (line_number_ranges : list LineNumberRange) : list LineNumberRange :=
  match fuel with
  | O => line_number_ranges
  | S fuel' =>
      if idx <? Z.of_nat (List.length content_lines) then
        let content_line := nth (Z.to_nat idx) content_lines "" in
        let line_number_range :=
          if fuzzy_match then
            if fuzz_ratio start_line_contents (strip content_line) >? 90
            then get_line_number_range idx content_lines
                   end_line_contents true
            else None
          else
            if contains start_line_contents content_line
            then get_line_number_range idx content_lines
                   end_line_contents false
            else None in
        match line_number_range with
        | Some r =>
            scan_content_loop fuel' fuzzy_match (end_number r - 1 + 1)
              (line_number_ranges ++ [r])
        | None =>
            scan_content_loop fuel' fuzzy_match (idx + 1)
              line_number_ranges
        end
      else line_number_ranges
  end.

(** [idx] grows at every turn, so the loop ends within
    [len(content_lines)] turns. *)
Definition scan_content (fuzzy_match : bool)
    (line_number_ranges : list LineNumberRange) : list LineNumberRange :=
  scan_content_loop (List.length content_lines) fuzzy_match 0
    line_number_ranges.
End Scan.

Definition get_line_number_ranges_in_content
    (start_line_contents end_line_contents content : string)
    : list LineNumberRange :=
  let content_lines := split_nl content in
  let line_number_ranges := [] in
  let line_number_ranges :=
    scan_content start_line_contents end_line_contents content_lines
      false line_number_ranges in
  let line_number_ranges :=
    if (Z.of_nat (List.length line_number_ranges) =? 0)
    then scan_content start_line_contents end_line_contents content_lines
           true line_number_ranges
    else line_number_ranges in
  line_number_ranges.

Definition find_line_number_ranges_of_code_snippet_in_content
    (code_snippet content : string) : result (list LineNumberRange) :=
  code_snippet_lines <- split_and_process_snippet code_snippet ;;
  first <- first_line code_snippet_lines ;;
  last <- last_line code_snippet_lines ;;
  Ok (get_line_number_ranges_in_content first last content).
End Locator.

End StringSearch.

(* ------------------------------------------------------------------ *)
(** ** diff_representation.py *)

Module DiffRepresentation.
Import Py Re StringSearch.

Definition any_char (c : ascii) : bool := negb (Ascii.eqb c "010").

(** [r"@@ -\d+,\d+ \+\d+,\d+ @@ (.+)"] *)
Definition regex_diff_hunk_header : regex :=
  cat [Lit "@@ -"; Plus is_digit; Lit ","; Plus is_digit;
       Lit " +"; Plus is_digit; Lit ","; Plus is_digit;
       Lit " @@ "; Group 1 (Plus any_char)].

(** [r"(@@ -\d+,?\d* \+\d+,?\d* @@)"] *)
Definition regex_diff_line_number_group : regex :=
  Group 1
    (cat [Lit "@@ -"; Plus is_digit; Opt (Lit ","); Star is_digit;
          Lit " +"; Plus is_digit; Opt (Lit ","); Star is_digit;
          Lit " @@"]).

(** [r"@@ -(\d+),(\d+) \+(\d+),(\d+) @@"] *)
Definition regex_diff_line_number_pattern : regex :=
  cat [Lit "@@ -"; Group 1 (Plus is_digit); Lit ","; Group 2 (Plus is_digit);
       Lit " +"; Group 3 (Plus is_digit); Lit ","; Group 4 (Plus is_digit);
       Lit " @@"].

(** [r"@@ -(\d+),?\d* \+(\d+) @@"] *)
Definition regex_diff_one_line_number_pattern : regex :=
  cat [Lit "@@ -"; Group 1 (Plus is_digit); Opt (Lit ","); Star is_digit;
       Lit " +"; Group 2 (Plus is_digit); Lit " @@"].

(** A [match] of [re.findall] for a pattern with several groups is the
    tuple of its groups; [match[i]] is group [i + 1]. *)
Definition item (m : captures) (i : nat) : string := group (S i) m.

Definition _get_line_number_range_from_match_pair
    (start_line num_edit_lines : Z) : LineNumberRange :=
  mkRange start_line (start_line + num_edit_lines).

(** The conversions are made in the order in which the arguments are
    written; the first one that raises ends the call. *)
Definition _get_line_numbers_edited_one_line (regex_results : list captures)
    : result (list (LineNumberRange * LineNumberRange)) :=
  for_each
    (fun m =>
       old_start_line <- int (item m 0) ;;
       new_start_line <- int (item m 1) ;;
       Ok (_get_line_number_range_from_match_pair old_start_line 1,
           _get_line_number_range_from_match_pair new_start_line 1))
    regex_results.

Definition _get_line_numbers_edited_multiple_lines
    (regex_results : list captures)
    : result (list (LineNumberRange * LineNumberRange)) :=
  for_each
    (fun m =>
       old_start_line <- int (item m 0) ;;
       old_num_edit_lines <- int (item m 1) ;;
       let old_diff_context_range :=
         _get_line_number_range_from_match_pair
           old_start_line old_num_edit_lines in
       new_start_line <- int (item m 2) ;;
       new_num_edit_lines <- int (item m 3) ;;
       let new_diff_context_range :=
         _get_line_number_range_from_match_pair
           new_start_line new_num_edit_lines in
       Ok (old_diff_context_range, new_diff_context_range))
    regex_results.

Definition _get_line_numbers_edited_in_both_files (diff : string)
    : result (list (LineNumberRange * LineNumberRange)) :=
  if String.eqb diff "" then Ok []
  else
    let regex_results := findall regex_diff_line_number_pattern diff in
    match regex_results with
    | [] =>
        let regex_results :=
          findall regex_diff_one_line_number_pattern diff in
        _get_line_numbers_edited_one_line regex_results
    | _ => _get_line_numbers_edited_multiple_lines regex_results
    end.

Definition get_line_numbers_edited_in_old_file (diff : string)
    : result (list LineNumberRange) :=
  both_edited_line_numbers <- _get_line_numbers_edited_in_both_files diff ;;
  Ok (map fst both_edited_line_numbers).

Definition get_line_numbers_edited_in_new_file (diff : string)
    : result (list LineNumberRange) :=
  both_edited_line_numbers <- _get_line_numbers_edited_in_both_files diff ;;
  Ok (map snd both_edited_line_numbers).

Section Expansion.
Variable fuzz_ratio : string -> string -> Z.

(** The body of the inner [for diff_line in ...] loop, on the range of the
    hunk at hand. *)
Definition extend_on_line (file_content match_ : string)
    (line_number_range : LineNumberRange) (diff_line : string)
    : result LineNumberRange :=
  let hunk_header_result :=
    map (group 1) (findall regex_diff_hunk_header diff_line) in
  if startswith diff_line match_
     && negb (Nat.eqb (List.length hunk_header_result) 0)
  then
    line_range_from_hunk_header <-
      find_line_number_ranges_of_code_snippet_in_content fuzz_ratio
        (hd "" hunk_header_result) file_content ;;
    match line_range_from_hunk_header with
    | found :: _ =>
        Ok (set_start_number line_number_range (start_number found))
    | [] => Ok line_number_range
    end
  else Ok line_number_range.

Fixpoint extend_on_lines (file_content match_ : string)
    (line_number_range : LineNumberRange) (diff_lines : list string)
    : result LineNumberRange :=
  match diff_lines with
  | [] => Ok line_number_range
  | diff_line :: more =>
      line_number_range <-
        extend_on_line file_content match_ line_number_range diff_line ;;
      extend_on_lines file_content match_ line_number_range more
  end.

(** The outer loop over [zip(regex_results, newly_edited_lines)]. *)
Fixpoint extend_all (diff file_content : string)
    (pairs : list (string * LineNumberRange))
    : result (list LineNumberRange) :=
  match pairs with
  | [] => Ok []
  | (match_, line_number_range) :: more =>
      line_number_range <-
        extend_on_lines file_content match_ line_number_range
          (split_nl diff) ;;
      rest <- extend_all diff file_content more ;;
      Ok (line_number_range :: rest)
  end.

Definition get_extended_diff_line_ranges_by_hunk_header
    (diff file_content : string) : result (list LineNumberRange) :=
  if String.eqb diff "" then Ok []
  else
    newly_edited_lines <- get_line_numbers_edited_in_new_file diff ;;
    let regex_results :=
      map (group 1) (findall regex_diff_line_number_group diff) in
    extend_all diff file_content (combine regex_results newly_edited_lines).
End Expansion.

End DiffRepresentation.

(* ------------------------------------------------------------------ *)
(** ** A similarity score

    The locator is proved correct for every score.  To run it on examples
    one score is needed; this is the one [fuzz.ratio] computes when it is
    backed by python-Levenshtein: 100 for two equal strings, 0 when one of
    two different strings is empty, and otherwise twice the length of a
    longest common subsequence over the sum of the lengths, as a rounded
    percentage.  (Backed by difflib the package scores by matching blocks
    instead, which can give less; the examples below use strings on which
    the two agree.) *)

Module Fuzz.
Import Py.

(** One row of the table of longest common subsequences: [prev] is the
    row above from the next column on, [diag] and [left] the entries above
    left and left of the one to fill. *)
Fixpoint lcs_row (c : ascii) (b : string) (prev : list nat)
    (diag left : nat) : list nat :=
  match b, prev with
  | String d b', up :: prev' =>
      let v := if Ascii.eqb c d then S diag else Nat.max up left in
      v :: lcs_row c b' prev' up v
  | _, _ => []
  end.

Fixpoint lcs_rows (a b : string) (row : list nat) : list nat :=
  match a with
  | EmptyString => row
  | String c a' => lcs_rows a' b (lcs_row c b row O O)
  end.

(** The length of a longest common subsequence of [a] and [b]. *)
Definition lcs (a b : string) : nat :=
  last (lcs_rows a b (repeat O (slen b))) O.

(** [int(round(num / den))], halves to the even neighbour. *)
Definition round_div (num den : Z) : Z :=
  let q := num / den in
  let r := num mod den in
  if (2 * r >? den) || ((2 * r =? den) && Z.odd q) then q + 1 else q.

Definition ratio (s1 s2 : string) : Z :=
  if String.eqb s1 s2 then 100
  else if String.eqb s1 "" || String.eqb s2 "" then 0
  else round_div (100 * (2 * Z.of_nat (lcs s1 s2)))
                 (Z.of_nat (slen s1 + slen s2)).

End Fuzz.

(* ------------------------------------------------------------------ *)
(** ** Sample diffs, snippets and files *)

Module Samples.
Import Py.

(** Two hunks with four-number headers, the first with trailing context. *)
Definition two_hunks : string :=
  "--- a/f.py" ++ nl ++ "+++ b/f.py" ++ nl ++
  "@@ -37,7 +38,9 @@ def a_cool_function() -> None:" ++ nl ++
  "-    something=None," ++ nl ++ "+    something=100," ++ nl ++
  "@@ -120,3 +123,4 @@" ++ nl ++ "+    more=1," ++ nl.

(** Two hunks with headers of the one-line pattern. *)
Definition one_line_hunks : string :=
  "@@ -3 +4 @@" ++ nl ++ "-x" ++ nl ++ "+y" ++ nl ++
  "@@ -10,0 +12 @@" ++ nl ++ "+z".

(** A one-line header followed by a four-number header. *)
Definition mixed_hunks : string :=
  "@@ -3 +4 @@" ++ nl ++ "-x" ++ nl ++ "+y" ++ nl ++
  "@@ -10,2 +12,3 @@" ++ nl ++ "+z".

(** [n] times the digit 9. *)
Fixpoint nines (n : nat) : string :=
  match n with
  | O => ""
  | S n' => String "9" (nines n')
  end.

(** A four-number header whose last number has 4301 digits, and a header
    of the one-line pattern whose new start has 4301 digits. *)
Definition oversized_count : string :=
  "@@ -1,2 +3," ++ nines 4301 ++ " @@".

Definition oversized_start : string :=
  "@@ -1 +" ++ nines 4301 ++ " @@".

(** A snippet whose last line ends in an ellipsis marker, and a file that
    holds it in lines 3 to 5. *)
Definition sample_snippet : string :=
  "def f(x):" ++ nl ++ "    return x...".

Definition sample_content : string :=
  "import os" ++ nl ++ "" ++ nl ++ "def f(x):" ++ nl ++ "    y = x" ++ nl ++
  "    return x" ++ nl.

(** A file whose second line differs from the snippet line
    [def foo(a, b):] by one blank. *)
Definition drifted_content : string :=
  "import os" ++ nl ++ "def foo(a,b):" ++ nl ++ "    x = a" ++ nl ++
  "    return a + b  # done" ++ nl.

(** A hunk at line 1 whose trailing context stands in line 4 of the file. *)
Definition late_diff : string :=
  "@@ -1,2 +1,2 @@ def f():" ++ nl ++ "-a" ++ nl ++ "+b" ++ nl.

Definition late_content : string :=
  "x = 1" ++ nl ++ "y = 2" ++ nl ++ "z = 3" ++ nl ++ "def f():" ++ nl ++
  "    pass".

(** The diff of the docstring of
    [get_extended_diff_line_ranges_by_hunk_header], and a file that defines
    [a_cool_function] in line 30. *)
Definition cool_diff : string :=
  "@@ -37,7 +37,7 @@ def a_cool_function() -> None:" ++ nl ++
  "-    something=None," ++ nl ++ "+    something=100," ++ nl.

Fixpoint comment_lines (n : nat) : string :=
  match n with
  | O => ""
  | S n' => "# filler" ++ nl ++ comment_lines n'
  end.

Definition cool_content : string :=
  comment_lines 29 ++ "def a_cool_function() -> None:" ++ nl ++
  "    call(" ++ nl ++ "        something=100," ++ nl ++ "    )" ++ nl.

End Samples.

(* ------------------------------------------------------------------ *)
(** ** Facts about the string primitives *)

Module PyFacts.
Import Py.

Lemma slen_app (a b : string) : slen (a ++ b) = (slen a + slen b)%nat.
Proof. induction a as [|c a IH]; simpl; [reflexivity | now rewrite IH]. Qed.

Lemma str_app_empty_r (a : string) : a ++ "" = a.
Proof. induction a as [|c a IH]; simpl; [reflexivity | now rewrite IH]. Qed.

Lemma str_app_assoc (a b c : string) : (a ++ b) ++ c = a ++ b ++ c.
Proof. induction a as [|x a IH]; simpl; [reflexivity | now rewrite IH]. Qed.

Lemma str_app_inv_head (a b c : string) : a ++ b = a ++ c -> b = c.
Proof. induction a as [|x a IH]; simpl; intros H; [assumption|]. injection H; auto. Qed.

Lemma startswith_app (p rest : string) : startswith (p ++ rest) p = true.
Proof.
  induction p as [|c p IH]; simpl; [reflexivity|].
  now rewrite Ascii.eqb_refl, IH.
Qed.

Lemma startswith_inv (s p : string) :
  startswith s p = true -> s = p ++ drop (slen p) s.
Proof.
  revert s; induction p as [|c p IH]; intros s H; simpl in *; [reflexivity|].
  destruct s as [|d s]; [discriminate|].
  apply andb_true_iff in H as [Hc Hp].
  apply Ascii.eqb_eq in Hc; subst d.
  now rewrite <- (IH s Hp).
Qed.

Lemma drop_app (p rest : string) : drop (slen p) (p ++ rest) = rest.
Proof. induction p as [|c p IH]; simpl; auto. Qed.

Lemma take_app (p rest : string) :
  take (slen (p ++ rest) - slen rest) (p ++ rest) = p.
Proof.
  rewrite slen_app.
  replace (slen p + slen rest - slen rest)%nat with (slen p) by lia.
  induction p as [|c p IH]; simpl; [reflexivity | now rewrite IH].
Qed.

Lemma contains_startswith (sub s : string) :
  startswith s sub = true -> contains sub s = true.
Proof. intros H. destruct s; simpl; now rewrite H. Qed.

Lemma contains_app (sub a b : string) : contains sub (a ++ sub ++ b) = true.
Proof.
  induction a as [|c a IH].
  - change ("" ++ sub ++ b) with (sub ++ b).
    apply contains_startswith, startswith_app.
  - simpl. fold (a ++ sub ++ b). rewrite IH. apply orb_true_r.
Qed.

Lemma contains_inv (sub s : string) :
  contains sub s = true -> exists a b, s = a ++ sub ++ b.
Proof.
  induction s as [|c s IH]; simpl; intros H.
  - rewrite orb_false_r in H. apply startswith_inv in H.
    exists "", (drop (slen sub) ""). exact H.
  - apply orb_true_iff in H as [H|H].
    + apply startswith_inv in H. exists "", (drop (slen sub) (String c s)).
      exact H.
    + destruct (IH H) as (a & b & ->). now exists (String c a), b.
Qed.

Lemma all_chars_app p a b :
  all_chars p (a ++ b) = all_chars p a && all_chars p b.
Proof.
  induction a as [|c a IH]; simpl; [reflexivity|].
  now rewrite IH, andb_assoc.
Qed.

(** The text does not go on with a character of the class [p]. *)
Definition stops (p : ascii -> bool) (s : string) : bool :=
  match s with
  | EmptyString => true
  | String c _ => negb (p c)
  end.

Lemma int_acc_nonneg (s : string) (acc : Z) :
  all_chars is_digit s = true -> 0 <= acc -> 0 <= int_acc acc s.
Proof.
  revert acc; induction s as [|c s IH]; intros acc H Hacc;
    cbn [int_acc all_chars] in *; [assumption|].
  apply andb_true_iff in H as [Hc Hs].
  apply IH; [assumption|].
  unfold is_digit in Hc. apply andb_true_iff in Hc as [H1 H2].
  apply Nat.leb_le in H1. unfold digit_value. lia.
Qed.

Lemma decimal_nonneg (s : string) :
  all_chars is_digit s = true -> 0 <= decimal s.
Proof. intros H. apply int_acc_nonneg; [assumption | lia]. Qed.

Lemma int_acc_snoc (s : string) (c : ascii) (acc : Z) :
  int_acc acc (s ++ String c "") = 10 * int_acc acc s + digit_value c.
Proof. revert acc; induction s as [|d s IH]; simpl; intros acc; auto. Qed.

(** [decimal] reads decimal notation: a further digit multiplies by ten. *)
Lemma decimal_snoc (s : string) (c : ascii) :
  decimal (s ++ String c "") = 10 * decimal s + digit_value c.
Proof. apply int_acc_snoc. Qed.

(** The number is written with no more digits than [int()] takes. *)
Definition fits (s : string) : bool := Z.of_nat (slen s) <=? max_str_digits.

(** On what [\d+] matches, [int] raises exactly beyond the limit. *)
Lemma int_number (s : string) :
  is_number s = true ->
  int s = if fits s then Ok (decimal s) else Raise ValueError.
Proof. unfold int, fits. now intros ->. Qed.

End PyFacts.

(* ------------------------------------------------------------------ *)
(** ** Facts about the matcher *)

Module ReFacts.
Import Py Re PyFacts.

Section Greedy.
Context {A : Type}.
Implicit Types (k : string -> option A) (p : ascii -> bool).

(** When the continuation accepts after the whole run, that is the
    answer. *)
Lemma greedy_max p k (run rest : string) (x : A) :
  all_chars p run = true -> k rest = Some x -> stops p rest = true ->
  greedy p (run ++ rest) k = Some x.
Proof.
  intros Hrun Hk Hstop.
  induction run as [|c run IH]; simpl in *.
  - destruct rest as [|d rest]; simpl in *; [assumption|].
    now destruct (p d).
  - apply andb_true_iff in Hrun as [Hc Hrun].
    now rewrite Hc, (IH Hrun).
Qed.

Lemma greedy_inv p k (s : string) (x : A) :
  greedy p s k = Some x ->
  exists run rest, s = run ++ rest /\ all_chars p run = true /\
                   k rest = Some x.
Proof.
  induction s as [|c s IH]; simpl; intros H.
  - now exists "", "".
  - destruct (p c) eqn:Hc.
    + destruct (greedy p s k) as [y|] eqn:Hg.
      * injection H as ->. destruct (IH eq_refl) as (run & rest & -> & Hr & Hk).
        exists (String c run), rest; simpl. now rewrite Hc, Hr.
      * now exists "", (String c s).
    + now exists "", (String c s).
Qed.
End Greedy.

Section Inversion.
Context {A : Type}.
Implicit Types (k : string -> captures -> option A).

Lemma rmatch_lit l rest caps k :
  rmatch (Lit l) (l ++ rest) caps k = k rest caps.
Proof. simpl. now rewrite startswith_app, drop_app. Qed.

Lemma rmatch_lit_empty s caps k : rmatch (Lit "") s caps k = k s caps.
Proof. reflexivity. Qed.

Lemma rmatch_lit_inv l s caps k (x : A) :
  rmatch (Lit l) s caps k = Some x ->
  exists rest, s = l ++ rest /\ k rest caps = Some x.
Proof.
  simpl. destruct (startswith s l) eqn:H; [|discriminate].
  intros Hk. exists (drop (slen l) s). split; [now apply startswith_inv | assumption].
Qed.

Lemma rmatch_plus p run rest caps k (x : A) :
  is_run p run = true -> stops p rest = true ->
  k rest caps = Some x ->
  rmatch (Plus p) (run ++ rest) caps k = Some x.
Proof.
  unfold is_run. intros Hrun Hstop Hk.
  destruct run as [|c run]; [discriminate|]. simpl in *.
  apply andb_true_iff in Hrun as [Hc Hrun]. rewrite Hc.
  now apply greedy_max.
Qed.

Lemma rmatch_plus_inv p s caps k (x : A) :
  rmatch (Plus p) s caps k = Some x ->
  exists run rest, s = run ++ rest /\ is_run p run = true /\
                   k rest caps = Some x.
Proof.
  simpl. destruct s as [|c s]; [discriminate|].
  destruct (p c) eqn:Hc; [|discriminate].
  intros H. apply greedy_inv in H as (run & rest & -> & Hrun & Hk).
  exists (String c run), rest. unfold is_run; simpl. now rewrite Hc, Hrun.
Qed.

Lemma rmatch_star p run rest caps k (x : A) :
  all_chars p run = true -> stops p rest = true ->
  k rest caps = Some x ->
  rmatch (Star p) (run ++ rest) caps k = Some x.
Proof. intros. simpl. now apply greedy_max. Qed.

Lemma rmatch_star_inv p s caps k (x : A) :
  rmatch (Star p) s caps k = Some x ->
  exists run rest, s = run ++ rest /\ all_chars p run = true /\
                   k rest caps = Some x.
Proof. simpl. apply greedy_inv. Qed.

Lemma rmatch_group_plus i p run rest caps k (x : A) :
  is_run p run = true -> stops p rest = true ->
  k rest ((i, run) :: caps) = Some x ->
  rmatch (Group i (Plus p)) (run ++ rest) caps k = Some x.
Proof.
  intros Hrun Hstop Hk.
  change (rmatch (Plus p) (run ++ rest) caps
            (fun s' caps' =>
               k s' ((i, take (slen (run ++ rest) - slen s') (run ++ rest))
                     :: caps')) = Some x).
  apply rmatch_plus; try assumption. now rewrite take_app.
Qed.

Lemma rmatch_group_plus_inv i p s caps k (x : A) :
  rmatch (Group i (Plus p)) s caps k = Some x ->
  exists run rest, s = run ++ rest /\ is_run p run = true /\
                   k rest ((i, run) :: caps) = Some x.
Proof.
  intros H.
  change (rmatch (Plus p) s caps
            (fun s' caps' => k s' ((i, take (slen s - slen s') s) :: caps'))
          = Some x) in H.
  apply rmatch_plus_inv in H as (run & rest & -> & Hrun & Hk).
  rewrite take_app in Hk. now exists run, rest.
Qed.

Lemma rmatch_opt_inv r s caps k (x : A) :
  rmatch (Opt r) s caps k = Some x ->
  rmatch r s caps k = Some x \/ k s caps = Some x.
Proof. simpl. destruct (rmatch r s caps k); intros H; [now left | now right]. Qed.

Lemma rmatch_opt_take r s caps k (x : A) :
  rmatch r s caps k = Some x -> rmatch (Opt r) s caps k = Some x.
Proof. simpl. now intros ->. Qed.

Lemma rmatch_opt_skip r s caps k :
  rmatch r s caps k = None -> rmatch (Opt r) s caps k = k s caps.
Proof. simpl. now intros ->. Qed.

Lemma rmatch_seq r1 r2 s caps k :
  rmatch (Seq r1 r2) s caps k =
  rmatch r1 s caps (fun s' caps' => rmatch r2 s' caps' k).
Proof. reflexivity. Qed.
End Inversion.

(** *** The scan ends within its fuel

    A pattern that cannot match the empty text moves the scan forward at
    every match, so that [S (slen s)] positions are enough. *)

Fixpoint consumes (r : regex) : bool :=
  match r with
  | Lit l => negb (String.eqb l "")
  | Plus _ => true
  | Star _ => false
  | Opt _ => false
  | Alt r1 r2 => consumes r1 && consumes r2
  | Seq r1 r2 => consumes r1 || consumes r2
  | Group _ r1 => consumes r1
  | Eos => false
  end.

Section Progress.
Context {A : Type}.
Implicit Types (k : string -> captures -> option A).

Lemma rmatch_shorter r :
  forall s caps k (x : A),
    rmatch r s caps k = Some x ->
    exists s' caps',
      (slen s' <= slen s)%nat /\
      (consumes r = true -> (slen s' < slen s)%nat) /\
      k s' caps' = Some x.
Proof.
  induction r as [l | p | p | r1 IH1 | r1 IH1 r2 IH2 | r1 IH1 r2 IH2
                 | i r1 IH1 | ]; intros s caps k x H.
  - apply rmatch_lit_inv in H as (rest & -> & H).
    exists rest, caps. rewrite slen_app. repeat split; [lia | | exact H].
    cbn [consumes]. destruct l; [discriminate | simpl; lia].
  - apply rmatch_plus_inv in H as (run & rest & -> & Hrun & H).
    exists rest, caps. rewrite slen_app. repeat split; [lia | | exact H].
    intros _. destruct run; [discriminate | simpl; lia].
  - apply rmatch_star_inv in H as (run & rest & -> & Hrun & H).
    exists rest, caps. rewrite slen_app. repeat split; [lia | | exact H].
    discriminate.
  - apply rmatch_opt_inv in H as [H|H].
    + apply IH1 in H as (s' & caps' & Hle & _ & H).
      exists s', caps'. repeat split; [exact Hle | discriminate | exact H].
    + exists s, caps. repeat split; [lia | discriminate | exact H].
  - cbn [rmatch] in H. cbn [consumes].
    destruct (rmatch r1 s caps k) as [y|] eqn:E.
    + injection H as ->. apply IH1 in E as (s' & caps' & Hle & Hlt & H).
      exists s', caps'. repeat split; try assumption.
      intros Hc. apply andb_true_iff in Hc as [Hc _]. auto.
    + apply IH2 in H as (s' & caps' & Hle & Hlt & H).
      exists s', caps'. repeat split; try assumption.
      intros Hc. apply andb_true_iff in Hc as [_ Hc]. auto.
  - rewrite rmatch_seq in H.
    apply IH1 in H as (s1 & caps1 & Hle1 & Hlt1 & H).
    apply IH2 in H as (s2 & caps2 & Hle2 & Hlt2 & H).
    exists s2, caps2. repeat split; [lia | | exact H].
    cbn [consumes]. intros Hc. apply orb_true_iff in Hc as [Hc|Hc];
      [specialize (Hlt1 Hc) | specialize (Hlt2 Hc)]; lia.
  - cbn [rmatch] in H. apply IH1 in H as (s' & caps' & Hle & Hlt & H).
    eexists s', _. repeat split; [exact Hle | exact Hlt | exact H].
  - cbn [rmatch] in H. destruct (at_end s); [|discriminate].
    exists s, caps. repeat split; [lia | discriminate | exact H].
Qed.
End Progress.

Lemma match_at_shorter (r : regex) (s rest : string) (caps : captures) :
  consumes r = true -> match_at r s = Some (caps, rest) ->
  (slen rest < slen s)%nat.
Proof.
  intros Hc H. apply rmatch_shorter in H as (s' & caps' & _ & Hlt & H).
  injection H as _ <-. auto.
Qed.

Lemma scan_fuel_enough (r : regex) :
  consumes r = true ->
  forall fuel1 fuel2 s,
    (slen s < fuel1)%nat -> (slen s < fuel2)%nat ->
    scan_fuel fuel1 r s = scan_fuel fuel2 r s.
Proof.
  intros Hc. induction fuel1 as [|fuel1 IH]; intros fuel2 s H1 H2; [lia|].
  destruct fuel2 as [|fuel2]; [lia|]. cbn [scan_fuel].
  destruct (match_at r s) as [[caps rest]|] eqn:E.
  - apply (match_at_shorter r s rest caps Hc) in E.
    now rewrite (IH fuel2 rest) by lia.
  - destruct s as [|c s]; [reflexivity|].
    simpl in H1, H2. now rewrite (IH fuel2 s) by lia.
Qed.

(** More fuel than [scan] takes does not change the result. *)
Lemma scan_enough (r : regex) (s : string) (fuel : nat) :
  consumes r = true -> (slen s < fuel)%nat -> scan_fuel fuel r s = scan r s.
Proof. intros Hc Hf. apply scan_fuel_enough; [exact Hc | exact Hf | lia]. Qed.

(** *** Occurrences of a pattern in a text

    [shape g h] says that the text [h] is an instance of the pattern that
    carries the items [g].  A text splits into stretches in which no
    instance begins and the instances between them, an instance that begins
    inside an earlier one not being counted; [findall] returns the items of
    these instances from left to right. *)

Section Occurrences.
Variable r : regex.
Variable G : Type.
Variable shape : G -> string -> Prop.
Variable caps_of : G -> captures.

Hypothesis complete : forall g h rest,
  shape g h -> match_at r (h ++ rest) = Some (caps_of g, rest).
Hypothesis sound : forall s caps rest,
  match_at r s = Some (caps, rest) ->
  exists g h, shape g h /\ s = h ++ rest /\ caps = caps_of g.
Hypothesis nonempty : forall g, ~ shape g "".

(** An instance of the pattern begins at the front of [s]. *)
Definition starts_here (s : string) : Prop :=
  exists g h rest, shape g h /\ s = h ++ rest.

Inductive Occ : string -> list G -> Prop :=
| Occ_none (s : string) :
    (forall p q, s = p ++ q -> ~ starts_here q) ->
    Occ s []
| Occ_hit (pre : string) (g : G) (h rest : string) (gs : list G) :
    (forall p q, pre = p ++ q -> q <> "" -> ~ starts_here (q ++ h ++ rest)) ->
    shape g h ->
    Occ rest gs ->
    Occ (pre ++ h ++ rest) (g :: gs).

Lemma no_start_no_match (s : string) :
  ~ starts_here s -> match_at r s = None.
Proof.
  intros H. destruct (match_at r s) as [[caps rest]|] eqn:E; [|reflexivity].
  exfalso. apply H. destruct (sound _ _ _ E) as (g & h & Hs & -> & _).
  now exists g, h, rest.
Qed.

Lemma no_match_no_start (s : string) :
  match_at r s = None -> ~ starts_here s.
Proof.
  intros E (g & h & rest & Hs & ->). now rewrite (complete _ _ rest Hs) in E.
Qed.

Lemma scan_fuel_none (s : string) :
  (forall p q, s = p ++ q -> ~ starts_here q) ->
  forall fuel, fst (scan_fuel fuel r s) = [].
Proof.
  intros H fuel. revert s H.
  induction fuel as [|fuel IH]; intros s H; [reflexivity|].
  cbn [scan_fuel]. rewrite (no_start_no_match s (H "" s eq_refl)).
  destruct s as [|c s]; [reflexivity|].
  assert (Hs : fst (scan_fuel fuel r s) = []).
  { apply IH. intros p q ->. now apply (H (String c p) q). }
  destruct (scan_fuel fuel r s) as [[|[pre caps] ms] tl];
    [reflexivity | discriminate].
Qed.

Lemma scan_fuel_occ (s : string) (gs : list G) :
  Occ s gs ->
  forall fuel, (slen s < fuel)%nat ->
  map snd (fst (scan_fuel fuel r s)) = map caps_of gs.
Proof.
  induction 1 as [s H | pre g h rest gs Hpre Hg Hrest IH]; intros fuel Hf.
  - now rewrite scan_fuel_none.
  - revert fuel Hf. induction pre as [|c pre IHpre]; intros fuel Hf.
    + destruct fuel as [|fuel]; [lia|].
      change ("" ++ h ++ rest) with (h ++ rest) in *.
      cbn [scan_fuel]. rewrite (complete _ _ rest Hg).
      assert (Hlen : (slen rest < fuel)%nat).
      { rewrite slen_app in Hf. destruct h; [now apply nonempty in Hg|].
        simpl in Hf. lia. }
      specialize (IH fuel Hlen).
      destruct (scan_fuel fuel r rest) as [ms tl]. simpl in *. now rewrite IH.
    + destruct fuel as [|fuel]; [lia|].
      change (String c pre ++ h ++ rest) with (String c (pre ++ h ++ rest))
        in *.
      cbn [scan_fuel].
      rewrite no_start_no_match
        by (apply (Hpre "" (String c pre)); [reflexivity | discriminate]).
      assert (Hlen : (slen (pre ++ h ++ rest) < fuel)%nat)
        by (simpl in Hf; lia).
      assert (Hpre' : forall p q, pre = p ++ q -> q <> "" ->
                                  ~ starts_here (q ++ h ++ rest)).
      { intros p q -> Hq. now apply (Hpre (String c p) q). }
      specialize (IHpre Hpre' fuel Hlen).
      destruct (scan_fuel fuel r (pre ++ h ++ rest)) as [[|[pre0 caps] ms] tl];
        [discriminate | exact IHpre].
Qed.

(** [findall] returns the items of the instances, from left to right. *)
Lemma findall_occ (s : string) (gs : list G) :
  Occ s gs -> findall r s = map caps_of gs.
Proof. intros H. apply (scan_fuel_occ s gs H). lia. Qed.

Lemma occ_cons (c : ascii) (s : string) (gs : list G) :
  match_at r (String c s) = None -> Occ s gs -> Occ (String c s) gs.
Proof.
  intros E H. apply no_match_no_start in E.
  destruct H as [s H | pre g h rest gs Hpre Hg Hrest].
  - apply Occ_none. intros [|d p] q Hq; simpl in Hq.
    + now subst q.
    + injection Hq as _ ->. now apply (H p q).
  - change (String c (pre ++ h ++ rest)) with (String c pre ++ h ++ rest).
    apply Occ_hit; try assumption.
    intros [|d p] q Hq Hne; simpl in Hq.
    + now subst q.
    + injection Hq as _ ->. now apply (Hpre p q).
Qed.

Lemma occ_fuel (fuel : nat) :
  forall s, (slen s < fuel)%nat -> exists gs, Occ s gs.
Proof.
  induction fuel as [|fuel IH]; intros s Hf; [lia|].
  destruct (match_at r s) as [[caps rest]|] eqn:E.
  - destruct (sound _ _ _ E) as (g & h & Hg & -> & _).
    destruct (IH rest) as [gs Hgs].
    { rewrite slen_app in Hf. destruct h; [now apply nonempty in Hg|].
      simpl in Hf. lia. }
    exists (g :: gs). apply (Occ_hit "" g h rest gs); try assumption.
    intros [|d p] q Hq Hne; [simpl in Hq; now subst q | discriminate].
  - destruct s as [|c s].
    + exists []. apply Occ_none. intros [|d p] q Hq; [|discriminate].
      simpl in Hq; subst q. now apply no_match_no_start.
    + destruct (IH s) as [gs Hgs]; [simpl in Hf; lia|].
      exists gs. now apply occ_cons.
Qed.

(** Every text splits in this way. *)
Lemma occ_total (s : string) : exists gs, Occ s gs.
Proof. apply (occ_fuel (S (slen s))). lia. Qed.

Lemma occ_shapes (s : string) (gs : list G) :
  Occ s gs -> Forall (fun g => exists h, shape g h) gs.
Proof. induction 1; constructor; eauto. Qed.

Lemma occ_nil_inv (s : string) :
  Occ s [] -> forall p q, s = p ++ q -> ~ starts_here q.
Proof. inversion 1; assumption. Qed.

Lemma occ_none_findall (s : string) : findall r s = [] -> Occ s [].
Proof.
  intros E. destruct (occ_total s) as [gs H].
  rewrite (findall_occ s gs H) in E. now destruct gs.
Qed.

(** No match begins in [pre], when [tail] follows it. *)
Fixpoint quiet (pre tail : string) : bool :=
  match pre with
  | EmptyString => true
  | String c pre' =>
      match match_at r (pre ++ tail) with
      | Some _ => false
      | None => quiet pre' tail
      end
  end.

Lemma quiet_spec (pre tail : string) :
  quiet pre tail = true ->
  forall p q, pre = p ++ q -> q <> "" -> ~ starts_here (q ++ tail).
Proof.
  induction pre as [|c pre IH]; intros H p q Hpq Hq.
  - destruct p; [simpl in Hpq; congruence | discriminate].
  - cbn [quiet] in H.
    destruct (match_at r (String c pre ++ tail)) eqn:E; [discriminate|].
    destruct p as [|d p]; simpl in Hpq.
    + subst q. now apply no_match_no_start.
    + injection Hpq as _ ->. now apply (IH H p q).
Qed.

(** The splitting can be computed, when the items can be read back from
    the groups. *)
Variable g_of : captures -> G.
Hypothesis g_of_caps : forall g, g_of (caps_of g) = g.

Lemma occ_findall (s : string) : Occ s (map g_of (findall r s)).
Proof.
  destruct (occ_total s) as [gs H].
  rewrite (findall_occ s gs H), map_map.
  rewrite (map_ext _ (fun g => g) g_of_caps), map_id. exact H.
Qed.
End Occurrences.

End ReFacts.

(* ------------------------------------------------------------------ *)
(** ** The hunk-header patterns, read as text shapes *)

Module Headers.
Import Py Re PyFacts ReFacts DiffRepresentation.

(** The text [@@ -a,b +c,d @@]. *)
Definition header4 (a b c d : string) : string :=
  "@@ -" ++ a ++ "," ++ b ++ " +" ++ c ++ "," ++ d ++ " @@".

Definition caps4 (a b c d : string) : captures :=
  [(4%nat, d); (3%nat, c); (2%nat, b); (1%nat, a)].

(** The text [@@ -a +c @@], or [@@ -a,b +c @@] with [b] possibly empty:
    [mid] is what stands between the old start and the blank. *)
Definition header1 (a mid c : string) : string :=
  "@@ -" ++ a ++ mid ++ " +" ++ c ++ " @@".

Definition is_mid (mid : string) : bool :=
  match mid with
  | EmptyString => true
  | String x b => Ascii.eqb x "," && all_chars is_digit b
  end.

Definition caps1 (a c : string) : captures := [(2%nat, c); (1%nat, a)].

Ltac forward :=
  cbv beta;
  first [ rewrite rmatch_seq
        | rewrite rmatch_lit_empty
        | rewrite rmatch_lit
        | apply rmatch_group_plus; [assumption | reflexivity |]
        | apply rmatch_plus; [assumption | reflexivity |]
        | apply rmatch_star; [assumption | reflexivity |] ].

Ltac nf H := cbv beta in H; rewrite ?rmatch_seq in H.

Lemma pattern4_complete (a b c d rest : string) :
  is_number a = true -> is_number b = true ->
  is_number c = true -> is_number d = true ->
  match_at regex_diff_line_number_pattern (header4 a b c d ++ rest)
  = Some (caps4 a b c d, rest).
Proof.
  intros Ha Hb Hc Hd. unfold is_number in *.
  unfold match_at, regex_diff_line_number_pattern, header4, cat.
  cbn [fold_right]. rewrite !str_app_assoc.
  repeat forward. reflexivity.
Qed.

Lemma pattern4_sound (s rest : string) (caps : captures) :
  match_at regex_diff_line_number_pattern s = Some (caps, rest) ->
  exists a b c d,
    is_number a = true /\ is_number b = true /\
    is_number c = true /\ is_number d = true /\
    s = header4 a b c d ++ rest /\ caps = caps4 a b c d.
Proof.
  unfold match_at, regex_diff_line_number_pattern, cat. cbn [fold_right].
  intros H. nf H.
  apply rmatch_lit_inv in H as (s1 & -> & H); nf H.
  apply rmatch_group_plus_inv in H as (a & s2 & -> & Ha & H); nf H.
  apply rmatch_lit_inv in H as (s3 & -> & H); nf H.
  apply rmatch_group_plus_inv in H as (b & s4 & -> & Hb & H); nf H.
  apply rmatch_lit_inv in H as (s5 & -> & H); nf H.
  apply rmatch_group_plus_inv in H as (c & s6 & -> & Hc & H); nf H.
  apply rmatch_lit_inv in H as (s7 & -> & H); nf H.
  apply rmatch_group_plus_inv in H as (d & s8 & -> & Hd & H); nf H.
  apply rmatch_lit_inv in H as (s9 & -> & H); nf H.
  rewrite rmatch_lit_empty in H. injection H as <- <-.
  exists a, b, c, d. unfold header4, is_number. rewrite !str_app_assoc.
  repeat split; assumption.
Qed.

Lemma is_run_app p (a b : string) :
  is_run p a = true -> all_chars p b = true -> is_run p (a ++ b) = true.
Proof.
  unfold is_run. intros Ha Hb. apply andb_true_iff in Ha as [Hne Ha].
  rewrite all_chars_app, Ha, Hb. destruct a; [discriminate | reflexivity].
Qed.

Lemma pattern1_complete (a mid c rest : string) :
  is_number a = true -> is_mid mid = true -> is_number c = true ->
  match_at regex_diff_one_line_number_pattern (header1 a mid c ++ rest)
  = Some (caps1 a c, rest).
Proof.
  intros Ha Hm Hc. unfold is_number in *.
  unfold match_at, regex_diff_one_line_number_pattern, header1, cat.
  cbn [fold_right]. rewrite !str_app_assoc.
  destruct mid as [|x b].
  - change ("" ++ " +" ++ c ++ " @@" ++ rest) with (" +" ++ c ++ " @@" ++ rest).
    do 4 forward. cbv beta.
    rewrite rmatch_seq, rmatch_opt_skip by reflexivity.
    rewrite rmatch_seq.
    change (" +" ++ c ++ " @@" ++ rest) with ("" ++ " +" ++ c ++ " @@" ++ rest)
      at 1.
    apply rmatch_star; [reflexivity | reflexivity |].
    repeat forward. reflexivity.
  - cbn [is_mid] in Hm. apply andb_true_iff in Hm as [Hx Hb].
    apply Ascii.eqb_eq in Hx; subst x.
    change (String "," b ++ " +" ++ c ++ " @@" ++ rest)
      with ("," ++ b ++ " +" ++ c ++ " @@" ++ rest).
    do 4 forward. cbv beta. rewrite rmatch_seq. apply rmatch_opt_take.
    repeat forward. reflexivity.
Qed.

Lemma pattern1_sound (s rest : string) (caps : captures) :
  match_at regex_diff_one_line_number_pattern s = Some (caps, rest) ->
  exists a mid c,
    is_number a = true /\ is_mid mid = true /\ is_number c = true /\
    s = header1 a mid c ++ rest /\ caps = caps1 a c.
Proof.
  intros H0.
  enough (exists a mid c,
             is_number a = true /\ is_mid mid = true /\ is_number c = true /\
             s = header1 a mid c ++ rest) as (a & mid & c & Ha & Hm & Hc & ->).
  { exists a, mid, c. rewrite pattern1_complete in H0 by assumption.
    injection H0 as <-. auto. }
  revert H0.
  unfold match_at, regex_diff_one_line_number_pattern, cat. cbn [fold_right].
  intros H. nf H.
  apply rmatch_lit_inv in H as (s1 & -> & H); nf H.
  apply rmatch_group_plus_inv in H as (a & s2 & -> & Ha & H); nf H.
  apply rmatch_opt_inv in H as [H|H]; nf H.
  - apply rmatch_lit_inv in H as (s3 & -> & H); nf H.
    apply rmatch_star_inv in H as (b & s4 & -> & Hb & H); nf H.
    apply rmatch_lit_inv in H as (s5 & -> & H); nf H.
    apply rmatch_group_plus_inv in H as (c & s6 & -> & Hc & H); nf H.
    apply rmatch_lit_inv in H as (s7 & -> & H); nf H.
    rewrite rmatch_lit_empty in H. injection H as _ <-.
    exists a, ("," ++ b), c. unfold header1, is_number. rewrite !str_app_assoc.
    repeat split; try assumption.
  - apply rmatch_star_inv in H as (b & s4 & -> & Hb & H); nf H.
    apply rmatch_lit_inv in H as (s5 & -> & H); nf H.
    apply rmatch_group_plus_inv in H as (c & s6 & -> & Hc & H); nf H.
    apply rmatch_lit_inv in H as (s7 & -> & H); nf H.
    rewrite rmatch_lit_empty in H. injection H as _ <-.
    exists (a ++ b), "", c. unfold header1, is_number. rewrite !str_app_assoc.
    repeat split; try assumption. now apply is_run_app.
Qed.

(** None of the patterns of the program matches the empty text. *)
Lemma patterns_consume :
  consumes regex_diff_hunk_header = true /\
  consumes regex_diff_line_number_group = true /\
  consumes regex_diff_line_number_pattern = true /\
  consumes regex_diff_one_line_number_pattern = true /\
  consumes StringSearch.regex_ellipsis = true.
Proof. repeat split. Qed.

(** The four numbers of a header [@@ -a,b +c,d @@], as written. *)
Record hunk4 : Set := Hunk4 {
  old_start4 : string; old_count4 : string;
  new_start4 : string; new_count4 : string
}.

Definition shape4 (g : hunk4) (h : string) : Prop :=
  is_number (old_start4 g) = true /\ is_number (old_count4 g) = true /\
  is_number (new_start4 g) = true /\ is_number (new_count4 g) = true /\
  h = header4 (old_start4 g) (old_count4 g) (new_start4 g) (new_count4 g).

Definition caps_of4 (g : hunk4) : captures :=
  caps4 (old_start4 g) (old_count4 g) (new_start4 g) (new_count4 g).

Definition hunk4_of (caps : captures) : hunk4 :=
  Hunk4 (group 1 caps) (group 2 caps) (group 3 caps) (group 4 caps).

(** The numbers of a header [@@ -a +c @@] or [@@ -a,b +c @@]. *)
Record hunk1 : Set := Hunk1 {
  old_start1 : string; mid1 : string; new_start1 : string
}.

Definition shape1 (g : hunk1) (h : string) : Prop :=
  is_number (old_start1 g) = true /\ is_mid (mid1 g) = true /\
  is_number (new_start1 g) = true /\
  h = header1 (old_start1 g) (mid1 g) (new_start1 g).

Definition caps_of1 (g : hunk1) : captures :=
  caps1 (old_start1 g) (new_start1 g).

(** The splitting of a diff at its four-number headers, and at the headers
    of the one-line pattern. *)
Definition Occ4 : string -> list hunk4 -> Prop := Occ hunk4 shape4.
Definition Occ1 : string -> list hunk1 -> Prop := Occ hunk1 shape1.

(** A four-number header stands somewhere in the text. *)
Definition has_header4 (diff : string) : Prop :=
  exists pre g h post, shape4 g h /\ diff = pre ++ h ++ post.

Lemma complete4 g h rest :
  shape4 g h ->
  match_at regex_diff_line_number_pattern (h ++ rest) = Some (caps_of4 g, rest).
Proof. intros (Ha & Hb & Hc & Hd & ->). now apply pattern4_complete. Qed.

Lemma sound4 s caps rest :
  match_at regex_diff_line_number_pattern s = Some (caps, rest) ->
  exists g h, shape4 g h /\ s = h ++ rest /\ caps = caps_of4 g.
Proof.
  intros H. apply pattern4_sound in H as (a & b & c & d & Ha & Hb & Hc & Hd & -> & ->).
  exists (Hunk4 a b c d), (header4 a b c d). unfold shape4; simpl. tauto.
Qed.

Lemma nonempty4 g : ~ shape4 g "".
Proof. intros (_ & _ & _ & _ & H). discriminate. Qed.

Lemma complete1 g h rest :
  shape1 g h ->
  match_at regex_diff_one_line_number_pattern (h ++ rest)
  = Some (caps_of1 g, rest).
Proof. intros (Ha & Hm & Hc & ->). now apply pattern1_complete. Qed.

Lemma sound1 s caps rest :
  match_at regex_diff_one_line_number_pattern s = Some (caps, rest) ->
  exists g h, shape1 g h /\ s = h ++ rest /\ caps = caps_of1 g.
Proof.
  intros H. apply pattern1_sound in H as (a & mid & c & Ha & Hm & Hc & -> & ->).
  exists (Hunk1 a mid c), (header1 a mid c). unfold shape1; simpl. tauto.
Qed.

Lemma nonempty1 g : ~ shape1 g "".
Proof. intros (_ & _ & _ & H). discriminate. Qed.

Lemma findall4 diff hs :
  Occ4 diff hs ->
  findall regex_diff_line_number_pattern diff = map caps_of4 hs.
Proof. apply findall_occ; [apply complete4 | apply sound4 | apply nonempty4]. Qed.

Lemma findall1 diff hs :
  Occ1 diff hs ->
  findall regex_diff_one_line_number_pattern diff = map caps_of1 hs.
Proof. apply findall_occ; [apply complete1 | apply sound1 | apply nonempty1]. Qed.

Lemma occ4_total diff : exists hs, Occ4 diff hs.
Proof.
  apply (occ_total regex_diff_line_number_pattern hunk4 shape4 caps_of4);
    [apply complete4 | apply sound4 | apply nonempty4].
Qed.

Lemma occ1_total diff : exists hs, Occ1 diff hs.
Proof.
  apply (occ_total regex_diff_one_line_number_pattern hunk1 shape1 caps_of1);
    [apply complete1 | apply sound1 | apply nonempty1].
Qed.

Lemma occ4_findall diff :
  Occ4 diff (map hunk4_of (findall regex_diff_line_number_pattern diff)).
Proof.
  apply (occ_findall regex_diff_line_number_pattern hunk4 shape4 caps_of4);
    [apply complete4 | apply sound4 | apply nonempty4 | now intros []].
Qed.

End Headers.

(* ------------------------------------------------------------------ *)
(** ** The diff parser *)

Module DiffParser.
Import Py Re PyFacts ReFacts DiffRepresentation Headers.

(** The ranges a four-number header stands for. *)
Definition old_range4 (g : hunk4) : LineNumberRange :=
  mkRange (decimal (old_start4 g))
          (decimal (old_start4 g) + decimal (old_count4 g)).
Definition new_range4 (g : hunk4) : LineNumberRange :=
  mkRange (decimal (new_start4 g))
          (decimal (new_start4 g) + decimal (new_count4 g)).

(** The ranges a header of the one-line pattern stands for. *)
Definition old_range1 (g : hunk1) : LineNumberRange :=
  mkRange (decimal (old_start1 g)) (decimal (old_start1 g) + 1).
Definition new_range1 (g : hunk1) : LineNumberRange :=
  mkRange (decimal (new_start1 g)) (decimal (new_start1 g) + 1).

(** Each number of the header that the parser converts is written with at
    most 4300 digits.  Of a header of the one-line pattern these are the
    two starts: the digits after the comma are matched and not
    converted. *)
Definition fits4 (g : hunk4) : bool :=
  fits (old_start4 g) && fits (old_count4 g) &&
  fits (new_start4 g) && fits (new_count4 g).
Definition fits1 (g : hunk1) : bool :=
  fits (old_start1 g) && fits (new_start1 g).

(** What the parser makes of the headers [hs]: the pairs of their ranges
    in order, or [ValueError] when a number of one of them does not fit. *)
Definition parsed {G : Type} (fit : G -> bool)
    (old_range new_range : G -> LineNumberRange) (hs : list G)
    : result (list (LineNumberRange * LineNumberRange)) :=
  if forallb fit hs
  then Ok (map (fun g => (old_range g, new_range g)) hs)
  else Raise ValueError.

Definition well_ordered (r : LineNumberRange) : Prop :=
  start_number r <= end_number r.

Lemma both_unfold (diff : string) :
  _get_line_numbers_edited_in_both_files diff =
  match findall regex_diff_line_number_pattern diff with
  | [] => _get_line_numbers_edited_one_line
            (findall regex_diff_one_line_number_pattern diff)
  | ms => _get_line_numbers_edited_multiple_lines ms
  end.
Proof.
  unfold _get_line_numbers_edited_in_both_files.
  destruct (String.eqb_spec diff "") as [->|_]; [reflexivity|].
  now destruct (findall regex_diff_line_number_pattern diff).
Qed.

Lemma for_each_parsed {G : Type} (caps_of : G -> captures) (fit : G -> bool)
    (old_range new_range : G -> LineNumberRange)
    (f : captures -> result (LineNumberRange * LineNumberRange))
    (hs : list G) :
  Forall (fun g => f (caps_of g)
                   = if fit g then Ok (old_range g, new_range g)
                     else Raise ValueError) hs ->
  for_each f (map caps_of hs) = parsed fit old_range new_range hs.
Proof.
  unfold parsed. induction 1 as [|g hs Hg _ IH]; [reflexivity|].
  cbn [map for_each forallb]. rewrite Hg.
  destruct (fit g); cbn [bind andb]; [|reflexivity].
  rewrite IH. now destruct (forallb fit hs).
Qed.

Lemma multiple_lines_caps (hs : list hunk4) :
  Forall (fun g => exists h, shape4 g h) hs ->
  _get_line_numbers_edited_multiple_lines (map caps_of4 hs)
  = parsed fits4 old_range4 new_range4 hs.
Proof.
  intros H. apply for_each_parsed.
  eapply Forall_impl; [|exact H].
  intros [a b c d] (h & Ha & Hb & Hc & Hd & _).
  cbn [old_start4 old_count4 new_start4 new_count4] in *.
  unfold fits4, old_range4, new_range4, caps_of4, caps4, item.
  cbn [old_start4 old_count4 new_start4 new_count4 group Nat.eqb].
  rewrite (int_number a Ha), (int_number b Hb), (int_number c Hc),
    (int_number d Hd).
  destruct (fits a), (fits b), (fits c), (fits d); reflexivity.
Qed.

Lemma one_line_caps (hs : list hunk1) :
  Forall (fun g => exists h, shape1 g h) hs ->
  _get_line_numbers_edited_one_line (map caps_of1 hs)
  = parsed fits1 old_range1 new_range1 hs.
Proof.
  intros H. apply for_each_parsed.
  eapply Forall_impl; [|exact H].
  intros [a mid c] (h & Ha & _ & Hc & _).
  cbn [old_start1 new_start1] in *.
  unfold fits1, old_range1, new_range1, caps_of1, caps1, item.
  cbn [old_start1 new_start1 group Nat.eqb].
  rewrite (int_number a Ha), (int_number c Hc).
  destruct (fits a), (fits c); reflexivity.
Qed.

Lemma both_of_occ4 (diff : string) (hs : list hunk4) :
  Occ4 diff hs -> hs <> [] ->
  _get_line_numbers_edited_in_both_files diff
  = parsed fits4 old_range4 new_range4 hs.
Proof.
  intros H Hne. rewrite both_unfold, (findall4 diff hs H).
  apply occ_shapes in H. rewrite <- (multiple_lines_caps hs H).
  destruct hs as [|g hs]; [congruence | reflexivity].
Qed.

Lemma occ4_nil_no_header (diff : string) : Occ4 diff [] -> ~ has_header4 diff.
Proof.
  intros H (pre & g & h & post & Hg & ->).
  apply (occ_nil_inv _ _ _ H pre (h ++ post) eq_refl). now exists g, h, post.
Qed.

Lemma occ4_cons_header (diff : string) g hs :
  Occ4 diff (g :: hs) -> has_header4 diff.
Proof. inversion 1; subst. now exists pre, g, h, rest. Qed.

Lemma no_header_findall4 (diff : string) :
  ~ has_header4 diff -> findall regex_diff_line_number_pattern diff = [].
Proof.
  intros Hno. destruct (occ4_total diff) as [[|g hs] H].
  - now rewrite (findall4 diff [] H).
  - exfalso. apply Hno. now apply occ4_cons_header in H.
Qed.

Lemma findall4_nil_no_header (diff : string) :
  findall regex_diff_line_number_pattern diff = [] -> ~ has_header4 diff.
Proof.
  intros E. apply occ4_nil_no_header.
  apply (occ_none_findall regex_diff_line_number_pattern hunk4 shape4 caps_of4);
    [apply complete4 | apply sound4 | apply nonempty4 | exact E].
Qed.

Lemma both_of_occ1 (diff : string) (hs : list hunk1) :
  ~ has_header4 diff -> Occ1 diff hs ->
  _get_line_numbers_edited_in_both_files diff
  = parsed fits1 old_range1 new_range1 hs.
Proof.
  intros Hno H.
  rewrite both_unfold, (no_header_findall4 diff Hno), (findall1 diff hs H).
  apply one_line_caps. now apply occ_shapes in H.
Qed.

Lemma header_occ4 (diff : string) :
  has_header4 diff -> exists hs, hs <> [] /\ Occ4 diff hs.
Proof.
  intros Hh. destruct (occ4_total diff) as [[|g hs] H].
  - now apply occ4_nil_no_header in H.
  - exists (g :: hs). split; [discriminate | exact H].
Qed.

(** Either the diff has four-number headers and the pairs come from them,
    or it has none and the pairs come from the headers of the one-line
    pattern; in both cases in the order of the text. *)
Lemma both_cases (diff : string) :
  (exists hs, hs <> [] /\ Occ4 diff hs /\
     _get_line_numbers_edited_in_both_files diff
     = parsed fits4 old_range4 new_range4 hs) \/
  (exists hs, ~ has_header4 diff /\ Occ1 diff hs /\
     _get_line_numbers_edited_in_both_files diff
     = parsed fits1 old_range1 new_range1 hs).
Proof.
  destruct (occ4_total diff) as [[|g hs] H].
  - right. destruct (occ1_total diff) as [hs1 H1].
    apply occ4_nil_no_header in H. exists hs1.
    repeat split; try assumption. now apply both_of_occ1.
  - left. exists (g :: hs). repeat split; try assumption; [discriminate|].
    apply both_of_occ4; [assumption | discriminate].
Qed.

Lemma old_of_both {G} (fit : G -> bool) (f1 f2 : G -> LineNumberRange)
    diff (hs : list G) :
  _get_line_numbers_edited_in_both_files diff = parsed fit f1 f2 hs ->
  get_line_numbers_edited_in_old_file diff
  = (if forallb fit hs then Ok (map f1 hs) else Raise ValueError) /\
  get_line_numbers_edited_in_new_file diff
  = (if forallb fit hs then Ok (map f2 hs) else Raise ValueError).
Proof.
  unfold get_line_numbers_edited_in_old_file,
    get_line_numbers_edited_in_new_file, parsed.
  intros ->. destruct (forallb fit hs); cbn [bind]; [|now split].
  now rewrite !map_map.
Qed.

(** The two queries return together, projections of one list of pairs, or
    raise together. *)
Lemma old_new_of_both (diff : string) :
  match _get_line_numbers_edited_in_both_files diff with
  | Ok both =>
      get_line_numbers_edited_in_old_file diff = Ok (map fst both) /\
      get_line_numbers_edited_in_new_file diff = Ok (map snd both)
  | Raise e =>
      get_line_numbers_edited_in_old_file diff = Raise e /\
      get_line_numbers_edited_in_new_file diff = Raise e
  end.
Proof.
  unfold get_line_numbers_edited_in_old_file,
    get_line_numbers_edited_in_new_file.
  now destruct (_get_line_numbers_edited_in_both_files diff).
Qed.

Lemma is_number_digits (s : string) :
  is_number s = true -> all_chars is_digit s = true.
Proof. unfold is_number, is_run. intros H. now apply andb_true_iff in H. Qed.

Lemma well_ordered4 g h :
  shape4 g h -> well_ordered (old_range4 g) /\ well_ordered (new_range4 g).
Proof.
  intros (Ha & Hb & Hc & Hd & _). unfold well_ordered; simpl.
  apply is_number_digits, decimal_nonneg in Hb, Hd. lia.
Qed.

Lemma well_ordered1 g : well_ordered (old_range1 g) /\ well_ordered (new_range1 g).
Proof. unfold well_ordered; simpl. lia. Qed.

(** Every list the parser returns is a list of ranges of headers of the
    diff; [P] holds of all of them when it holds of the ranges of every
    header. *)
Lemma parsed_ranges_ind (P : LineNumberRange -> Prop) (diff : string) :
  (forall g h, shape4 g h -> P (old_range4 g) /\ P (new_range4 g)) ->
  (forall g h, shape1 g h -> P (old_range1 g) /\ P (new_range1 g)) ->
  (forall olds, get_line_numbers_edited_in_old_file diff = Ok olds ->
                Forall P olds) /\
  (forall news, get_line_numbers_edited_in_new_file diff = Ok news ->
                Forall P news).
Proof.
  intros H4 H1.
  destruct (both_cases diff) as [(hs & _ & H & E) | (hs & _ & H & E)];
    apply old_of_both in E as [-> ->]; apply occ_shapes in H.
  - destruct (forallb fits4 hs); [|split; discriminate].
    split; intros ? [= <-]; apply Forall_map;
      (eapply Forall_impl; [|exact H]); intros g [h Hg];
      now apply H4 in Hg.
  - destruct (forallb fits1 hs); [|split; discriminate].
    split; intros ? [= <-]; apply Forall_map;
      (eapply Forall_impl; [|exact H]); intros g [h Hg];
      now apply H1 in Hg.
Qed.

Lemma parsed_well_ordered (diff : string) :
  (forall olds, get_line_numbers_edited_in_old_file diff = Ok olds ->
                Forall well_ordered olds) /\
  (forall news, get_line_numbers_edited_in_new_file diff = Ok news ->
                Forall well_ordered news).
Proof.
  apply parsed_ranges_ind.
  - apply well_ordered4.
  - intros g h _. apply well_ordered1.
Qed.

End DiffParser.

(* ------------------------------------------------------------------ *)
(** ** The snippet locator *)

Module SnippetLocator.
Import Py PyFacts StringSearch.

(** *** The scan, as section 4.2 of the specification words it

    "Scan file lines top to bottom.  A line is a candidate start if
    [is_start] holds of it.  From a candidate start at index [i], scan
    forward from [i] (inclusive) for the first line of which [is_end] holds;
    that is the end index.  If no end is found at or after [i], this
    candidate start does not produce a range.  On success, append range
    [[i+1, end+1]] and resume scanning after the matched end; otherwise
    advance by one line." *)

Section Spec.
Variables is_start is_end : string -> bool.

Fixpoint first_index (test : string -> bool) (lines : list string)
    : option nat :=
  match lines with
  | [] => None
  | l :: more =>
      if test l then Some O else option_map S (first_index test more)
  end.

(** [spec_scan i skip lines]: [lines] are the file lines from index [i]
    on, of which the first [skip] lie inside the range found last. *)
Fixpoint spec_scan (i : Z) (skip : nat) (lines : list string)
    : list LineNumberRange :=
  match lines with
  | [] => []
  | l :: more =>
      match skip with
      | S skip' => spec_scan (i + 1) skip' more
      | O =>
          if is_start l then
            match first_index is_end lines with
            | Some d =>
                mkRange (i + 1) (i + Z.of_nat d + 1)
                :: spec_scan (i + 1) d more
            | None => spec_scan (i + 1) O more
            end
          else spec_scan (i + 1) O more
      end
  end.

Definition spec_locate (lines : list string) : list LineNumberRange :=
  spec_scan 0 O lines.

Lemma spec_scan_skip (d : nat) :
  forall i lines,
    spec_scan i d lines = spec_scan (i + Z.of_nat d) O (skipn d lines).
Proof.
  induction d as [|d IH]; intros i lines.
  - simpl. now rewrite Z.add_0_r.
  - destruct lines as [|l more]; [reflexivity|].
    cbn [spec_scan skipn]. rewrite IH. f_equal. lia.
Qed.

Lemma first_index_bound test lines d :
  first_index test lines = Some d -> (d < List.length lines)%nat.
Proof.
  revert d; induction lines as [|l more IH]; intros d; simpl; [discriminate|].
  destruct (test l).
  - intros [= <-]. lia.
  - destruct (first_index test more) as [d'|]; simpl; [|discriminate].
    intros [= <-]. specialize (IH d' eq_refl). lia.
Qed.

Lemma spec_scan_well_ordered lines :
  forall i skip,
    Forall (fun r => start_number r <= end_number r) (spec_scan i skip lines).
Proof.
  induction lines as [|l more IH]; intros i skip; cbn [spec_scan];
    [constructor|].
  destruct skip; [|apply IH].
  destruct (is_start l); [|apply IH].
  destruct (first_index is_end (l :: more)); [|apply IH].
  constructor; [simpl; lia | apply IH].
Qed.
End Spec.

(** *** The loop of [scan_content] carries out that scan *)

Section Refinement.
Variable fuzz_ratio : string -> string -> Z.
Variables start_line_contents end_line_contents : string.

(** The tests of the two passes, as [scan_content] and
    [get_line_idx_in_content] make them. *)
Definition start_test (fuzzy_match : bool) (content_line : string) : bool :=
  if fuzzy_match
  then fuzz_ratio start_line_contents (strip content_line) >? 90
  else contains start_line_contents content_line.

Definition end_test (fuzzy_match : bool) (content_line : string) : bool :=
  fuzzy_match && (fuzz_ratio end_line_contents (strip content_line) >? 90)
  || contains end_line_contents content_line.

Lemma get_line_idx_from_first (fuzzy_match : bool) lines :
  forall from,
    get_line_idx_from fuzz_ratio from end_line_contents lines fuzzy_match
    = match first_index (end_test fuzzy_match) lines with
      | Some d => from + Z.of_nat d
      | None => -1
      end.
Proof.
  induction lines as [|l more IH]; intros from; cbn [get_line_idx_from first_index];
    [reflexivity|].
  unfold end_test at 1.
  destruct (fuzzy_match && (fuzz_ratio end_line_contents (strip l) >? 90)
            || contains end_line_contents l).
  - simpl. lia.
  - rewrite IH. destruct (first_index (end_test fuzzy_match) more); simpl; lia.
Qed.

Lemma get_line_number_range_first (fuzzy_match : bool) lines idx :
  0 <= idx ->
  get_line_number_range fuzz_ratio idx lines end_line_contents fuzzy_match
  = match first_index (end_test fuzzy_match) (skipn (Z.to_nat idx) lines) with
    | Some d => Some (mkRange (idx + 1) (idx + Z.of_nat d + 1))
    | None => None
    end.
Proof.
  intros Hidx. unfold get_line_number_range, get_line_idx_in_content.
  rewrite get_line_idx_from_first.
  destruct (first_index (end_test fuzzy_match) (skipn (Z.to_nat idx) lines))
    as [d|].
  - rewrite Z.gtb_ltb.
    replace (0 + Z.of_nat d + idx <? idx) with false
      by (symmetry; apply Z.ltb_ge; lia).
    do 2 f_equal. lia.
  - rewrite Z.gtb_ltb.
    replace (-1 + idx <? idx) with true by (symmetry; apply Z.ltb_lt; lia).
    reflexivity.
Qed.

Lemma skipn_nth_cons (lines : list string) (n : nat) :
  (n < List.length lines)%nat ->
  skipn n lines = nth n lines "" :: skipn (S n) lines.
Proof.
  revert n; induction lines as [|l more IH]; intros n Hn; simpl in Hn; [lia|].
  destruct n as [|n]; [reflexivity|].
  cbn [nth]. change (skipn (S n) (l :: more)) with (skipn n more).
  change (skipn (S (S n)) (l :: more)) with (skipn (S n) more).
  apply IH. lia.
Qed.

Lemma scan_content_loop_spec (lines : list string) (fuzzy_match : bool) :
  forall fuel idx acc,
    0 <= idx ->
    Z.of_nat (List.length lines) - idx <= Z.of_nat fuel ->
    scan_content_loop fuzz_ratio start_line_contents end_line_contents lines
      fuel fuzzy_match idx acc
    = (acc ++ spec_scan (start_test fuzzy_match) (end_test fuzzy_match)
                idx O (skipn (Z.to_nat idx) lines))%list.
Proof.
  induction fuel as [|fuel IH]; intros idx acc Hidx Hfuel.
  - rewrite skipn_all2 by lia. simpl. now rewrite app_nil_r.
  - cbn [scan_content_loop].
    destruct (idx <? Z.of_nat (List.length lines)) eqn:Hlt.
    + apply Z.ltb_lt in Hlt.
      rewrite (skipn_nth_cons lines (Z.to_nat idx)) by lia.
      cbn [spec_scan].
      set (l := nth (Z.to_nat idx) lines "").
      assert (Hrange :
        (if fuzzy_match
         then if fuzz_ratio start_line_contents (strip l) >? 90
              then get_line_number_range fuzz_ratio idx lines
                     end_line_contents true
              else None
         else if contains start_line_contents l
              then get_line_number_range fuzz_ratio idx lines
                     end_line_contents false
              else None)
        = if start_test fuzzy_match l
          then get_line_number_range fuzz_ratio idx lines
                 end_line_contents fuzzy_match
          else None).
      { unfold start_test. now destruct fuzzy_match. }
      rewrite Hrange. clear Hrange.
      destruct (start_test fuzzy_match l).
      * rewrite get_line_number_range_first by assumption.
        rewrite (skipn_nth_cons lines (Z.to_nat idx)) by lia. fold l.
        destruct (first_index (end_test fuzzy_match)
                    (l :: skipn (S (Z.to_nat idx)) lines)) as [d|] eqn:Hd.
        -- cbn [end_number].
           apply first_index_bound in Hd as Hb.
           cbn [List.length] in Hb. rewrite length_skipn in Hb.
           rewrite IH by lia.
           rewrite <- List.app_assoc. cbn [app]. do 2 f_equal.
           rewrite (spec_scan_skip _ _ d (idx + 1)), skipn_skipn.
           replace (idx + Z.of_nat d + 1 - 1 + 1) with (idx + 1 + Z.of_nat d)
             by lia.
           do 2 f_equal. lia.
        -- rewrite IH by lia. do 2 f_equal.
           replace (Z.to_nat (idx + 1)) with (S (Z.to_nat idx)) by lia.
           reflexivity.
      * rewrite IH by lia. do 2 f_equal.
        replace (Z.to_nat (idx + 1)) with (S (Z.to_nat idx)) by lia.
        reflexivity.
    + apply Z.ltb_ge in Hlt. rewrite skipn_all2 by lia.
      simpl. now rewrite app_nil_r.
Qed.

(** The loop ends by its own test: any fuel from [len(content_lines)] on
    gives the result of [scan_content]. *)
Lemma scan_content_loop_enough (lines : list string) fuzzy_match fuel acc :
  (List.length lines <= fuel)%nat ->
  scan_content_loop fuzz_ratio start_line_contents end_line_contents lines
    fuel fuzzy_match 0 acc
  = scan_content fuzz_ratio start_line_contents end_line_contents lines
      fuzzy_match acc.
Proof.
  intros H. unfold scan_content. now rewrite !scan_content_loop_spec by lia.
Qed.

Lemma scan_content_spec (lines : list string) fuzzy_match acc :
  scan_content fuzz_ratio start_line_contents end_line_contents lines
    fuzzy_match acc
  = (acc ++ spec_locate (start_test fuzzy_match) (end_test fuzzy_match)
              lines)%list.
Proof. unfold scan_content. now rewrite scan_content_loop_spec by lia. Qed.

Lemma ranges_in_content_spec (content : string) :
  get_line_number_ranges_in_content fuzz_ratio start_line_contents
    end_line_contents content
  = match spec_locate (start_test false) (end_test false) (split_nl content)
    with
    | [] => spec_locate (start_test true) (end_test true) (split_nl content)
    | found => found
    end.
Proof.
  unfold get_line_number_ranges_in_content.
  rewrite scan_content_spec. cbn [app].
  destruct (spec_locate (start_test false) (end_test false) (split_nl content))
    as [|r rs]; [|reflexivity].
  cbn [List.length Z.of_nat Z.eqb]. now rewrite scan_content_spec.
Qed.
End Refinement.

End SnippetLocator.

(* ------------------------------------------------------------------ *)
(** ** Properties of the diff parser *)

Module ParserProperties.
Import Py Re PyFacts ReFacts DiffRepresentation Headers DiffParser Samples.

(** [int()] takes a number of 4300 digits and refuses one of 4301. *)
Example int_at_the_limit :
  int (nines 4300) = Ok (decimal (nines 4300)) /\
  int (nines 4301) = Raise ValueError /\
  int "0042" = Ok 42.
Proof. split; [|split]; vm_compute; reflexivity. Qed.

(** C1, as claimed, fails: [@@ -1,2 +3,N @@] with a count [N] of 4301
    digits is a four-number header, yet parsing yields no range for it;
    both queries raise [ValueError] at [int(match[3])]. *)
Lemma oversized_count_raises_value_error :
  has_header4 oversized_count /\
  Occ4 oversized_count [Hunk4 "1" "2" "3" (nines 4301)] /\
  get_line_numbers_edited_in_old_file oversized_count = Raise ValueError /\
  get_line_numbers_edited_in_new_file oversized_count = Raise ValueError.
Proof.
  split; [|split; [|split; vm_compute; reflexivity]].
  - exists "", (Hunk4 "1" "2" "3" (nines 4301)), oversized_count, "".
    unfold shape4. vm_compute. repeat split.
  - exact (occ4_findall oversized_count).
Qed.

(** C1, amended.  A diff that holds at least one four-number header
    [@@ -O,oC +N,nC @@] splits into these headers and the text between
    them.  When each number of these headers is written with at most 4300
    digits, parsing yields, for the headers from left to right, the old
    ranges [[O, O + oC]] and the new ranges [[N, N + nC]]: the end is start
    plus count, not start plus count minus one.  When a number has more
    digits, both queries raise [ValueError]. *)
Theorem four_number_headers_parse (diff : string) :
  (has_header4 diff -> exists hs, hs <> [] /\ Occ4 diff hs) /\
  (forall hs : list hunk4,
      Occ4 diff hs -> hs <> [] ->
      (forallb fits4 hs = true ->
       get_line_numbers_edited_in_old_file diff = Ok (map old_range4 hs) /\
       get_line_numbers_edited_in_new_file diff = Ok (map new_range4 hs)) /\
      (forallb fits4 hs = false ->
       get_line_numbers_edited_in_old_file diff = Raise ValueError /\
       get_line_numbers_edited_in_new_file diff = Raise ValueError)).
Proof.
  split.
  - apply header_occ4.
  - intros hs H Hne.
    destruct (old_of_both fits4 old_range4 new_range4 diff hs
                (both_of_occ4 diff hs H Hne)) as [-> ->].
    split; intros ->; now split.
Qed.

Lemma four_number_headers_parse_witness :
  get_line_numbers_edited_in_old_file two_hunks
  = Ok [mkRange 37 44; mkRange 120 123] /\
  get_line_numbers_edited_in_new_file two_hunks
  = Ok [mkRange 38 47; mkRange 123 127].
Proof.
  apply (proj2 (four_number_headers_parse two_hunks)
           [Hunk4 "37" "7" "38" "9"; Hunk4 "120" "3" "123" "4"]).
  - exact (occ4_findall two_hunks).
  - discriminate.
  - reflexivity.
Defined.

(** C5, as claimed, fails: no four-number pattern matches in
    [@@ -1 +N @@] with a start [N] of 4301 digits, it is a header of the
    one-line pattern, yet parsing yields no range for it; both queries
    raise [ValueError] at [int(match[1])]. *)
Lemma oversized_start_raises_value_error :
  ~ has_header4 oversized_start /\
  findall regex_diff_one_line_number_pattern oversized_start
  = [caps1 "1" (nines 4301)] /\
  get_line_numbers_edited_in_old_file oversized_start = Raise ValueError /\
  get_line_numbers_edited_in_new_file oversized_start = Raise ValueError.
Proof.
  split; [|split; [|split]]; try (vm_compute; reflexivity).
  apply findall4_nil_no_header. vm_compute. reflexivity.
Qed.

(** C5, amended.  In a diff without any four-number header, the headers of
    the one-line pattern, [@@ -O +N @@] among them, yield from left to
    right the old ranges [[O, O + 1]] and the new ranges [[N, N + 1]] when
    each [O] and [N] is written with at most 4300 digits, and both queries
    raise [ValueError] otherwise.  As soon as a four-number header stands
    anywhere in the diff, the outcome is that of the four-number headers
    and the one-line pattern is not used. *)
Theorem single_number_headers_parse :
  (forall (diff : string) (hs : list hunk1),
      ~ has_header4 diff -> Occ1 diff hs ->
      (forallb fits1 hs = true ->
       get_line_numbers_edited_in_old_file diff = Ok (map old_range1 hs) /\
       get_line_numbers_edited_in_new_file diff = Ok (map new_range1 hs)) /\
      (forallb fits1 hs = false ->
       get_line_numbers_edited_in_old_file diff = Raise ValueError /\
       get_line_numbers_edited_in_new_file diff = Raise ValueError)) /\
  (forall diff : string,
      has_header4 diff ->
      exists hs4, hs4 <> [] /\ Occ4 diff hs4 /\
        get_line_numbers_edited_in_old_file diff
        = (if forallb fits4 hs4 then Ok (map old_range4 hs4)
           else Raise ValueError) /\
        get_line_numbers_edited_in_new_file diff
        = (if forallb fits4 hs4 then Ok (map new_range4 hs4)
           else Raise ValueError)).
Proof.
  split.
  - intros diff hs Hno H.
    destruct (old_of_both fits1 old_range1 new_range1 diff hs
                (both_of_occ1 diff hs Hno H)) as [-> ->].
    split; intros ->; now split.
  - intros diff Hh. destruct (header_occ4 diff Hh) as (hs4 & Hne & H).
    exists hs4. split; [exact Hne | split; [exact H|]].
    apply old_of_both. now apply both_of_occ4.
Qed.

Lemma one_line_hunks_occ :
  Occ1 one_line_hunks [Hunk1 "3" "" "4"; Hunk1 "10" ",0" "12"].
Proof.
  apply (Occ_hit hunk1 shape1 "" (Hunk1 "3" "" "4") "@@ -3 +4 @@"
           (nl ++ "-x" ++ nl ++ "+y" ++ nl ++ "@@ -10,0 +12 @@" ++ nl ++ "+z")).
  - intros [|c p] q Hq Hne; [simpl in Hq; now subst q | discriminate].
  - now unfold shape1.
  - apply (Occ_hit hunk1 shape1 (nl ++ "-x" ++ nl ++ "+y" ++ nl)
             (Hunk1 "10" ",0" "12") "@@ -10,0 +12 @@" (nl ++ "+z")).
    + apply (quiet_spec regex_diff_one_line_number_pattern hunk1 shape1
               caps_of1 complete1). reflexivity.
    + now unfold shape1.
    + apply (occ_none_findall regex_diff_one_line_number_pattern hunk1 shape1
               caps_of1 complete1 sound1 nonempty1). reflexivity.
Qed.

Lemma single_number_headers_parse_witness :
  (get_line_numbers_edited_in_old_file one_line_hunks
   = Ok [mkRange 3 4; mkRange 10 11] /\
   get_line_numbers_edited_in_new_file one_line_hunks
   = Ok [mkRange 4 5; mkRange 12 13]) /\
  (exists hs4, hs4 <> [] /\ Occ4 mixed_hunks hs4 /\
     get_line_numbers_edited_in_old_file mixed_hunks
     = (if forallb fits4 hs4 then Ok (map old_range4 hs4)
        else Raise ValueError) /\
     get_line_numbers_edited_in_new_file mixed_hunks
     = (if forallb fits4 hs4 then Ok (map new_range4 hs4)
        else Raise ValueError)).
Proof.
  split.
  - apply (proj1 single_number_headers_parse one_line_hunks
             [Hunk1 "3" "" "4"; Hunk1 "10" ",0" "12"]).
    + apply findall4_nil_no_header. reflexivity.
    + exact one_line_hunks_occ.
    + reflexivity.
  - apply (proj2 single_number_headers_parse mixed_hunks).
    exists ("@@ -3 +4 @@" ++ nl ++ "-x" ++ nl ++ "+y" ++ nl),
      (Hunk4 "10" "2" "12" "3"), "@@ -10,2 +12,3 @@", (nl ++ "+z").
    split; [now unfold shape4 | reflexivity].
Defined.

Lemma combine_maps {G X Y : Type} (f1 : G -> X) (f2 : G -> Y) (hs : list G) :
  combine (map f1 hs) (map f2 hs) = map (fun g => (f1 g, f2 g)) hs.
Proof. induction hs as [|g hs IH]; [reflexivity|]. cbn [map combine]. now rewrite IH. Qed.

(** C8.  The two queries raise together or return together.  The old
    ranges and the new ranges they return are equally many, the i-th of
    each comes from the same hunk, and both lists follow the order in which
    the headers stand in the diff. *)
Theorem old_and_new_ranges_parallel (diff : string) :
  (_get_line_numbers_edited_in_both_files diff = Raise ValueError /\
   get_line_numbers_edited_in_old_file diff = Raise ValueError /\
   get_line_numbers_edited_in_new_file diff = Raise ValueError) \/
  (exists olds news : list LineNumberRange,
     get_line_numbers_edited_in_old_file diff = Ok olds /\
     get_line_numbers_edited_in_new_file diff = Ok news /\
     List.length olds = List.length news /\
     _get_line_numbers_edited_in_both_files diff = Ok (combine olds news) /\
     ((exists hs, hs <> [] /\ Occ4 diff hs /\
         olds = map old_range4 hs /\ news = map new_range4 hs) \/
      (exists hs, ~ has_header4 diff /\ Occ1 diff hs /\
         olds = map old_range1 hs /\ news = map new_range1 hs))).
Proof.
  destruct (both_cases diff) as [(hs & Hne & H & E) | (hs & Hno & H & E)].
  - destruct (old_of_both _ _ _ _ _ E) as [Ho Hn]. unfold parsed in E.
    destruct (forallb fits4 hs); [right | left; now repeat split].
    exists (map old_range4 hs), (map new_range4 hs).
    rewrite combine_maps, !length_map.
    split; [exact Ho | split; [exact Hn | split; [reflexivity|]]].
    split; [exact E | left]. now exists hs.
  - destruct (old_of_both _ _ _ _ _ E) as [Ho Hn]. unfold parsed in E.
    destruct (forallb fits1 hs); [right | left; now repeat split].
    exists (map old_range1 hs), (map new_range1 hs).
    rewrite combine_maps, !length_map.
    split; [exact Ho | split; [exact Hn | split; [reflexivity|]]].
    split; [exact E | right]. now exists hs.
Qed.

(** C9 (parser and expansion).  On the empty diff all three queries return
    the empty list, whatever the file content. *)
Theorem empty_diff_yields_nothing :
  get_line_numbers_edited_in_old_file "" = Ok [] /\
  get_line_numbers_edited_in_new_file "" = Ok [] /\
  forall (fuzz_ratio : string -> string -> Z) (file_content : string),
    get_extended_diff_line_ranges_by_hunk_header fuzz_ratio "" file_content
    = Ok [].
Proof. repeat split. Qed.

End ParserProperties.

(* ------------------------------------------------------------------ *)
(** ** Properties of the snippet locator *)

Module LocatorProperties.
Import Py PyFacts StringSearch SnippetLocator DiffParser Samples.

Section SpecScan.
Variables is_start is_end : string -> bool.

Lemma first_index_at (test : string -> bool) (lines : list string) :
  forall d l,
    nth_error lines d = Some l -> test l = true ->
    (forall i l', (i < d)%nat -> nth_error lines i = Some l' ->
                  test l' = false) ->
    first_index test lines = Some d.
Proof.
  induction lines as [|l0 more IH]; intros d l Hd Ht Hbefore.
  - destruct d; discriminate.
  - cbn [first_index]. destruct d as [|d].
    + injection Hd as ->. now rewrite Ht.
    + rewrite (Hbefore O l0) by (reflexivity || lia).
      rewrite (IH d l Hd Ht); [reflexivity|].
      intros i l' Hi Hl'. apply (Hbefore (S i) l'); [lia | exact Hl'].
Qed.

(** Lines that are no candidate start are passed over. *)
Lemma spec_scan_pass (n : nat) :
  forall i lines,
    (forall j l, (j < n)%nat -> nth_error lines j = Some l ->
                 is_start l = false) ->
    spec_scan is_start is_end i O lines
    = spec_scan is_start is_end (i + Z.of_nat n) O (skipn n lines).
Proof.
  induction n as [|n IH]; intros i lines Hpass.
  - simpl. now rewrite Z.add_0_r.
  - destruct lines as [|l more]; [reflexivity|].
    cbn [spec_scan skipn].
    rewrite (Hpass O l) by (reflexivity || lia).
    rewrite IH.
    + f_equal. lia.
    + intros j l' Hj Hl'. apply (Hpass (S j) l'); [lia | exact Hl'].
Qed.

Lemma nth_error_skipn {X} (n i : nat) (xs : list X) :
  nth_error (skipn n xs) i = nth_error xs (n + i).
Proof.
  revert xs; induction n as [|n IH]; intros xs; [reflexivity|].
  destruct xs as [|x xs]; [now destruct i | apply IH].
Qed.

(** The first candidate start [a] and the first end line [b] at or after
    it give the first range; the scan goes on after [b]. *)
Lemma spec_locate_first (lines : list string) (a b : nat) (la lb : string) :
  (a <= b)%nat ->
  nth_error lines a = Some la -> is_start la = true ->
  (forall i l, (i < a)%nat -> nth_error lines i = Some l ->
               is_start l = false) ->
  nth_error lines b = Some lb -> is_end lb = true ->
  (forall i l, (a <= i < b)%nat -> nth_error lines i = Some l ->
               is_end l = false) ->
  spec_locate is_start is_end lines
  = mkRange (Z.of_nat a + 1) (Z.of_nat b + 1)
    :: spec_scan is_start is_end (Z.of_nat b + 1) O (skipn (S b) lines).
Proof.
  intros Hab Ha Hsa Hpre Hb Heb Hmid.
  unfold spec_locate. rewrite (spec_scan_pass a 0 lines Hpre).
  assert (Hlen : (a < List.length lines)%nat)
    by (apply nth_error_Some; congruence).
  assert (Hcons : exists more, skipn a lines = la :: more
                               /\ more = skipn (S a) lines).
  { exists (skipn (S a) lines). split; [|reflexivity].
    clear - Ha. revert a Ha. induction lines as [|l more IH]; intros a Ha.
    - destruct a; discriminate.
    - destruct a as [|a]; [now injection Ha as -> | apply (IH a Ha)]. }
  destruct Hcons as (more & Hcons & Hmore).
  assert (Hfirst : first_index is_end (skipn a lines) = Some (b - a)%nat).
  { apply (first_index_at is_end _ (b - a)%nat lb).
    - rewrite nth_error_skipn. now replace (a + (b - a))%nat with b by lia.
    - exact Heb.
    - intros i l Hi Hl. rewrite nth_error_skipn in Hl.
      apply (Hmid (a + i)%nat l); [lia | exact Hl]. }
  rewrite Hcons in *. cbn [spec_scan]. rewrite Hsa, Hfirst.
  f_equal; [f_equal; lia|].
  rewrite spec_scan_skip. subst more. rewrite skipn_skipn.
  replace (b - a + S a)%nat with (S b) by lia. f_equal. lia.
Qed.
End SpecScan.

(** C3.  Let the snippet's processed first line occur as a substring of the
    file line with index [a], and of no earlier line, and let its processed
    last line occur as a substring of the file line with index [b >= a], and
    of no line from [a] to before [b].  Then the exact pass returns the
    1-based range [[a + 1, b + 1]] first and resumes after line [b]; this is
    also what the locator returns, since the fuzzy pass does not run. *)
Theorem exact_pass_finds_first_occurrence
    (fuzz_ratio : string -> string -> Z)
    (code_snippet content : string) (code_snippet_lines : list string)
    (first last : string) (a b : nat) (la lb : string) :
  split_and_process_snippet code_snippet = Ok code_snippet_lines ->
  first_line code_snippet_lines = Ok first ->
  last_line code_snippet_lines = Ok last ->
  (a <= b)%nat ->
  nth_error (split_nl content) a = Some la -> contains first la = true ->
  (forall i l, (i < a)%nat -> nth_error (split_nl content) i = Some l ->
               contains first l = false) ->
  nth_error (split_nl content) b = Some lb -> contains last lb = true ->
  (forall i l, (a <= i < b)%nat -> nth_error (split_nl content) i = Some l ->
               contains last l = false) ->
  let found := mkRange (Z.of_nat a + 1) (Z.of_nat b + 1) in
  let more :=
    scan_content_loop fuzz_ratio first last (split_nl content)
      (List.length (split_nl content)) false (Z.of_nat b + 1) [] in
  scan_content fuzz_ratio first last (split_nl content) false []
  = found :: more /\
  find_line_number_ranges_of_code_snippet_in_content fuzz_ratio
    code_snippet content = Ok (found :: more).
Proof.
  intros Hsplit Hfirst Hlast Hab Ha Hsa Hpre Hb Heb Hmid found more.
  assert (Hexact :
    spec_locate (start_test fuzz_ratio first false)
      (end_test fuzz_ratio last false) (split_nl content) = found :: more).
  { subst found more.
    rewrite (spec_locate_first _ _ (split_nl content) a b la lb); auto.
    f_equal. rewrite scan_content_loop_spec; [|lia|lia]. cbn [app].
    do 2 f_equal. lia. }
  split.
  - rewrite scan_content_spec. cbn [app]. exact Hexact.
  - unfold find_line_number_ranges_of_code_snippet_in_content.
    rewrite Hsplit. cbn [bind]. rewrite Hfirst, Hlast. cbn [bind].
    rewrite ranges_in_content_spec. now rewrite Hexact.
Qed.

Lemma exact_pass_finds_first_occurrence_witness :
  scan_content Fuzz.ratio "def f(x):" "return x" (split_nl sample_content)
    false [] = [mkRange 3 5] /\
  find_line_number_ranges_of_code_snippet_in_content Fuzz.ratio
    sample_snippet sample_content = Ok [mkRange 3 5].
Proof.
  apply (exact_pass_finds_first_occurrence Fuzz.ratio sample_snippet
           sample_content ["def f(x):"; "return x"] "def f(x):" "return x"
           2 4 "def f(x):" "    return x").
  - reflexivity.
  - reflexivity.
  - reflexivity.
  - lia.
  - reflexivity.
  - reflexivity.
  - intros i l Hi Hl. destruct i as [|[|i]]; [| |lia];
      vm_compute in Hl; injection Hl as <-; reflexivity.
  - reflexivity.
  - reflexivity.
  - intros i l Hi Hl. destruct i as [|[|[|[|i]]]]; try lia;
      vm_compute in Hl; injection Hl as <-; reflexivity.
Defined.

(** *** The two passes *)

(** The locator as the specification words its fuzzy pass: the scan of the
    exact pass, with "is a substring of" replaced by "scores above 90", in
    the start test and in the end test alike. *)
Definition spec_two_passes (fuzz_ratio : string -> string -> Z)
    (start_line end_line content : string) : list LineNumberRange :=
  match spec_locate (contains start_line) (contains end_line)
          (split_nl content) with
  | [] =>
      spec_locate (fun l => fuzz_ratio start_line (strip l) >? 90)
                  (fun l => fuzz_ratio end_line (strip l) >? 90)
                  (split_nl content)
  | found => found
  end.

(** C4, as claimed, fails: the end line [return] scores 46 against the
    fourth file line, yet the fuzzy pass of the code accepts that line,
    because [return] is a substring of it. *)
Lemma fuzzy_end_test_keeps_substring :
  get_line_number_ranges_in_content Fuzz.ratio "def foo(a, b):" "return"
    drifted_content = [mkRange 2 4] /\
  spec_two_passes Fuzz.ratio "def foo(a, b):" "return" drifted_content = [] /\
  Fuzz.ratio "return" (strip "    return a + b  # done") = 46.
Proof.
  split; [vm_compute; reflexivity | split; vm_compute; reflexivity].
Qed.

(** C4, amended.  The fuzzy pass runs only when the exact pass found no
    range.  It is the same scan; its start test is "the score of the
    snippet's first line against the trimmed file line exceeds 90", and its
    end test is "the score of the snippet's last line against the trimmed
    file line exceeds 90, or the last line is a substring of the file
    line". *)
Theorem fuzzy_pass_only_after_empty_exact_pass
    (fuzz_ratio : string -> string -> Z)
    (start_line end_line content : string) :
  get_line_number_ranges_in_content fuzz_ratio start_line end_line content
  = match spec_locate (contains start_line) (contains end_line)
            (split_nl content) with
    | [] =>
        spec_locate
          (fun l => fuzz_ratio start_line (strip l) >? 90)
          (fun l => (fuzz_ratio end_line (strip l) >? 90)
                    || contains end_line l)
          (split_nl content)
    | found => found
    end.
Proof. apply ranges_in_content_spec. Qed.

(** *** Exceptions *)

Lemma blank_snippet_raises (fuzz_ratio : string -> string -> Z)
    (code_snippet content : string) :
  strip code_snippet = "" ->
  find_line_number_ranges_of_code_snippet_in_content fuzz_ratio
    code_snippet content = Raise IndexError.
Proof.
  intros H. unfold find_line_number_ranges_of_code_snippet_in_content,
    split_and_process_snippet. now rewrite H.
Qed.

Lemma splitlines_nonempty (s : string) : s <> "" -> splitlines s <> [].
Proof.
  destruct s as [|c s]; [congruence|]. intros _.
  unfold splitlines. cbn [splitlines_from andb].
  destruct (is_linebreak c); [discriminate|].
  now destruct (splitlines_from false s).
Qed.

Lemma update_last_returns (f : string -> string) (ls : list string) :
  ls <> [] -> exists ls', update_last f ls = Ok ls' /\ ls' <> [].
Proof.
  induction ls as [|l ls IH]; [congruence|]. intros _.
  destruct ls as [|l' ls].
  - now exists [f l].
  - destruct IH as (ls' & E & Hne); [discriminate|].
    exists (l :: ls'). cbn [update_last]. cbn [update_last] in E.
    rewrite E. split; [reflexivity | discriminate].
Qed.

(** The locator returns on every snippet that is not blank. *)
Lemma locator_returns (fuzz_ratio : string -> string -> Z)
    (code_snippet content : string) :
  strip code_snippet <> "" ->
  exists ranges,
    find_line_number_ranges_of_code_snippet_in_content fuzz_ratio
      code_snippet content = Ok ranges.
Proof.
  intros H. apply splitlines_nonempty in H.
  unfold find_line_number_ranges_of_code_snippet_in_content,
    split_and_process_snippet.
  destruct (splitlines (strip code_snippet)) as [|l ls]; [congruence|].
  cbn [update_first bind].
  destruct (update_last_returns (Re.sub_empty regex_ellipsis)
              (Re.sub_empty regex_ellipsis l :: ls)) as (ls' & -> & Hne);
    [discriminate|].
  cbn [bind]. destruct ls' as [|l' ls']; [congruence|].
  cbn [map first_line last_line bind]. eauto.
Qed.

(** C6, at its failing inputs: on the empty snippet the locator raises
    [IndexError], and so does the expansion on a diff whose header is
    followed by blanks only. *)
Theorem empty_snippet_raises_index_error
    (fuzz_ratio : string -> string -> Z) (content : string) :
  find_line_number_ranges_of_code_snippet_in_content fuzz_ratio "" content
  = Raise IndexError /\
  DiffRepresentation.get_extended_diff_line_ranges_by_hunk_header fuzz_ratio
    "@@ -1,2 +3,4 @@  " content = Raise IndexError.
Proof. split; reflexivity. Qed.

(** *** Ranges are well ordered *)

Lemma located_well_ordered (fuzz_ratio : string -> string -> Z)
    (start_line end_line content : string) :
  Forall well_ordered
    (get_line_number_ranges_in_content fuzz_ratio start_line end_line content).
Proof.
  rewrite ranges_in_content_spec.
  destruct (spec_locate _ _ (split_nl content)) as [|r rs] eqn:E.
  - apply spec_scan_well_ordered.
  - rewrite <- E. apply spec_scan_well_ordered.
Qed.

(** C10.  Every range the snippet locator returns, and every old and new
    range the parser produces from a hunk header, has its start at or before
    its end. *)
Theorem produced_ranges_well_ordered (fuzz_ratio : string -> string -> Z) :
  (forall (code_snippet content : string) (ranges : list LineNumberRange),
      find_line_number_ranges_of_code_snippet_in_content fuzz_ratio
        code_snippet content = Ok ranges ->
      Forall well_ordered ranges) /\
  (forall diff : string,
      (forall olds : list LineNumberRange,
          DiffRepresentation.get_line_numbers_edited_in_old_file diff
          = Ok olds ->
          Forall well_ordered olds) /\
      (forall news : list LineNumberRange,
          DiffRepresentation.get_line_numbers_edited_in_new_file diff
          = Ok news ->
          Forall well_ordered news)).
Proof.
  split.
  - intros code_snippet content ranges.
    unfold find_line_number_ranges_of_code_snippet_in_content.
    destruct (split_and_process_snippet code_snippet) as [ls|e];
      [|discriminate]. cbn [bind].
    destruct (first_line ls) as [first|e]; [|discriminate]. cbn [bind].
    destruct (last_line ls) as [last|e]; [|discriminate]. cbn [bind].
    intros [= <-]. apply located_well_ordered.
  - apply parsed_well_ordered.
Qed.

Lemma produced_ranges_well_ordered_witness :
  Forall well_ordered [mkRange 3 5] /\
  Forall well_ordered [mkRange 37 44; mkRange 120 123] /\
  Forall well_ordered [mkRange 38 47; mkRange 123 127].
Proof.
  split; [|split].
  - apply (proj1 (produced_ranges_well_ordered Fuzz.ratio)
             sample_snippet sample_content). reflexivity.
  - apply (proj1 (proj2 (produced_ranges_well_ordered Fuzz.ratio)
                    two_hunks)). reflexivity.
  - apply (proj2 (proj2 (produced_ranges_well_ordered Fuzz.ratio)
                    two_hunks)). reflexivity.
Defined.

End LocatorProperties.

(* ------------------------------------------------------------------ *)
(** ** Ellipsis stripping *)

Module EllipsisProperties.
Import Py Re PyFacts ReFacts StringSearch.

Fixpoint last_char (s : string) : option ascii :=
  match s with
  | EmptyString => None
  | String c s' =>
      match last_char s' with
      | Some d => Some d
      | None => Some c
      end
  end.

(** [s] ends with an opening bracket [[] or [{]. *)
Definition ends_with_open (s : string) : bool :=
  match last_char s with
  | Some c => Ascii.eqb c "[" || Ascii.eqb c "{"
  | None => false
  end.

Definition opening (o : string) : Prop := o = "" \/ o = "[" \/ o = "{".
Definition closing (c : string) : Prop := c = "" \/ c = "]" \/ c = "}".

Lemma last_char_app (a b : string) :
  last_char (a ++ b)
  = match last_char b with
    | Some c => Some c
    | None => last_char a
    end.
Proof.
  induction a as [|x a IH]; simpl.
  - now destruct (last_char b).
  - rewrite IH. destruct (last_char b); [reflexivity|].
    reflexivity.
Qed.

Lemma str_app_inv_tail (a b t : string) : a ++ t = b ++ t -> a = b.
Proof.
  revert b; induction a as [|x a IH]; intros [|y b] H; simpl in H.
  - reflexivity.
  - apply (f_equal slen) in H. simpl in H. rewrite slen_app in H. lia.
  - apply (f_equal slen) in H. simpl in H. rewrite slen_app in H. lia.
  - injection H as -> H. now rewrite (IH b H).
Qed.

Section Inversions.
Context {A : Type}.
Implicit Types (k : string -> captures -> option A).

Lemma rmatch_alt_inv r1 r2 s caps k (x : A) :
  rmatch (Alt r1 r2) s caps k = Some x ->
  rmatch r1 s caps k = Some x \/ rmatch r2 s caps k = Some x.
Proof. simpl. destruct (rmatch r1 s caps k); intros H; [now left | now right]. Qed.

Lemma rmatch_eos_inv s caps k (x : A) :
  rmatch Eos s caps k = Some x -> (s = "" \/ s = nl) /\ k s caps = Some x.
Proof.
  simpl. destruct s as [|c [|d s]]; simpl; try discriminate.
  - now intros H; split; [left|].
  - destruct (Ascii.eqb_spec c "010"); [|discriminate].
    subst c. now intros H; split; [right|].
Qed.

(** An optional group of one of two literal characters. *)
Lemma rmatch_opt_bracket_inv i (a b s : string) caps k (x : A) :
  rmatch (Opt (Group i (Alt (Lit a) (Lit b)))) s caps k = Some x ->
  exists o rest caps',
    s = o ++ rest /\ (o = "" \/ o = a \/ o = b) /\ k rest caps' = Some x.
Proof.
  intros H. apply rmatch_opt_inv in H as [H|H].
  - change (rmatch (Alt (Lit a) (Lit b)) s caps
              (fun s' caps' => k s' ((i, take (slen s - slen s') s) :: caps'))
            = Some x) in H.
    apply rmatch_alt_inv in H as [H|H];
      apply rmatch_lit_inv in H as (rest & -> & H); cbv beta in H;
      eexists _, rest, _; repeat split; eauto.
  - exists "", s, caps. auto.
Qed.
End Inversions.

Lemma ellipsis_match_inv (y rest : string) (caps : captures) :
  match_at regex_ellipsis y = Some (caps, rest) ->
  exists o c, y = o ++ "..." ++ c ++ rest /\ opening o /\ closing c /\
              (rest = "" \/ rest = nl).
Proof.
  unfold match_at, regex_ellipsis, cat. cbn [fold_right].
  intros H. rewrite rmatch_seq in H.
  apply rmatch_opt_bracket_inv in H as (o & s1 & caps1 & -> & Ho & H).
  cbv beta in H. rewrite rmatch_seq in H.
  apply rmatch_lit_inv in H as (s2 & -> & H).
  cbv beta in H. rewrite rmatch_seq in H.
  apply rmatch_opt_bracket_inv in H as (c & s3 & caps3 & -> & Hc & H).
  cbv beta in H. rewrite rmatch_seq in H.
  apply rmatch_eos_inv in H as [He H]. cbv beta in H.
  rewrite rmatch_lit_empty in H. injection H as _ <-.
  now exists o, c.
Qed.

(** Inside the text before a trailing marker no match begins. *)
Lemma ellipsis_quiet (q o c : string) :
  q <> "" -> opening o -> closing c ->
  (o = "" -> ends_with_open q = false) ->
  match_at regex_ellipsis (q ++ o ++ "..." ++ c) = None.
Proof.
  intros Hq Ho Hc Hend.
  destruct (match_at regex_ellipsis (q ++ o ++ "..." ++ c))
    as [[caps rest]|] eqn:E; [exfalso | reflexivity].
  apply ellipsis_match_inv in E as (o' & c' & E & Ho' & Hc' & Hrest).
  assert (Hlast : last_char (q ++ o ++ "..." ++ c)
                  = last_char (o' ++ "..." ++ c' ++ rest)) by now rewrite E.
  rewrite !last_char_app in Hlast.
  assert (E' : q ++ o = o' /\ rest = "").
  { destruct Hrest as [-> | ->];
      destruct Hc as [-> | [-> | ->]]; destruct Hc' as [-> | [-> | ->]];
      try discriminate Hlast.
    all: split; [|reflexivity].
    all: simpl in E; rewrite <- (str_app_assoc q o) in E;
      now apply str_app_inv_tail in E. }
  destruct E' as [E' _].
  destruct q as [|x q]; [congruence|].
  destruct Ho' as [-> | [-> | ->]]; [discriminate | |];
    simpl in E'; injection E' as -> E';
    (destruct q; [|discriminate]); simpl in E'; subst o;
    now specialize (Hend eq_refl).
Qed.

Lemma scan_single (r : regex) (pre tail : string) (caps : captures) :
  (forall p q, pre = p ++ q -> q <> "" -> match_at r (q ++ tail) = None) ->
  match_at r tail = Some (caps, "") ->
  match_at r "" = None ->
  scan r (pre ++ tail) = ([(pre, caps)], "").
Proof.
  intros Hpre Htail Hempty. unfold scan.
  assert (Hend : forall fuel, scan_fuel fuel r "" = ([], "")).
  { intros [|fuel]; [reflexivity|]. cbn [scan_fuel]. now rewrite Hempty. }
  assert (H : forall fuel, (slen pre < fuel)%nat ->
                           scan_fuel fuel r (pre ++ tail) = ([(pre, caps)], "")).
  { induction pre as [|c pre IH]; intros [|fuel] Hf; try (simpl in Hf; lia).
    - change ("" ++ tail) with tail. cbn [scan_fuel].
      now rewrite Htail, Hend.
    - change (String c pre ++ tail) with (String c (pre ++ tail)).
      assert (Hn : match_at r (String c (pre ++ tail)) = None)
        by (apply (Hpre "" (String c pre) eq_refl); discriminate).
      cbn [scan_fuel]. rewrite Hn.
      rewrite IH; [reflexivity | | simpl in Hf; lia].
      intros p q -> Hne. now apply (Hpre (String c p) q). }
  apply H. rewrite slen_app. lia.
Qed.

Lemma ends_with_open_suffix (p q : string) :
  q <> "" -> ends_with_open (p ++ q) = ends_with_open q.
Proof.
  intros Hq. unfold ends_with_open. rewrite last_char_app.
  destruct q as [|c q]; [congruence|]. simpl.
  now destruct (last_char q).
Qed.

Lemma ellipsis_tail_match (o c : string) :
  opening o -> closing c ->
  exists caps, match_at regex_ellipsis (o ++ "..." ++ c) = Some (caps, "").
Proof.
  intros [-> | [-> | ->]] [-> | [-> | ->]]; eexists; reflexivity.
Qed.

(** A marker at the end of a line is removed, with its brackets. *)
Lemma sub_ellipsis_trailing (s o c : string) :
  opening o -> closing c ->
  (o = "" -> ends_with_open s = false) ->
  sub_empty regex_ellipsis (s ++ o ++ "..." ++ c) = s.
Proof.
  intros Ho Hc Hend. unfold sub_empty.
  destruct (ellipsis_tail_match o c Ho Hc) as [caps Htail].
  rewrite (scan_single regex_ellipsis s (o ++ "..." ++ c) caps).
  - simpl. apply str_app_empty_r.
  - intros p q -> Hq. apply ellipsis_quiet; try assumption.
    intros Ho'. rewrite <- (ends_with_open_suffix p q Hq). now apply Hend.
  - exact Htail.
  - reflexivity.
Qed.

(** [l] ends with a marker: [...], possibly followed by a closing bracket,
    stands at its end or before its final line feed. *)
Definition ends_with_marker (l : string) : Prop :=
  exists p c, closing c /\ (l = p ++ "..." ++ c \/ l = p ++ "..." ++ c ++ nl).

Lemma ellipsis_no_match (l : string) :
  ~ ends_with_marker l ->
  forall p q, l = p ++ q -> match_at regex_ellipsis q = None.
Proof.
  intros Hno p q ->.
  destruct (match_at regex_ellipsis q) as [[caps rest]|] eqn:E;
    [exfalso | reflexivity].
  apply ellipsis_match_inv in E as (o & c & -> & Ho & Hc & Hrest).
  apply Hno. exists (p ++ o), c. split; [exact Hc|].
  destruct Hrest as [-> | ->]; [left | right].
  - now rewrite str_app_empty_r, str_app_assoc.
  - now rewrite str_app_assoc.
Qed.

Lemma scan_quiet (r : regex) (l : string) :
  (forall p q, l = p ++ q -> match_at r q = None) -> scan r l = ([], l).
Proof.
  unfold scan. generalize (S (slen l)) as fuel. intros fuel. revert l.
  induction fuel as [|fuel IH]; intros l H; [reflexivity|].
  cbn [scan_fuel]. rewrite (H "" l eq_refl).
  destruct l as [|c l]; [reflexivity|].
  rewrite IH; [reflexivity|].
  intros p q ->. now apply (H (String c p) q).
Qed.

(** A line that does not end with a marker is left as it is. *)
Lemma sub_ellipsis_none (l : string) :
  ~ ends_with_marker l -> sub_empty regex_ellipsis l = l.
Proof.
  intros H. unfold sub_empty.
  now rewrite (scan_quiet regex_ellipsis l (ellipsis_no_match l H)).
Qed.

(** A line whose last character is none of [.], []], [}] and the line feed
    does not end with a marker. *)
Lemma no_marker_by_last_char (l : string) (x : ascii) :
  last_char l = Some x ->
  x <> "."%char -> x <> "]"%char -> x <> "}"%char -> x <> "010"%char ->
  ~ ends_with_marker l.
Proof.
  intros Hl H1 H2 H3 H4 (p & c & Hc & E).
  assert (Hlast : last_char l = Some "."%char \/ last_char l = Some "]"%char
                  \/ last_char l = Some "}"%char
                  \/ last_char l = Some "010"%char).
  { destruct E as [-> | ->]; rewrite !last_char_app;
      destruct Hc as [-> | [-> | ->]]; simpl; tauto. }
  rewrite Hl in Hlast.
  destruct Hlast as [[= ->] | [[= ->] | [[= ->] | [= ->]]]]; congruence.
Qed.

(** [marker_removed l l']: [l'] is the line [l] without the marker at its
    end, and [l] itself when [l] does not end with a marker.  A marker
    takes the opening bracket before its dots with it, so that a marker
    written without one is not preceded by one. *)
Inductive marker_removed : string -> string -> Prop :=
| marker_at_end (s o c : string) :
    opening o -> closing c -> (o = "" -> ends_with_open s = false) ->
    marker_removed (s ++ o ++ "..." ++ c) s
| no_marker (l : string) :
    ~ ends_with_marker l -> marker_removed l l.

Lemma sub_ellipsis_removes (l l' : string) :
  marker_removed l l' -> sub_empty regex_ellipsis l = l'.
Proof.
  intros [s o c Ho Hc He | l0 Hno];
    [now apply sub_ellipsis_trailing | now apply sub_ellipsis_none].
Qed.

(** [lines[-1] = f(lines[-1])] rewrites the last line and no other. *)
Lemma update_last_snoc (f : string -> string) (lines : list string)
    (l : string) :
  update_last f (lines ++ [l])%list = Ok (lines ++ [f l])%list.
Proof.
  induction lines as [|x lines IH]; [reflexivity|].
  cbn [app update_last]. rewrite IH. cbn [bind].
  destruct (lines ++ [l])%list eqn:E; [|reflexivity].
  now destruct lines.
Qed.

(** What preprocessing does to the lines of the snippet: the pattern is
    taken out of the first and of the last line, which are one and the same
    when there is one line only; then every line is trimmed. *)
Lemma split_and_process_lines (code_snippet first last : string)
    (middle : list string) :
  (splitlines (strip code_snippet) = (first :: middle ++ [last])%list ->
   split_and_process_snippet code_snippet
   = Ok (strip (sub_empty regex_ellipsis first)
         :: map strip middle ++ [strip (sub_empty regex_ellipsis last)])%list)
  /\
  (splitlines (strip code_snippet) = [first] ->
   split_and_process_snippet code_snippet
   = Ok [strip (sub_empty regex_ellipsis
                  (sub_empty regex_ellipsis first))]).
Proof.
  unfold split_and_process_snippet. split; intros ->.
  - cbn [update_first bind].
    change (sub_empty regex_ellipsis first :: middle ++ [last])%list
      with ((sub_empty regex_ellipsis first :: middle) ++ [last])%list.
    rewrite update_last_snoc. cbn [bind app map].
    now rewrite map_app.
  - reflexivity.
Qed.

(** C7, as claimed, fails: the pattern is anchored at the end of the line,
    so the marker at the front of [...bar)] stays. *)
Lemma leading_ellipsis_is_kept :
  split_and_process_snippet ("foo(" ++ nl ++ "...bar)")
  = Ok ["foo("; "...bar)"] /\
  split_and_process_snippet ("foo(" ++ nl ++ "...bar)")
  <> Ok ["foo("; "bar)"].
Proof. split; [reflexivity | discriminate]. Qed.

(** C7, amended.  Preprocessing removes an ellipsis marker that stands at
    the end of the first and of the last snippet line: [...], optionally
    preceded by [[] or [{] and optionally followed by []] or [}].  The
    snippet lines are those of the snippet trimmed as a whole.  For every
    snippet of two or more lines the result is the first line without the
    marker at its end, the lines between the first and the last as they
    are, and the last line without the marker at its end, each of them
    trimmed.  A snippet of one line loses the marker at its end, and what is
    left loses a marker at its end once more.  The snippet with the lines
    [foo(...] and [bar)...] becomes [foo(] and [bar)]. *)
Theorem trailing_ellipsis_is_stripped :
  (forall (code_snippet first last first' last' : string)
          (middle : list string),
      splitlines (strip code_snippet) = (first :: middle ++ [last])%list ->
      marker_removed first first' -> marker_removed last last' ->
      split_and_process_snippet code_snippet
      = Ok (strip first' :: map strip middle ++ [strip last'])%list) /\
  (forall code_snippet line line' line'' : string,
      splitlines (strip code_snippet) = [line] ->
      marker_removed line line' -> marker_removed line' line'' ->
      split_and_process_snippet code_snippet = Ok [strip line'']) /\
  split_and_process_snippet ("foo(..." ++ nl ++ "bar)...")
  = Ok ["foo("; "bar)"] /\
  split_and_process_snippet ("  if x:  [...]" ++ nl ++ "  y = {...")
  = Ok ["if x:"; "y ="].
Proof.
  split; [|split; [|split; reflexivity]].
  - intros code_snippet first last first' last' middle E Hfirst Hlast.
    rewrite (proj1 (split_and_process_lines code_snippet _ _ middle) E).
    now rewrite (sub_ellipsis_removes _ _ Hfirst),
      (sub_ellipsis_removes _ _ Hlast).
  - intros code_snippet line line' line'' E H1 H2.
    rewrite (proj2 (split_and_process_lines code_snippet _ "" []) E).
    now rewrite (sub_ellipsis_removes _ _ H1), (sub_ellipsis_removes _ _ H2).
Qed.

Lemma trailing_ellipsis_is_stripped_witness :
  split_and_process_snippet
    ("  def f(x):" ++ nl ++ "  y = [...]" ++ nl ++ "  return x{...}  ")
  = Ok ["def f(x):"; "y = [...]"; "return x"] /\
  split_and_process_snippet "foo(......" = Ok ["foo("].
Proof.
  split.
  - apply (proj1 trailing_ellipsis_is_stripped
             ("  def f(x):" ++ nl ++ "  y = [...]" ++ nl ++ "  return x{...}  ")
             "def f(x):" "  return x{...}" "def f(x):" "  return x"
             ["  y = [...]"]).
    + reflexivity.
    + apply no_marker. apply (no_marker_by_last_char _ ":"%char);
        [reflexivity | discriminate..].
    + apply (marker_at_end "  return x" "{" "}").
      * right; right; reflexivity.
      * right; right; reflexivity.
      * discriminate.
  - apply (proj1 (proj2 trailing_ellipsis_is_stripped)
             "foo(......" "foo(......" "foo(..." "foo(").
    + reflexivity.
    + apply (marker_at_end "foo(..." "" "");
        [left; reflexivity | left; reflexivity | reflexivity].
    + apply (marker_at_end "foo(" "" "");
        [left; reflexivity | left; reflexivity | reflexivity].
Defined.

End EllipsisProperties.

(* ------------------------------------------------------------------ *)
(** ** Expansion by hunk header *)

Module ExpansionProperties.
Import Py Re PyFacts StringSearch DiffRepresentation Samples.

(** The text after the closing [@@] of the first four-number header of a
    diff line, if the line has one and text follows it. *)
Definition trailing_context (diff_line : string) : option string :=
  hd_error (map (group 1) (findall regex_diff_hunk_header diff_line)).

(** The header texts the expansion joins the new ranges with. *)
Definition header_texts (diff : string) : list string :=
  map (group 1) (findall regex_diff_line_number_group diff).

Section Expansion.
Variable fuzz_ratio : string -> string -> Z.
Variables diff file_content : string.

(** [diff_line] belongs to the header text [match_] and its trailing
    context [snippet] is located at [ranges]. *)
Definition located_for (match_ diff_line snippet : string)
    (ranges : list LineNumberRange) : Prop :=
  startswith diff_line match_ = true /\
  trailing_context diff_line = Some snippet /\
  find_line_number_ranges_of_code_snippet_in_content fuzz_ratio
    snippet file_content = Ok ranges.

(** What the expansion may do to the range [before] of the hunk with
    header text [match_], looking at the diff lines [diff_lines]. *)
Definition expanded (diff_lines : list string) (match_ : string)
    (before after : LineNumberRange) : Prop :=
  end_number after = end_number before /\
  (start_number after = start_number before \/
   exists diff_line snippet found more,
     In diff_line diff_lines /\
     located_for match_ diff_line snippet (found :: more) /\
     start_number after = start_number found) /\
  ((forall diff_line snippet ranges,
       In diff_line diff_lines ->
       located_for match_ diff_line snippet ranges -> ranges = []) ->
   after = before).

Lemma extend_on_line_cases match_ before diff_line after :
  extend_on_line fuzz_ratio file_content match_ before diff_line = Ok after ->
  (after = before /\
   forall snippet ranges,
     located_for match_ diff_line snippet ranges -> ranges = []) \/
  (exists snippet found more,
     located_for match_ diff_line snippet (found :: more) /\
     after = set_start_number before (start_number found)).
Proof.
  unfold extend_on_line, located_for, trailing_context.
  destruct (startswith diff_line match_); cbn [andb].
  2:{ intros [= <-]. left. split; [reflexivity|]. now intros ? ? [? _]. }
  destruct (map (group 1) (findall regex_diff_hunk_header diff_line))
    as [|snippet hs]; cbn [List.length Nat.eqb negb hd hd_error].
  { intros [= <-]. left. split; [reflexivity|]. now intros ? ? (_ & ? & _). }
  destruct (find_line_number_ranges_of_code_snippet_in_content fuzz_ratio
              snippet file_content) as [[|found more]|e] eqn:E;
    cbn [bind]; [| |discriminate]; intros [= <-].
  - left. split; [reflexivity|].
    intros s rs (_ & [= <-] & H). congruence.
  - right. now exists snippet, found, more.
Qed.

Lemma extend_on_lines_expanded match_ diff_lines :
  forall before after,
    extend_on_lines fuzz_ratio file_content match_ before diff_lines
    = Ok after ->
    expanded diff_lines match_ before after.
Proof.
  induction diff_lines as [|diff_line more IH]; intros before after H.
  - injection H as <-. unfold expanded. auto.
  - cbn [extend_on_lines] in H.
    destruct (extend_on_line fuzz_ratio file_content match_ before diff_line)
      as [mid|e] eqn:E; [|discriminate]. cbn [bind] in H.
    apply IH in H as (Hend & Hstart & Hsame).
    apply extend_on_line_cases in E
      as [[-> Hnone] | (snippet & found & rest & Hloc & ->)].
    + split; [exact Hend | split].
      * destruct Hstart as [Hs | (l & s & f & m & Hin & Hl & Hs)];
          [now left | right].
        exists l, s, f, m. split; [now right | split; assumption].
      * intros Hall. apply Hsame. intros l s rs Hin. apply Hall. now right.
    + split; [exact Hend | split].
      * right.
        destruct Hstart as [Hs | (l & s & f & m & Hin & Hl & Hs)].
        -- exists diff_line, snippet, found, rest.
           split; [now left | split; [exact Hloc | exact Hs]].
        -- exists l, s, f, m. split; [now right | split; assumption].
      * intros Hall. exfalso.
        specialize (Hall diff_line snippet (found :: rest)
                      (or_introl eq_refl) Hloc).
        discriminate.
Qed.

Lemma extend_all_expanded (pairs : list (string * LineNumberRange)) :
  forall out,
    extend_all fuzz_ratio diff file_content pairs = Ok out ->
    Forall2 (fun p after => expanded (split_nl diff) (fst p) (snd p) after)
            pairs out.
Proof.
  induction pairs as [|[match_ before] pairs IH]; intros out H.
  - injection H as <-. constructor.
  - cbn [extend_all] in H.
    destruct (extend_on_lines fuzz_ratio file_content match_ before
                (split_nl diff)) as [after|e] eqn:E; [|discriminate].
    cbn [bind] in H.
    destruct (extend_all fuzz_ratio diff file_content pairs)
      as [rest|e]; [|discriminate].
    cbn [bind] in H. injection H as <-.
    constructor; [now apply extend_on_lines_expanded | now apply IH].
Qed.
End Expansion.

(** The expansion parses the new ranges first, and raises what that
    raises. *)
Lemma expansion_of_parsed (fuzz_ratio : string -> string -> Z)
    (diff file_content : string) :
  get_extended_diff_line_ranges_by_hunk_header fuzz_ratio diff file_content
  = (news <- get_line_numbers_edited_in_new_file diff ;;
     extend_all fuzz_ratio diff file_content
       (combine (header_texts diff) news)).
Proof.
  unfold get_extended_diff_line_ranges_by_hunk_header.
  now destruct (String.eqb_spec diff "") as [->|_].
Qed.

(** Once the new ranges are parsed, the expansion returns, unless a header
    line of the diff is followed by blanks only. *)
Lemma expansion_returns (fuzz_ratio : string -> string -> Z)
    (diff file_content : string) (news : list LineNumberRange) :
  (forall diff_line snippet,
      In diff_line (split_nl diff) ->
      trailing_context diff_line = Some snippet -> strip snippet <> "") ->
  get_line_numbers_edited_in_new_file diff = Ok news ->
  exists out,
    get_extended_diff_line_ranges_by_hunk_header fuzz_ratio diff file_content
    = Ok out.
Proof.
  intros Hctx Hnews. rewrite expansion_of_parsed, Hnews. cbn [bind].
  generalize (combine (header_texts diff) news).
  assert (Hlines : forall match_ diff_lines before,
             (forall l, In l diff_lines -> In l (split_nl diff)) ->
             exists after,
               extend_on_lines fuzz_ratio file_content match_ before
                 diff_lines = Ok after).
  { intros match_ diff_lines.
    induction diff_lines as [|l more IH]; intros before Hin; [simpl; eauto|].
    cbn [extend_on_lines].
    assert (Hl : exists mid,
               extend_on_line fuzz_ratio file_content match_ before l
               = Ok mid).
    { unfold extend_on_line.
      destruct (startswith l match_); cbn [andb]; [|eauto].
      specialize (Hctx l). unfold trailing_context in Hctx.
      destruct (map (group 1) (findall regex_diff_hunk_header l))
        as [|snippet hs]; cbn [List.length Nat.eqb negb hd]; [eauto|].
      destruct (LocatorProperties.locator_returns fuzz_ratio snippet
                  file_content) as [[|found rest] ->]; cbn [bind]; eauto.
      apply (Hctx snippet); [apply Hin; now left | reflexivity]. }
    destruct Hl as [mid ->]. cbn [bind].
    apply IH. intros l' Hl'. apply Hin. now right. }
  intros pairs. induction pairs as [|[match_ before] pairs IH];
    [simpl; eauto|].
  cbn [extend_all].
  destruct (Hlines match_ (split_nl diff) before) as [after ->]; [auto|].
  destruct IH as [rest ->]. cbn [bind]. eauto.
Qed.

(** The hunk of the docstring: the new range [[37, 44]] is widened to begin
    at the definition in line 30. *)
Example docstring_hunk_is_widened :
  get_line_numbers_edited_in_new_file cool_diff = Ok [mkRange 37 44] /\
  get_extended_diff_line_ranges_by_hunk_header Fuzz.ratio cool_diff
    cool_content = Ok [mkRange 30 44].
Proof. split; vm_compute; reflexivity. Qed.

(** What expansion does on every input on which it returns.  It pairs the
    header texts with the new ranges in order and never changes a range's
    end.  The start either stays, or becomes the start of the first range
    the locator returns for the trailing context of a diff line that begins
    with the header text paired with the range.  When no such diff line has
    a trailing context the locator finds, the range is returned as it
    was. *)
Lemma expansion_keeps_end
    (fuzz_ratio : string -> string -> Z) (diff file_content : string)
    (out : list LineNumberRange) :
  get_extended_diff_line_ranges_by_hunk_header fuzz_ratio diff file_content
  = Ok out ->
  exists news,
    get_line_numbers_edited_in_new_file diff = Ok news /\
    Forall2
      (fun p after =>
         expanded fuzz_ratio file_content (split_nl diff) (fst p) (snd p)
           after)
      (combine (header_texts diff) news) out.
Proof.
  rewrite expansion_of_parsed.
  destruct (get_line_numbers_edited_in_new_file diff) as [news|e];
    [|discriminate].
  cbn [bind]. intros H. exists news. split; [reflexivity|].
  now apply extend_all_expanded.
Qed.

Lemma expansion_keeps_end_each
    (fuzz_ratio : string -> string -> Z) (diff file_content : string)
    (out : list LineNumberRange) :
  get_extended_diff_line_ranges_by_hunk_header fuzz_ratio diff file_content
  = Ok out ->
  exists news,
    get_line_numbers_edited_in_new_file diff = Ok news /\
    map end_number out = firstn (List.length out) (map end_number news).
Proof.
  intros H. apply expansion_keeps_end in H as (news & Hnews & H).
  exists news. split; [exact Hnews|].
  assert (Hgen : forall (hs : list string) (news out : list LineNumberRange),
    Forall2
      (fun p after =>
         expanded fuzz_ratio file_content (split_nl diff) (fst p) (snd p)
           after)
      (combine hs news) out ->
    map end_number out = firstn (List.length out) (map end_number news)).
  { clear. intros hs news. revert hs.
    induction news as [|r0 news IH]; intros hs out H.
    - destruct hs; simpl in H; inversion H; reflexivity.
    - destruct hs as [|h hs]; simpl in H; inversion H as [|p r ps rs Hr Hrs];
        subst; [reflexivity|].
      cbn [map List.length firstn]. destruct Hr as (-> & _).
      cbn [snd]. f_equal. now apply (IH hs). }
  now apply (Hgen (header_texts diff)).
Qed.

(** C2, at its failing input: the trailing context [def f():] stands in
    line 4 of the file, after the hunk, and expansion moves the start of the
    new range [[1, 3]] from 1 to 4, later and past the end, where the claim
    and the docstring of the method let it only widen the range. *)
Theorem expansion_moves_start_later
    (fuzz_ratio : string -> string -> Z) :
  get_line_numbers_edited_in_new_file late_diff = Ok [mkRange 1 3] /\
  get_extended_diff_line_ranges_by_hunk_header fuzz_ratio late_diff
    late_content = Ok [mkRange 4 3].
Proof. split; vm_compute; reflexivity. Qed.

End ExpansionProperties.

(* ------------------------------------------------------------------ *)
(** ** Further Python primitives: joins, slices, case *)

Module PyMore.
Import Py.

(** ["\n".join(lines)] *)
Fixpoint join_nl (lines : list string) : string :=
  match lines with
  | [] => EmptyString
  | l :: more =>
      match more with
      | [] => l
      | _ :: _ => l ++ nl ++ join_nl more
      end
  end.

(** A bound [i] of a slice over [len] items: a negative bound counts from
    the end, and every bound is brought into [0 .. len]. *)
Definition clamp (len i : Z) : Z :=
  if i <? 0 then Z.max 0 (i + len) else Z.min i len.

(** [l[start:stop]] *)
Definition slice {A : Type} (l : list A) (start stop : Z) : list A :=
  let len := Z.of_nat (List.length l) in
  let lo := clamp len start in
  let hi := clamp len stop in
  firstn (Z.to_nat (hi - lo)) (skipn (Z.to_nat lo) l).

(** [s[:stop]] *)
Definition str_upto (s : string) (stop : Z) : string :=
  take (Z.to_nat (clamp (Z.of_nat (slen s)) stop)) s.

(** [c.lower()] below code point 256: the letters A..Z and the accented
    capitals 192..222, the multiplication sign 215 apart. *)
Definition lower_char (c : ascii) : ascii :=
  let n := nat_of_ascii c in
  if ((65 <=? n) && (n <=? 90)
      || (192 <=? n) && (n <=? 222) && negb (n =? 215))%nat
  then ascii_of_nat (n + 32)
  else c.

(** [s.lower()] *)
Fixpoint lower (s : string) : string :=
  match s with
  | EmptyString => EmptyString
  | String c s' => String (lower_char c) (lower s')
  end.

(** [s.endswith(suffix)] *)
Definition endswith (s suffix : string) : bool :=
  (slen suffix <=? slen s)%nat
  && String.eqb (drop (slen s - slen suffix) s) suffix.

End PyMore.

(* ------------------------------------------------------------------ *)
(** ** local_file.py *)

Module LocalFileModel.
Import Py PyMore.

Record LocalFile : Set := mkLocalFile {
  contents : string;
  filename : string;
  path : string;
  html_url : string;
  full_local_path : string
}.

Definition get_truncated_contents (self : LocalFile) (max_char_limit : Z)
    : string :=
  str_upto (contents self) max_char_limit.

(** The default of [file_extensions]. *)
Definition default_file_extensions : list string :=
  [".py"; ".js"; ".jsx"; ".ts"; ".tsx"].

Definition should_process_file (self : LocalFile)
    (file_extensions : list string) : bool :=
  existsb (fun extension => endswith (lower (filename self)) extension)
          file_extensions.

Definition allow_llm_run (self : LocalFile) : bool :=
  should_process_file self default_file_extensions
  && (Z.of_nat (slen (strip (contents self))) >? 0).

Definition get_content_between_line_numbers
    (line_number_range : LineNumberRange) (content : string) : string :=
  let lines := split_nl content in
  let start_idx := start_number line_number_range - 1 in
  join_nl (slice lines start_idx (end_number line_number_range)).

Definition get_number_of_lines (content : string) : Z :=
  Z.of_nat (List.length (split_nl content)).

End LocalFileModel.

(* ------------------------------------------------------------------ *)
(** ** Properties of local_file.py *)

Module LocalFileProperties.
Import Py PyFacts PyMore LocalFileModel.

(** The number of line feeds of a text. *)
Fixpoint count_nl (s : string) : nat :=
  match s with
  | EmptyString => O
  | String c s' => (if Ascii.eqb c "010" then 1 else 0) + count_nl s'
  end.

(** A text without line feed. *)
Definition one_line (s : string) : bool :=
  all_chars (fun c => negb (Ascii.eqb c "010")) s.

Lemma split_nl_cons (s : string) : exists l ls, split_nl s = l :: ls.
Proof.
  induction s as [|c s (l & ls & IH)]; simpl; [now exists "", []|].
  destruct (Ascii.eqb c "010"); [now exists "", (split_nl s)|].
  rewrite IH. now exists (String c l), ls.
Qed.

Lemma split_nl_length (s : string) :
  List.length (split_nl s) = S (count_nl s).
Proof.
  induction s as [|c s IH]; simpl; [reflexivity|].
  destruct (Ascii.eqb c "010"); simpl; [now rewrite IH|].
  destruct (split_nl_cons s) as (l & ls & E). rewrite E in *. exact IH.
Qed.

Lemma join_nl_push (c : ascii) (l : string) (ls : list string) :
  join_nl (String c l :: ls) = String c (join_nl (l :: ls)).
Proof. now destruct ls. Qed.

Lemma join_nl_cons (x l : string) (ls : list string) :
  join_nl (x :: l :: ls) = x ++ nl ++ join_nl (l :: ls).
Proof. reflexivity. Qed.

Lemma join_split (s : string) : join_nl (split_nl s) = s.
Proof.
  induction s as [|c s IH]; simpl; [reflexivity|].
  destruct (split_nl_cons s) as (l & ls & E). rewrite E in *.
  destruct (Ascii.eqb_spec c "010") as [->|Hc].
  - now rewrite join_nl_cons, IH.
  - cbn [push_char]. now rewrite join_nl_push, IH.
Qed.

Lemma split_nl_one_line (s : string) :
  Forall (fun l => one_line l = true) (split_nl s).
Proof.
  induction s as [|c s IH]; simpl; [now constructor|].
  destruct (Ascii.eqb c "010") eqn:Hc; [now constructor|].
  destruct (split_nl s) as [|l ls]; cbn [push_char].
  - constructor; [|constructor]. unfold one_line. simpl. now rewrite Hc.
  - inversion IH as [|? ? Hl Hls]; subst. constructor; [|assumption].
    unfold one_line in *. simpl. now rewrite Hc, Hl.
Qed.

Lemma split_nl_line (l rest : string) :
  one_line l = true ->
  split_nl (l ++ nl ++ rest) = l :: split_nl rest.
Proof.
  unfold one_line. induction l as [|c l IH]; intros H; [reflexivity|].
  cbn [all_chars] in H.
  apply andb_true_iff in H as [Hc Hl]. apply negb_true_iff in Hc.
  change (String c l ++ nl ++ rest) with (String c (l ++ nl ++ rest)).
  cbn [split_nl]. now rewrite Hc, (IH Hl).
Qed.

Lemma split_nl_last_line (l : string) : one_line l = true -> split_nl l = [l].
Proof.
  unfold one_line. induction l as [|c l IH]; simpl; intros H; [reflexivity|].
  apply andb_true_iff in H as [Hc Hl]. apply negb_true_iff in Hc.
  now rewrite Hc, (IH Hl).
Qed.

Lemma split_join (ls : list string) :
  ls <> [] -> Forall (fun l => one_line l = true) ls ->
  split_nl (join_nl ls) = ls.
Proof.
  induction ls as [|l ls IH]; [congruence|]. intros _ H.
  inversion H as [|? ? Hl Hls]; subst.
  destruct ls as [|l' ls].
  - now apply split_nl_last_line.
  - rewrite join_nl_cons, (split_nl_line l _ Hl). f_equal.
    apply IH; [discriminate|assumption].
Qed.

Lemma Forall_firstn_skipn {X} (P : X -> Prop) (n m : nat) (xs : list X) :
  Forall P xs -> Forall P (firstn n (skipn m xs)).
Proof.
  intros H. rewrite <- (firstn_skipn m xs) in H.
  apply Forall_app in H as [_ H].
  rewrite <- (firstn_skipn n (skipn m xs)) in H.
  now apply Forall_app in H as [H _].
Qed.

Lemma skipn_to_last (xs : list string) :
  (0 < List.length xs)%nat ->
  firstn 1 (skipn (List.length xs - 1) xs) = [last xs ""].
Proof.
  induction xs as [|x xs IH]; intros Hlen; [simpl in Hlen; lia|].
  destruct xs as [|y ys]; [reflexivity|].
  replace (List.length (x :: y :: ys) - 1)%nat
    with (S (List.length (y :: ys) - 1)) by (simpl; lia).
  cbn [skipn]. rewrite IH by (simpl; lia). reflexivity.
Qed.

(** X1.  A text has one line more than it has line feeds; in particular
    the empty text has one line. *)
Theorem number_of_lines_counts_line_feeds (content : string) :
  get_number_of_lines content = 1 + Z.of_nat (count_nl content).
Proof. unfold get_number_of_lines. rewrite split_nl_length. lia. Qed.

(** X2.  The range from line 1 to the last line, or to any line beyond it,
    gives the content back unchanged. *)
Theorem whole_range_returns_content (content : string) (last_line : Z) :
  get_number_of_lines content <= last_line ->
  get_content_between_line_numbers (mkRange 1 last_line) content = content.
Proof.
  unfold get_number_of_lines, get_content_between_line_numbers, slice, clamp.
  cbn [start_number end_number]. intros H.
  pose proof (split_nl_length content) as Hlen.
  replace (1 - 1 <? 0) with false by reflexivity.
  destruct (Z.ltb_spec last_line 0) as [Hneg|_]; [lia|].
  rewrite Z.min_r by lia. rewrite Z.min_l by lia.
  cbn [Z.to_nat skipn]. rewrite Z.sub_0_r, Nat2Z.id, firstn_all.
  apply join_split.
Qed.

Lemma whole_range_returns_content_witness :
  get_content_between_line_numbers (mkRange 1 7)
    ("a" ++ nl ++ "b" ++ nl ++ "c")
  = "a" ++ nl ++ "b" ++ nl ++ "c".
Proof.
  apply (whole_range_returns_content ("a" ++ nl ++ "b" ++ nl ++ "c") 7).
  vm_compute. discriminate.
Defined.

(** X3.  For line numbers [1 <= a <= b <= n] of a text of [n] lines, the
    content between [a] and [b] consists of exactly the lines [a] to [b] of
    the text, [b - a + 1] of them. *)
Theorem content_between_is_the_lines (content : string) (a b : Z) :
  1 <= a -> a <= b -> b <= get_number_of_lines content ->
  split_nl (get_content_between_line_numbers (mkRange a b) content)
  = firstn (Z.to_nat (b - a + 1)) (skipn (Z.to_nat (a - 1)) (split_nl content))
  /\
  get_number_of_lines (get_content_between_line_numbers (mkRange a b) content)
  = b - a + 1.
Proof.
  intros Ha Hab Hb.
  assert (E : get_content_between_line_numbers (mkRange a b) content
              = join_nl (firstn (Z.to_nat (b - a + 1))
                           (skipn (Z.to_nat (a - 1)) (split_nl content)))).
  { unfold get_number_of_lines in Hb.
    unfold get_content_between_line_numbers, slice, clamp.
    cbn [start_number end_number].
    destruct (Z.ltb_spec (a - 1) 0) as [Hneg|_]; [lia|].
    destruct (Z.ltb_spec b 0) as [Hneg|_]; [lia|].
    rewrite !Z.min_l by lia. do 2 f_equal. lia. }
  assert (Hlen : List.length (firstn (Z.to_nat (b - a + 1))
                   (skipn (Z.to_nat (a - 1)) (split_nl content)))
                 = Z.to_nat (b - a + 1)).
  { unfold get_number_of_lines in Hb. rewrite length_firstn, length_skipn. lia. }
  assert (S : split_nl (get_content_between_line_numbers (mkRange a b) content)
              = firstn (Z.to_nat (b - a + 1))
                  (skipn (Z.to_nat (a - 1)) (split_nl content))).
  { rewrite E. apply split_join.
    - intros Hnil. rewrite Hnil in Hlen. simpl in Hlen. lia.
    - apply Forall_firstn_skipn, split_nl_one_line. }
  split; [exact S|].
  unfold get_number_of_lines at 1. rewrite S, Hlen. lia.
Qed.

Lemma content_between_is_the_lines_witness :
  split_nl (get_content_between_line_numbers (mkRange 2 3)
              ("a" ++ nl ++ "b" ++ nl ++ "c" ++ nl ++ "d"))
  = ["b"; "c"] /\
  get_number_of_lines (get_content_between_line_numbers (mkRange 2 3)
                         ("a" ++ nl ++ "b" ++ nl ++ "c" ++ nl ++ "d"))
  = 2.
Proof.
  apply (content_between_is_the_lines
           ("a" ++ nl ++ "b" ++ nl ++ "c" ++ nl ++ "d") 2 3).
  - lia.
  - lia.
  - vm_compute. discriminate.
Defined.

(** X4.  A range that ends before it starts, or starts after the last
    line, yields the empty text and no error. *)
Theorem content_of_empty_range (content : string) (a b : Z) :
  1 <= a -> 0 <= b ->
  b < a \/ get_number_of_lines content < a ->
  get_content_between_line_numbers (mkRange a b) content = "".
Proof.
  intros Ha Hb Hout.
  unfold get_number_of_lines in Hout.
  unfold get_content_between_line_numbers, slice, clamp.
  cbn [start_number end_number].
  destruct (Z.ltb_spec (a - 1) 0) as [Hneg|_]; [lia|].
  destruct (Z.ltb_spec b 0) as [Hneg|_]; [lia|].
  destruct Hout as [Hlt|Hlt].
  - replace (Z.to_nat (Z.min b (Z.of_nat (List.length (split_nl content)))
                       - Z.min (a - 1) (Z.of_nat (List.length (split_nl content)))))
      with O by lia.
    reflexivity.
  - rewrite (Z.min_r (a - 1)) by lia. rewrite Nat2Z.id, skipn_all.
    now rewrite firstn_nil.
Qed.

Lemma content_of_empty_range_witness :
  get_content_between_line_numbers (mkRange 5 9) ("a" ++ nl ++ "b") = "".
Proof.
  apply (content_of_empty_range ("a" ++ nl ++ "b") 5 9); try lia.
  right. vm_compute. reflexivity.
Defined.

(** X5.  The start line 0 is not read as "from the top": the index -1 that
    it turns into counts from the end, so that the result is the last line
    alone when the range reaches the end of the text, and empty
    otherwise. *)
Theorem start_line_zero_selects_last_line (content : string) (b : Z) :
  0 <= b ->
  get_content_between_line_numbers (mkRange 0 b) content
  = if get_number_of_lines content <=? b
    then last (split_nl content) ""
    else "".
Proof.
  intros Hb. unfold get_number_of_lines.
  unfold get_content_between_line_numbers, slice, clamp.
  cbn [start_number end_number].
  destruct (split_nl_cons content) as (l & ls & E).
  replace (0 - 1 <? 0) with true by reflexivity.
  destruct (Z.ltb_spec b 0) as [Hneg|_]; [lia|].
  assert (Hlen : (0 < List.length (split_nl content))%nat)
    by (rewrite E; simpl; lia).
  rewrite Z.max_r by lia.
  replace (Z.to_nat (0 - 1 + Z.of_nat (List.length (split_nl content))))
    with (List.length (split_nl content) - 1)%nat by lia.
  destruct (Z.leb_spec (Z.of_nat (List.length (split_nl content))) b) as [Hle|Hgt].
  - rewrite Z.min_r by lia.
    replace (Z.to_nat (Z.of_nat (List.length (split_nl content))
                       - (0 - 1 + Z.of_nat (List.length (split_nl content)))))
      with 1%nat by lia.
    now rewrite skipn_to_last by lia.
  - rewrite Z.min_l by lia.
    replace (Z.to_nat (b - (0 - 1 + Z.of_nat (List.length (split_nl content)))))
      with O by lia.
    reflexivity.
Qed.

Lemma start_line_zero_selects_last_line_witness :
  get_content_between_line_numbers (mkRange 0 2)
    ("a" ++ nl ++ "b" ++ nl ++ "c")
  = "" /\
  get_content_between_line_numbers (mkRange 0 3)
    ("a" ++ nl ++ "b" ++ nl ++ "c")
  = "c".
Proof.
  split.
  - apply (start_line_zero_selects_last_line
             ("a" ++ nl ++ "b" ++ nl ++ "c") 2). lia.
  - apply (start_line_zero_selects_last_line
             ("a" ++ nl ++ "b" ++ nl ++ "c") 3). lia.
Defined.

(** *** Truncation, extensions and blank contents *)

Lemma take_drop (n : nat) (s : string) : s = take n s ++ drop n s.
Proof.
  revert s; induction n as [|n IH]; intros s; [reflexivity|].
  destruct s as [|c s]; [reflexivity|]. simpl. now rewrite <- IH.
Qed.

Lemma slen_take (n : nat) (s : string) : slen (take n s) = Nat.min n (slen s).
Proof.
  revert s; induction n as [|n IH]; intros s; [reflexivity|].
  destruct s as [|c s]; [reflexivity|]. simpl. now rewrite IH.
Qed.

Lemma slen_drop (n : nat) (s : string) : slen (drop n s) = (slen s - n)%nat.
Proof.
  revert s; induction n as [|n IH]; intros s; [simpl; lia|].
  destruct s as [|c s]; [reflexivity|]. simpl. now rewrite IH.
Qed.

Lemma lower_char_idem (c : ascii) : lower_char (lower_char c) = lower_char c.
Proof. destruct c as [[] [] [] [] [] [] [] []]; reflexivity. Qed.

Lemma lower_idem (s : string) : lower (lower s) = lower s.
Proof.
  induction s as [|c s IH]; simpl; [reflexivity|].
  now rewrite lower_char_idem, IH.
Qed.

Lemma lower_app (a b : string) : lower (a ++ b) = lower a ++ lower b.
Proof. induction a as [|c a IH]; simpl; [reflexivity | now rewrite IH]. Qed.

Lemma slen_lower (s : string) : slen (lower s) = slen s.
Proof. induction s as [|c s IH]; simpl; [reflexivity | now rewrite IH]. Qed.

Lemma str_app_inj_len (a b c d : string) :
  a ++ b = c ++ d -> slen a = slen c -> b = d.
Proof.
  revert c; induction a as [|x a IH]; intros [|y c] H Hlen;
    try discriminate Hlen; [exact H|].
  simpl in H. injection H as _ H. injection Hlen as Hlen. now apply (IH c).
Qed.

Lemma endswith_iff (s suffix : string) :
  endswith s suffix = true <-> exists base, s = base ++ suffix.
Proof.
  unfold endswith. split.
  - intros H. apply andb_true_iff in H as [_ H]. apply String.eqb_eq in H.
    exists (take (slen s - slen suffix) s).
    rewrite <- H at 2. apply take_drop.
  - intros [base ->]. rewrite slen_app.
    replace (slen base + slen suffix - slen suffix)%nat with (slen base) by lia.
    rewrite drop_app, String.eqb_refl, andb_true_r.
    apply Nat.leb_le. lia.
Qed.

Lemma rstrip_empty_iff (s : string) :
  rstrip s = "" <-> all_chars is_space s = true.
Proof.
  induction s as [|c s IH]; simpl; [tauto|].
  destruct (rstrip s) as [|d r].
  - destruct (is_space c); simpl; [tauto|]. split; discriminate.
  - split; [discriminate|]. intros H. apply andb_true_iff in H as [_ H].
    apply IH in H. discriminate.
Qed.

Lemma lstrip_all_space (s : string) :
  all_chars is_space (lstrip s) = all_chars is_space s.
Proof.
  induction s as [|c s IH]; simpl; [reflexivity|].
  destruct (is_space c) eqn:Hc; simpl; [exact IH | now rewrite Hc].
Qed.

(** A text strips to nothing exactly when it is made of white space. *)
Lemma strip_empty_iff (s : string) :
  strip s = "" <-> all_chars is_space s = true.
Proof. unfold strip. now rewrite rstrip_empty_iff, lstrip_all_space. Qed.

(** X6.  Truncated contents are a prefix of the contents.  A limit that is
    not negative keeps that many characters, all of them when the contents
    are shorter; a negative limit raises no error and drops that many
    characters from the end instead. *)
Theorem truncated_contents_are_a_prefix (self : LocalFile) (limit : Z) :
  (exists rest,
      contents self = get_truncated_contents self limit ++ rest) /\
  Z.of_nat (slen (get_truncated_contents self limit))
  = if limit <? 0
    then Z.max 0 (Z.of_nat (slen (contents self)) + limit)
    else Z.min limit (Z.of_nat (slen (contents self))).
Proof.
  unfold get_truncated_contents, str_upto, clamp. split.
  - eexists. apply take_drop.
  - rewrite slen_take. destruct (Z.ltb_spec limit 0); lia.
Qed.

(** X7.  A file is processed exactly when its name, put in lower case,
    ends with one of the extensions: the case of the name does not matter.
    The extensions are compared as given, so that an extension written with
    a capital letter matches no file at all. *)
Theorem should_process_file_ignores_case_of_name :
  (forall (self : LocalFile) (file_extensions : list string),
      should_process_file self file_extensions = true <->
      exists extension base,
        In extension file_extensions /\
        lower (filename self) = base ++ extension) /\
  (forall (self : LocalFile) (extension : string),
      lower extension <> extension ->
      should_process_file self [extension] = false).
Proof.
  assert (Hspec : forall (self : LocalFile) (file_extensions : list string),
      should_process_file self file_extensions = true <->
      exists extension base,
        In extension file_extensions /\
        lower (filename self) = base ++ extension).
  { intros self exts. unfold should_process_file. rewrite existsb_exists.
    split.
    - intros (ext & Hin & H). apply endswith_iff in H as [base H].
      now exists ext, base.
    - intros (ext & base & Hin & H). exists ext. split; [exact Hin|].
      apply endswith_iff. now exists base. }
  split; [exact Hspec|].
  intros self ext Hcap.
  destruct (should_process_file self [ext]) eqn:E; [|reflexivity].
  exfalso. apply Hspec in E as (ext' & base & [<- | []] & H).
  apply Hcap.
  assert (H2 : lower base ++ lower ext = base ++ ext)
    by now rewrite <- lower_app, <- H, lower_idem.
  apply (str_app_inj_len _ _ _ _ H2), slen_lower.
Qed.

Lemma should_process_file_ignores_case_of_name_witness :
  should_process_file
    (mkLocalFile "x = 1" "Main.PY" "src/Main.PY" "" "") [".PY"] = false.
Proof.
  apply (proj2 should_process_file_ignores_case_of_name
           (mkLocalFile "x = 1" "Main.PY" "src/Main.PY" "" "") ".PY").
  discriminate.
Defined.

(** X8.  A run of the language model is allowed exactly for the files with
    one of the default extensions whose contents hold a character that is
    not white space. *)
Theorem allow_llm_run_needs_visible_contents (self : LocalFile) :
  allow_llm_run self = true <->
  should_process_file self default_file_extensions = true /\
  all_chars is_space (contents self) = false.
Proof.
  unfold allow_llm_run. rewrite andb_true_iff.
  assert (H : (Z.of_nat (slen (strip (contents self))) >? 0) = true <->
              all_chars is_space (contents self) = false).
  { rewrite <- not_true_iff_false, <- strip_empty_iff.
    destruct (strip (contents self)) as [|c s]; simpl.
    - split; [discriminate | congruence].
    - split; [discriminate|]. intros _. rewrite Z.gtb_ltb. apply Z.ltb_lt. lia. }
  now rewrite H.
Qed.

End LocalFileProperties.

(* ------------------------------------------------------------------ *)
(** ** llm_utils.py

    The tokenizer is tiktoken's and not part of this repository: the
    functions take [count_token_string], the number of tokens of a text, as
    a parameter. *)

Module LlmUtils.
Import Py PyMore.

Definition BASE_TOKEN_PER_MESSAGE : Z := 3.

(** A message, [dict[str, str]], as its items in insertion order. *)
Definition message : Set := list (string * string).

(** [message.values()] *)
Definition values (m : message) : list string := map snd m.

(** [content[:-1000]] *)
Definition drop_last_1000 (content : string) : string :=
  str_upto content (-1000).

Section Encoder.
Variable count_token_string : string -> Z.

Definition estimate_token_count (messages : list message) : Z :=
  fold_left
    (fun num_tokens message =>
       fold_left
         (fun num_tokens value => num_tokens + count_token_string value)
         (values message)
         (num_tokens + BASE_TOKEN_PER_MESSAGE))
    messages 3.

(** The [while] loop of [truncate_string]; [None] when [fuel] turns do not
    end it. *)
Fixpoint truncate_string_loop (fuel : nat) (content : string)
    (threshold : Z) : option string :=
  match fuel with
  | O => None
  | S fuel' =>
      let token_count := count_token_string content in
      if token_count >? threshold
      then truncate_string_loop fuel' (drop_last_1000 content) threshold
      else Some content
  end.
End Encoder.

End LlmUtils.

(* ------------------------------------------------------------------ *)
(** ** Properties of llm_utils.py *)

Module LlmUtilsProperties.
Import Py PyFacts PyMore LlmUtils LocalFileProperties.

Section Encoder.
Variable count_token_string : string -> Z.

(** The tokens of the values of one message. *)
Definition message_tokens (m : message) : Z :=
  fold_right (fun value acc => count_token_string value + acc) 0 (values m).

Lemma fold_values (vs : list string) (acc : Z) :
  fold_left (fun num_tokens value => num_tokens + count_token_string value)
            vs acc
  = acc + fold_right (fun value acc => count_token_string value + acc) 0 vs.
Proof.
  revert acc; induction vs as [|v vs IH]; intros acc;
    cbn [fold_left fold_right]; [lia|].
  rewrite IH. lia.
Qed.

Lemma fold_messages (ms : list message) (acc : Z) :
  fold_left
    (fun num_tokens message =>
       fold_left
         (fun num_tokens value => num_tokens + count_token_string value)
         (values message)
         (num_tokens + BASE_TOKEN_PER_MESSAGE))
    ms acc
  = acc + fold_right (fun m acc => 3 + message_tokens m + acc) 0 ms.
Proof.
  revert acc; induction ms as [|m ms IH]; intros acc;
    cbn [fold_left fold_right]; [lia|].
  rewrite IH, fold_values. unfold message_tokens, BASE_TOKEN_PER_MESSAGE. lia.
Qed.

Lemma estimate_sum (ms : list message) :
  estimate_token_count count_token_string ms
  = 3 + fold_right (fun m acc => 3 + message_tokens m + acc) 0 ms.
Proof. unfold estimate_token_count. apply fold_messages. Qed.

Lemma drop_last_1000_take (content : string) :
  drop_last_1000 content = take (slen content - 1000) content.
Proof.
  unfold drop_last_1000, str_upto, clamp. cbn [Z.ltb Z.compare].
  f_equal. lia.
Qed.

Lemma drop_last_1000_shorter (content : string) :
  content <> "" -> (slen (drop_last_1000 content) < slen content)%nat.
Proof.
  intros H. rewrite drop_last_1000_take, slen_take.
  destruct content; [congruence | simpl; lia].
Qed.

Lemma take_take (a b : nat) (s : string) :
  take a (take b s) = take (Nat.min a b) s.
Proof.
  revert b s; induction a as [|a IH]; intros b s; [reflexivity|].
  destruct b as [|b]; [reflexivity|].
  destruct s as [|c s]; [reflexivity|]. simpl. now rewrite IH.
Qed.

Lemma take_all (s : string) : take (slen s) s = s.
Proof. induction s as [|c s IH]; simpl; [reflexivity | now rewrite IH]. Qed.

(** After [k] turns the content has lost its last [1000 * k] characters. *)
Lemma iter_drop_last_1000 (k : nat) (content : string) :
  Nat.iter k drop_last_1000 content = take (slen content - 1000 * k) content.
Proof.
  induction k as [|k IH].
  - simpl. rewrite Nat.sub_0_r. symmetry. apply take_all.
  - rewrite Nat.iter_succ, IH, drop_last_1000_take, slen_take, take_take.
    f_equal. lia.
Qed.

Lemma iter_shift {X} (f : X -> X) (k : nat) (x : X) :
  Nat.iter k f (f x) = Nat.iter (S k) f x.
Proof. symmetry. apply Nat.iter_succ_r. Qed.

Lemma truncate_string_loop_ends (threshold : Z) (n : nat) :
  count_token_string "" <= threshold ->
  forall content,
    (slen content <= n)%nat ->
    exists k,
      (1000 * k < slen content + 1000)%nat /\
      count_token_string (Nat.iter k drop_last_1000 content) <= threshold /\
      (forall j, (j < k)%nat ->
         threshold < count_token_string (Nat.iter j drop_last_1000 content)) /\
      (forall fuel, (k < fuel)%nat ->
         truncate_string_loop count_token_string fuel content threshold
         = Some (Nat.iter k drop_last_1000 content)).
Proof.
  intros Hempty. induction n as [|n IH]; intros content Hlen.
  - destruct content; [|simpl in Hlen; lia].
    exists O. repeat split; [simpl; lia | exact Hempty | lia |].
    intros [|fuel] Hf; [lia|]. cbn [truncate_string_loop Nat.iter].
    now replace (count_token_string "" >? threshold) with false
      by (symmetry; rewrite Z.gtb_ltb; apply Z.ltb_ge; exact Hempty).
  - destruct (Z.leb_spec (count_token_string content) threshold) as [Hfit|Hbig].
    + exists O. repeat split; [simpl; lia | exact Hfit | lia |].
      intros [|fuel] Hf; [lia|]. cbn [truncate_string_loop Nat.iter].
      now replace (count_token_string content >? threshold) with false
        by (symmetry; rewrite Z.gtb_ltb; apply Z.ltb_ge; exact Hfit).
    + assert (Hne : content <> "") by (intros ->; lia).
      pose proof (drop_last_1000_shorter content Hne) as Hshort.
      destruct (IH (drop_last_1000 content)) as (k & Hk & Hfit & Hmin & Hrun);
        [lia|].
      exists (S k). rewrite <- !iter_shift. repeat split.
      * rewrite drop_last_1000_take, slen_take in Hk. lia.
      * exact Hfit.
      * intros [|j] Hj; [exact Hbig|].
        rewrite <- iter_shift. apply Hmin. lia.
      * intros [|fuel] Hf; [lia|]. cbn [truncate_string_loop].
        replace (count_token_string content >? threshold) with true
          by (symmetry; rewrite Z.gtb_ltb; apply Z.ltb_lt; exact Hbig).
        apply Hrun. lia.
Qed.
End Encoder.

(** X9.  The estimate is 3 for no message, and 3 more than the tokens of
    its values for each message: it adds up over a concatenation of message
    lists, save that the 3 of the reply are counted once.  With a tokenizer
    that never counts below zero it is at least [3 + 3 * len(messages)]. *)
Theorem estimate_token_count_adds_up
    (count_token_string : string -> Z) (ms1 ms2 : list message) :
  estimate_token_count count_token_string [] = 3 /\
  estimate_token_count count_token_string (ms1 ++ ms2)
  = estimate_token_count count_token_string ms1
    + estimate_token_count count_token_string ms2 - 3 /\
  ((forall s, 0 <= count_token_string s) ->
   3 + 3 * Z.of_nat (List.length ms1)
   <= estimate_token_count count_token_string ms1).
Proof.
  split; [reflexivity | split].
  - rewrite !estimate_sum, fold_right_app.
    assert (H : forall (l : list message) (z : Z),
      fold_right (fun m acc => 3 + message_tokens count_token_string m + acc)
                 z l
      = z + fold_right
              (fun m acc => 3 + message_tokens count_token_string m + acc)
              0 l).
    { induction l as [|m l IH]; intros z; cbn [fold_right]; [lia|].
      rewrite IH. lia. }
    rewrite H. lia.
  - intros Hpos. rewrite estimate_sum.
    assert (Hm : forall m, 0 <= message_tokens count_token_string m).
    { intros m. unfold message_tokens.
      induction (values m) as [|v vs IH]; cbn [fold_right]; [lia|].
      specialize (Hpos v). lia. }
    induction ms1 as [|m ms IH]; [cbn [fold_right List.length]; lia|].
    cbn [fold_right List.length]. specialize (Hm m). lia.
Qed.

(** A tokenizer for the examples: one token per character. *)
Definition one_token_per_char (s : string) : Z := Z.of_nat (slen s).

Lemma estimate_token_count_adds_up_witness :
  3 + 3 * Z.of_nat (List.length [[("role", "user"); ("content", "hello")]])
  <= estimate_token_count one_token_per_char
       [[("role", "user"); ("content", "hello")]].
Proof.
  apply (proj2 (proj2 (estimate_token_count_adds_up one_token_per_char
                         [[("role", "user"); ("content", "hello")]] []))).
  intros s. unfold one_token_per_char. lia.
Defined.

(** X10.  When the empty text is within the threshold, [truncate_string]
    ends, after at most one turn per 1000 characters begun.  Its result is
    the content without its last [1000 * k] characters, for the least [k]
    that brings the token count within the threshold; content that is
    within the threshold from the start is returned unchanged. *)
Theorem truncate_string_ends_within_threshold
    (count_token_string : string -> Z) (content : string) (threshold : Z) :
  count_token_string "" <= threshold ->
  exists k,
    (1000 * k < slen content + 1000)%nat /\
    count_token_string (take (slen content - 1000 * k) content) <= threshold /\
    (forall j, (j < k)%nat ->
       threshold < count_token_string (take (slen content - 1000 * j) content)) /\
    (forall fuel, (k < fuel)%nat ->
       truncate_string_loop count_token_string fuel content threshold
       = Some (take (slen content - 1000 * k) content)) /\
    (count_token_string content <= threshold -> k = O).
Proof.
  intros Hempty.
  destruct (truncate_string_loop_ends count_token_string threshold
              (slen content) Hempty content (Nat.le_refl _))
    as (k & Hk & Hfit & Hmin & Hrun).
  exists k. rewrite <- iter_drop_last_1000. repeat split; try assumption.
  - intros j Hj. rewrite <- iter_drop_last_1000. now apply Hmin.
  - intros Hle. destruct k as [|k]; [reflexivity|].
    specialize (Hmin O (Nat.lt_0_succ k)).
    change (Nat.iter 0 drop_last_1000 content) with content in Hmin. lia.
Qed.

Lemma truncate_string_ends_within_threshold_witness :
  exists k,
    (1000 * k < slen "hello world" + 1000)%nat /\
    one_token_per_char (take (slen "hello world" - 1000 * k) "hello world")
    <= 5 /\
    (forall j, (j < k)%nat ->
       5 < one_token_per_char
             (take (slen "hello world" - 1000 * j) "hello world")) /\
    (forall fuel, (k < fuel)%nat ->
       truncate_string_loop one_token_per_char fuel "hello world" 5
       = Some (take (slen "hello world" - 1000 * k) "hello world")) /\
    (one_token_per_char "hello world" <= 5 -> k = O).
Proof.
  apply (truncate_string_ends_within_threshold one_token_per_char
           "hello world" 5).
  vm_compute. discriminate.
Defined.

(** X11.  When every cut of the content, the empty text included, stays
    above the threshold, the loop of [truncate_string] never ends: no
    number of turns yields a result.  This is so for every content when the
    threshold lies below the token count of the empty text. *)
Theorem truncate_string_never_ends_below_empty
    (count_token_string : string -> Z) (content : string) (threshold : Z) :
  (forall k, threshold
             < count_token_string (take (slen content - 1000 * k) content)) ->
  forall fuel,
    truncate_string_loop count_token_string fuel content threshold = None.
Proof.
  intros Hall fuel.
  assert (H : forall k,
    truncate_string_loop count_token_string fuel
      (Nat.iter k drop_last_1000 content) threshold = None).
  { induction fuel as [|fuel IH]; intros k; [reflexivity|].
    cbn [truncate_string_loop].
    specialize (Hall k). rewrite <- iter_drop_last_1000 in Hall.
    replace (count_token_string (Nat.iter k drop_last_1000 content)
             >? threshold) with true
      by (symmetry; rewrite Z.gtb_ltb; apply Z.ltb_lt; exact Hall).
    apply (IH (S k)). }
  apply (H O).
Qed.

Lemma truncate_string_never_ends_below_empty_witness :
  truncate_string_loop one_token_per_char 100 "hello" (-1) = None.
Proof.
  apply (truncate_string_never_ends_below_empty one_token_per_char
           "hello" (-1)).
  intros k. unfold one_token_per_char. lia.
Defined.

End LlmUtilsProperties.

(* ------------------------------------------------------------------ *)
(** ** Ignore rules and pull-request files

    [should_ignore_file] of string_search.py and
    [GithubUtils.should_ignore_file] of github_service.py are the same text;
    one definition stands for both.  [fnmatch.fnmatch] is Python's; the
    lines of the file [.korbitignore], the files of a pull request and the
    answers of [repository.get_contents] come from outside.  All of them
    are parameters, and those that can fail are outcomes: a value or a
    raised exception. *)

Module GithubService.
Import Py PyMore LocalFileModel.

(** What the code reads of a [github.File]; [previous_filename] is [None]
    for a file that was not renamed. *)
Record File : Set := mkFile {
  file_filename : string;
  file_previous_filename : option string;
  file_status : string;
  file_patch : string
}.

(** The fields of [DiffRepresentation]. *)
Record DiffRepr : Set := mkDiffRepr {
  diff : string;
  file_path : string;
  previous_file_path : string
}.

(** [DiffRepresentation.from_github_file]; [a or b] is [b] when [a] is
    [None] or empty. *)
Definition from_github_file (github_file : File) : DiffRepr :=
  let previous_file_name :=
    match file_previous_filename github_file with
    | Some (String c s) => String c s
    | _ => file_filename github_file
    end in
  mkDiffRepr (file_patch github_file) (file_filename github_file)
             previous_file_name.

(** The exceptions that this part of the program raises, catches or lets
    through; [GithubException] stands for the class and its subclasses,
    [OtherException] for any class that is not named here. *)
Inductive exception : Set :=
| TypeError
| AssertionError
| UnicodeDecodeError
| GithubException
| FileNotFoundError
| OtherException (name : string).

(** The outcome of a call: the value it returns or the exception it
    raises. *)
Inductive outcome (A : Type) : Type :=
| Returns (a : A)
| Raises (e : exception).
Arguments Returns {A} a.
Arguments Raises {A} e.

(** What the code reads of a [github.ContentFile].  [cf_decoded] is the
    outcome of [content_file.decoded_content.decode()]: the text, or
    [AssertionError] when the content was not sent in base64, as for a file
    of more than 1 MB, or [UnicodeDecodeError] when the bytes are no
    UTF-8. *)
Record ContentFile : Type := mkContentFile {
  cf_decoded : outcome string;
  cf_name : string;
  cf_path : string;
  cf_html_url : string
}.

(** What [repository.get_contents(path, ref)] returns: a file, or the
    list of the entries of a directory. *)
Inductive contents : Type :=
| OneFile (content_file : ContentFile)
| Listing (content_files : list ContentFile).

(** [from_content_file] of local_file.py: it catches nothing. *)
Definition from_content_file (content_file : ContentFile)
    : outcome LocalFile :=
  match cf_decoded content_file with
  | Returns text =>
      Returns (mkLocalFile text (cf_name content_file)
                 (cf_path content_file) (cf_html_url content_file) "")
  | Raises e => Raises e
  end.

(** The items a generator yields until it ends, and how it ends: by
    returning or by raising. *)
Definition iteration (A : Type) : Type := (list A * outcome unit)%type.

Section Outside.
Variable fnmatch : string -> string -> bool.
(** [file.readlines()] on [open(".korbitignore", "r")], or what [open]
    raises. *)
Variable readlines : outcome (list string).
(** [repository.get_contents(path, ref)] *)
Variable get_contents : string -> string -> outcome contents.
(** [pull_request.head.sha] *)
Variable head_sha : string.

Fixpoint should_ignore_file (file_path : string) (rules : list string)
    : bool :=
  match rules with
  | [] => false
  | rule :: more =>
      let rule_with_wildcard :=
        if endswith rule "/" then rule ++ "*" else rule in
      if fnmatch file_path rule_with_wildcard then true
      else should_ignore_file file_path more
  end.

Definition get_ignore_file_rules : outcome (list string) :=
  match readlines with
  | Returns korbit_ignore_lines => Returns (map strip korbit_ignore_lines)
  | Raises e => Raises e
  end.

(** [files] is [pull_request.get_files()]. *)
Definition get_pull_request_files (files : list File)
    (ignore_rules : option (list string)) : outcome (list DiffRepr) :=
  match
    match ignore_rules with
    | Some (rule :: more) => Returns (rule :: more)
    | _ => get_ignore_file_rules
    end
  with
  | Returns ignore_rules =>
      Returns
        (map from_github_file
           (filter
              (fun file =>
                 negb (should_ignore_file (file_filename file) ignore_rules)
                 && negb (String.eqb (file_status file) "removed"))
              files))
  | Raises e => Raises e
  end.

(** The loop over a directory listing: a file that does not decode as
    UTF-8 is left out, any other exception ends the call. *)
Fixpoint local_files_of (content_files : list ContentFile)
    : outcome (list LocalFile) :=
  match content_files with
  | [] => Returns []
  | content_file :: more =>
      match from_content_file content_file with
      | Returns local_file =>
          match local_files_of more with
          | Returns local_files => Returns (local_file :: local_files)
          | Raises e => Raises e
          end
      | Raises UnicodeDecodeError => local_files_of more
      | Raises e => Raises e
      end
  end.

Definition get_repository_content_from_path (path ref : string)
    : outcome (list LocalFile) :=
  match get_contents path ref with
  | Raises GithubException => Returns []
  | Raises e => Raises e
  | Returns (Listing content_files) => local_files_of content_files
  | Returns (OneFile content_file) =>
      match from_content_file content_file with
      | Returns local_file => Returns [local_file]
      | Raises UnicodeDecodeError => Returns []
      | Raises e => Raises e
      end
  end.

Definition get_pull_request_content_files (file : DiffRepr)
    : outcome (option LocalFile) :=
  match get_repository_content_from_path (file_path file) head_sha with
  | Returns (local_file :: _) => Returns (Some local_file)
  | Returns [] => Returns None
  | Raises e => Raises e
  end.

(** The loop of [get_pull_request_content_file_iter] over [pr_files], with
    the pairs it yields; iterating over [allowed_extensions = None] raises
    [TypeError], and an exception of the fetch ends the iteration after the
    pairs yielded so far. *)
Fixpoint content_file_loop (pr_files : list DiffRepr)
    (allowed_extensions : option (list string))
    : iteration (LocalFile * DiffRepr) :=
  match pr_files with
  | [] => ([], Returns tt)
  | pr_file :: more =>
      match allowed_extensions with
      | None => ([], Raises TypeError)
      | Some extensions =>
          if negb (existsb (fun extension =>
                              endswith (file_path pr_file) extension)
                           extensions)
          then content_file_loop more allowed_extensions
          else
            match get_pull_request_content_files pr_file with
            | Returns (Some content_file) =>
                let '(rest, ending) :=
                  content_file_loop more allowed_extensions in
                ((content_file, pr_file) :: rest, ending)
            | Returns None => content_file_loop more allowed_extensions
            | Raises e => ([], Raises e)
            end
      end
  end.

Definition get_pull_request_content_file_iter (files : list File)
    (allowed_extensions : option (list string))
    : iteration (LocalFile * DiffRepr) :=
  match get_pull_request_files files None with
  | Returns pr_files => content_file_loop pr_files allowed_extensions
  | Raises e => ([], Raises e)
  end.
End Outside.

End GithubService.

(* ------------------------------------------------------------------ *)
(** ** Properties of the ignore rules and the pull-request files *)

Module GithubServiceProperties.
Import Py PyFacts PyMore LocalFileModel LocalFileProperties GithubService.

(** A matcher for the examples: [fnmatch] on patterns without bracket
    expressions, where [*] stands for any text and [?] for any one
    character. *)
Fixpoint glob (pattern : string) : string -> bool :=
  match pattern with
  | EmptyString => fun name => String.eqb name ""
  | String c pattern' =>
      if Ascii.eqb c "*" then
        fix any_text (name : string) : bool :=
          glob pattern' name
          || match name with
             | EmptyString => false
             | String _ name' => any_text name'
             end
      else
        fun name =>
          match name with
          | EmptyString => false
          | String d name' =>
              (Ascii.eqb c "?" || Ascii.eqb c d) && glob pattern' name'
          end
  end.

Definition sample_fnmatch (name pattern : string) : bool := glob pattern name.


Definition sample_get_contents (path ref : string) : outcome contents :=
  if String.eqb path "a.py"
  then Returns (OneFile (mkContentFile (Returns "x = 1") "a.py" "a.py" ""))
  else if String.eqb path "big.py"
  then Returns (OneFile (mkContentFile (Raises AssertionError)
                           "big.py" "big.py" ""))
  else Raises GithubException.

Section Rules.
Variable fnmatch : string -> string -> bool.
Variable readlines : outcome (list string).

(** The pattern a rule is matched as. *)
Definition pattern_of (rule : string) : string :=
  if endswith rule "/" then rule ++ "*" else rule.

Lemma should_ignore_file_exists (file_path : string) (rules : list string) :
  should_ignore_file fnmatch file_path rules = true <->
  exists rule, In rule rules /\ fnmatch file_path (pattern_of rule) = true.
Proof.
  induction rules as [|rule more IH]; cbn [should_ignore_file].
  - split; [discriminate | now intros (? & [] & _)].
  - fold (pattern_of rule).
    destruct (fnmatch file_path (pattern_of rule)) eqn:E.
    + split; [|reflexivity]. intros _. exists rule. split; [now left | exact E].
    + rewrite IH. split.
      * intros (r & Hin & H). exists r. split; [now right | exact H].
      * intros (r & [<- | Hin] & H); [congruence|]. now exists r.
Qed.

(** The files kept under the rules [rules]. *)
Definition kept (rules : list string) (files : list File) : list DiffRepr :=
  map from_github_file
    (filter
       (fun file =>
          negb (should_ignore_file fnmatch (file_filename file) rules)
          && negb (String.eqb (file_status file) "removed"))
       files).

Lemma kept_in (rules : list string) (files : list File) (d : DiffRepr) :
  In d (kept rules files) <->
  exists file,
    In file files /\
    file_status file <> "removed" /\
    should_ignore_file fnmatch (file_filename file) rules = false /\
    d = from_github_file file.
Proof.
  unfold kept. rewrite in_map_iff. split.
  - intros (file & <- & Hin). apply filter_In in Hin as [Hin H].
    apply andb_true_iff in H as [Hi Hs].
    apply negb_true_iff in Hi, Hs. apply String.eqb_neq in Hs.
    now exists file.
  - intros (file & Hin & Hs & Hi & ->). exists file. split; [reflexivity|].
    apply filter_In. split; [exact Hin|].
    apply String.eqb_neq in Hs. now rewrite Hi, Hs.
Qed.

Lemma pull_request_files_given (files : list File) (rule : string)
    (more : list string) :
  get_pull_request_files fnmatch readlines files (Some (rule :: more))
  = Returns (kept (rule :: more) files).
Proof. reflexivity. Qed.

Lemma pull_request_files_default (files : list File)
    (ignore_rules : option (list string)) :
  ignore_rules = None \/ ignore_rules = Some [] ->
  get_pull_request_files fnmatch readlines files ignore_rules
  = match get_ignore_file_rules readlines with
    | Returns rules => Returns (kept rules files)
    | Raises e => Raises e
    end.
Proof. now intros [-> | ->]. Qed.
End Rules.

Section Fetch.
Variable get_contents : string -> string -> outcome contents.
Variable head_sha : string.



Local Notation "'fetch'" :=
  (get_pull_request_content_files get_contents head_sha).
Local Notation "'loop'" := (content_file_loop get_contents head_sha).



End Fetch.

(** X12.  A path is ignored exactly when one of the rules matches it, a
    rule that ends in [/] being matched with [*] appended.  Hence no path is
    ignored under the empty rule list, two rule lists put together ignore
    what either of them ignores, and neither the order of the rules nor a
    repeated rule changes the answer. *)
Theorem should_ignore_file_is_any_rule
    (fnmatch : string -> string -> bool) (file_path : string)
    (rules1 rules2 : list string) :
  (should_ignore_file fnmatch file_path rules1 = true <->
   exists rule,
     In rule rules1 /\
     fnmatch file_path (if endswith rule "/" then rule ++ "*" else rule)
     = true) /\
  should_ignore_file fnmatch file_path [] = false /\
  should_ignore_file fnmatch file_path (rules1 ++ rules2)
  = should_ignore_file fnmatch file_path rules1
    || should_ignore_file fnmatch file_path rules2 /\
  ((forall rule, In rule rules1 <-> In rule rules2) ->
   should_ignore_file fnmatch file_path rules1
   = should_ignore_file fnmatch file_path rules2).
Proof.
  split; [apply should_ignore_file_exists|].
  split; [reflexivity | split].
  - apply eq_true_iff_eq.
    rewrite orb_true_iff, !should_ignore_file_exists. split.
    + intros (r & Hin & H). apply in_app_or in Hin as [Hin|Hin];
        [left | right]; now exists r.
    + intros [(r & Hin & H) | (r & Hin & H)]; exists r;
        (split; [apply in_or_app; tauto | exact H]).
  - intros Hsame. apply eq_true_iff_eq.
    rewrite !should_ignore_file_exists.
    split; intros (r & Hin & H); exists r; (split; [now apply Hsame | exact H]).
Qed.

Lemma should_ignore_file_is_any_rule_witness :
  should_ignore_file sample_fnmatch "docs/readme.md" ["*.lock"; "docs/"]
  = should_ignore_file sample_fnmatch "docs/readme.md"
      ["docs/"; "*.lock"; "docs/"].
Proof.
  apply (proj2 (proj2 (proj2 (should_ignore_file_is_any_rule sample_fnmatch
                                "docs/readme.md" ["*.lock"; "docs/"]
                                ["docs/"; "*.lock"; "docs/"])))).
  intros rule. simpl. tauto.
Defined.

(** X13.  Given a rule list that is not empty, the call returns, whatever
    the state of the file [.korbitignore].  The files of a pull request
    that are returned are those that are not removed and not ignored, each
    turned into its diff representation, in the order of the pull request:
    a removed or an ignored file never appears, and there are no more
    results than files. *)
Theorem pull_request_files_skip_removed_and_ignored
    (fnmatch : string -> string -> bool) (readlines : outcome (list string))
    (files : list File) (rule : string) (more : list string) :
  exists result : list DiffRepr,
    get_pull_request_files fnmatch readlines files (Some (rule :: more))
    = Returns result /\
    (forall d, In d result <->
       exists file,
         In file files /\ file_status file <> "removed" /\
         should_ignore_file fnmatch (file_filename file) (rule :: more)
         = false /\
         d = from_github_file file) /\
    (List.length result <= List.length files)%nat /\
    (forall file,
       get_pull_request_files fnmatch readlines (file :: files)
         (Some (rule :: more))
       = Returns
           (if negb (should_ignore_file fnmatch (file_filename file)
                       (rule :: more))
               && negb (String.eqb (file_status file) "removed")
            then from_github_file file :: result
            else result)).
Proof.
  exists (kept fnmatch (rule :: more) files).
  split; [reflexivity | split; [|split]].
  - intros d. apply kept_in.
  - unfold kept. rewrite length_map. apply filter_length_le.
  - intros file. rewrite pull_request_files_given. unfold kept.
    cbn [filter].
    now destruct (negb (should_ignore_file fnmatch (file_filename file)
                          (rule :: more))
                  && negb (String.eqb (file_status file) "removed")).
Qed.



(** X15.  Let the file [.korbitignore] be read.  Run without
    [allowed_extensions], the iterator over the content files raises
    [TypeError] as soon as the pull request has a file that is neither
    removed nor ignored by the default rules, before it yields anything; it
    ends quietly only when there is no such file. *)
Theorem content_file_iter_needs_extensions
    (fnmatch : string -> string -> bool) (readlines : outcome (list string))
    (get_contents : string -> string -> outcome contents) (head_sha : string)
    (files : list File) (default_ignore_rules : list string) :
  get_ignore_file_rules readlines = Returns default_ignore_rules ->
  ((exists file,
       In file files /\ file_status file <> "removed" /\
       should_ignore_file fnmatch (file_filename file) default_ignore_rules
       = false) ->
   get_pull_request_content_file_iter fnmatch readlines get_contents
     head_sha files None = ([], Raises TypeError)) /\
  ((forall file,
       In file files ->
       file_status file = "removed" \/
       should_ignore_file fnmatch (file_filename file) default_ignore_rules
       = true) ->
   get_pull_request_content_file_iter fnmatch readlines get_contents
     head_sha files None = ([], Returns tt)).
Proof.
  intros Hrules. unfold get_pull_request_content_file_iter.
  rewrite pull_request_files_default by now left. rewrite Hrules.
  destruct (kept fnmatch default_ignore_rules files) as [|d ds] eqn:E;
    cbn [content_file_loop]; split.
  - intros (file & Hin & Hs & Hi). exfalso.
    assert (Hd : In (from_github_file file)
                   (kept fnmatch default_ignore_rules files)).
    { apply kept_in. now exists file. }
    now rewrite E in Hd.
  - reflexivity.
  - reflexivity.
  - intros Hall. exfalso.
    assert (Hd : In d (kept fnmatch default_ignore_rules files))
      by (rewrite E; now left).
    apply kept_in in Hd as (file & Hin & Hs & Hi & _).
    destruct (Hall file Hin) as [H|H]; congruence.
Qed.

Lemma content_file_iter_needs_extensions_witness :
  get_pull_request_content_file_iter sample_fnmatch
    (Returns ["*.lock" ++ nl]) sample_get_contents "sha"
    [mkFile "poetry.lock" None "modified" "";
     mkFile "a.py" None "modified" "@@ -1 +1 @@"] None
  = ([], Raises TypeError) /\
  get_pull_request_content_file_iter sample_fnmatch
    (Returns ["*.lock" ++ nl]) sample_get_contents "sha"
    [mkFile "poetry.lock" None "modified" "";
     mkFile "old.py" None "removed" ""] None
  = ([], Returns tt).
Proof.
  split.
  - apply (proj1 (content_file_iter_needs_extensions sample_fnmatch
                    (Returns ["*.lock" ++ nl]) sample_get_contents "sha"
                    [mkFile "poetry.lock" None "modified" "";
                     mkFile "a.py" None "modified" "@@ -1 +1 @@"]
                    ["*.lock"] eq_refl)).
    exists (mkFile "a.py" None "modified" "@@ -1 +1 @@").
    split; [right; now left | split; [discriminate | reflexivity]].
  - apply (proj2 (content_file_iter_needs_extensions sample_fnmatch
                    (Returns ["*.lock" ++ nl]) sample_get_contents "sha"
                    [mkFile "poetry.lock" None "modified" "";
                     mkFile "old.py" None "removed" ""]
                    ["*.lock"] eq_refl)).
    intros file [<- | [<- | []]]; [right | left]; reflexivity.
Defined.

(** When the file [.korbitignore] cannot be read, the iterator raises what
    reading it raises, before it yields anything, whatever the allowed
    extensions. *)
Lemma content_file_iter_needs_rules_file
    (fnmatch : string -> string -> bool)
    (get_contents : string -> string -> outcome contents) (head_sha : string)
    (files : list File) (allowed_extensions : option (list string))
    (e : exception) :
  get_pull_request_content_file_iter fnmatch (Raises e) get_contents
    head_sha files allowed_extensions = ([], Raises e).
Proof. reflexivity. Qed.

(** The fetch of the content of a file of the pull request: a
    [GithubException] of the repository and a [UnicodeDecodeError] of the
    decoding give no content, the text of a file gives a content, and any
    other exception is let through, the [AssertionError] of a file too
    large to be decoded among them. *)
Lemma fetch_of_one_file
    (get_contents : string -> string -> outcome contents) (head_sha : string)
    (pr_file : DiffRepr) :
  (get_contents (file_path pr_file) head_sha = Raises GithubException ->
   get_pull_request_content_files get_contents head_sha pr_file
   = Returns None) /\
  (forall e,
      get_contents (file_path pr_file) head_sha = Raises e ->
      e <> GithubException ->
      get_pull_request_content_files get_contents head_sha pr_file
      = Raises e) /\
  (forall content_file,
      get_contents (file_path pr_file) head_sha
      = Returns (OneFile content_file) ->
      get_pull_request_content_files get_contents head_sha pr_file
      = match cf_decoded content_file with
        | Returns text =>
            Returns (Some (mkLocalFile text (cf_name content_file)
                             (cf_path content_file)
                             (cf_html_url content_file) ""))
        | Raises UnicodeDecodeError => Returns None
        | Raises e => Raises e
        end).
Proof.
  unfold get_pull_request_content_files, get_repository_content_from_path.
  split; [|split].
  - now intros ->.
  - intros e -> He. now destruct e.
  - intros content_file ->. unfold from_content_file.
    destruct (cf_decoded content_file) as [text|e]; [reflexivity|].
    now destruct e.
Qed.



End GithubServiceProperties.

(* ------------------------------------------------------------------ *)
(** ** Further properties of the snippet locator *)

Module MoreLocatorProperties.
Import Py PyFacts StringSearch SnippetLocator LocatorProperties.
Import LocalFileModel LocalFileProperties.

(** The ranges [rs] lie after line [lo] and up to line [hi], one after the
    other without overlap. *)
Fixpoint laid_out (lo hi : Z) (rs : list LineNumberRange) : Prop :=
  match rs with
  | [] => True
  | r :: rs' =>
      lo < start_number r /\ start_number r <= end_number r /\
      end_number r <= hi /\ laid_out (end_number r) hi rs'
  end.

Lemma laid_out_weaken (lo lo' hi : Z) (rs : list LineNumberRange) :
  lo' <= lo -> laid_out lo hi rs -> laid_out lo' hi rs.
Proof. destruct rs as [|r rs]; simpl; [tauto|]. intros H (H1 & H2); split; [lia | exact H2]. Qed.

Section SpecScan.
Variables is_start is_end : string -> bool.

Lemma first_index_spec (test : string -> bool) (lines : list string) :
  forall d,
    first_index test lines = Some d ->
    exists l,
      nth_error lines d = Some l /\ test l = true /\
      forall j l', (j < d)%nat -> nth_error lines j = Some l' ->
                   test l' = false.
Proof.
  induction lines as [|l0 more IH]; intros d; cbn [first_index];
    [discriminate|].
  destruct (test l0) eqn:E.
  - intros [= <-]. exists l0. repeat split; [exact E | intros; lia].
  - destruct (first_index test more) as [d'|]; [|discriminate].
    intros [= <-]. destruct (IH d' eq_refl) as (l & Hl & Ht & Hbefore).
    exists l. repeat split; try assumption.
    intros [|j] l' Hj Hl'; [now injection Hl' as <-|].
    apply (Hbefore j l'); [lia | exact Hl'].
Qed.

Lemma first_index_none (test : string -> bool) (lines : list string) :
  first_index test lines = None ->
  forall l, In l lines -> test l = false.
Proof.
  induction lines as [|l0 more IH]; cbn [first_index]; [now intros _ l []|].
  destruct (test l0) eqn:E; [discriminate|].
  destruct (first_index test more); [discriminate|].
  intros _ l [<- | Hin]; [exact E | now apply IH].
Qed.

Lemma spec_scan_laid_out (lines : list string) :
  forall i skip,
    laid_out (i + Z.of_nat skip) (i + Z.of_nat (List.length lines))
             (spec_scan is_start is_end i skip lines).
Proof.
  induction lines as [|l more IH]; intros i skip; cbn [spec_scan];
    [exact I|].
  assert (Hnext : laid_out (i + 0) (i + Z.of_nat (List.length (l :: more)))
                    (spec_scan is_start is_end (i + 1) 0 more)).
  { apply (laid_out_weaken (i + 1 + Z.of_nat 0)); [lia|].
    replace (i + Z.of_nat (List.length (l :: more)))
      with (i + 1 + Z.of_nat (List.length more))
      by (cbn [List.length]; lia).
    apply IH. }
  destruct skip as [|skip].
  - destruct (is_start l); [|exact Hnext].
    destruct (first_index is_end (l :: more)) as [d|] eqn:Hd; [|exact Hnext].
    apply first_index_bound in Hd. cbn [laid_out start_number end_number].
    repeat split; try lia.
    replace (i + Z.of_nat (List.length (l :: more)))
      with (i + 1 + Z.of_nat (List.length more))
      by (cbn [List.length]; lia).
    replace (i + Z.of_nat d + 1) with (i + 1 + Z.of_nat d) by lia.
    apply IH.
  - replace (i + Z.of_nat (List.length (l :: more)))
      with (i + 1 + Z.of_nat (List.length more))
      by (cbn [List.length]; lia).
    replace (i + Z.of_nat (S skip)) with (i + 1 + Z.of_nat skip) by lia.
    apply IH.
Qed.

(** Each range begins at a line that passes the start test and ends at the
    first line from there on that passes the end test. *)
Lemma spec_scan_delimited (lines : list string) :
  forall i skip r,
    In r (spec_scan is_start is_end i skip lines) ->
    exists (a b : nat) (la lb : string),
      start_number r = i + Z.of_nat a + 1 /\
      end_number r = i + Z.of_nat b + 1 /\
      (a <= b)%nat /\
      nth_error lines a = Some la /\ is_start la = true /\
      nth_error lines b = Some lb /\ is_end lb = true /\
      forall j l, (a <= j < b)%nat -> nth_error lines j = Some l ->
                  is_end l = false.
Proof.
  induction lines as [|l more IH]; intros i skip r; cbn [spec_scan];
    [now intros []|].
  assert (Hshift : forall skip',
    In r (spec_scan is_start is_end (i + 1) skip' more) ->
    exists (a b : nat) (la lb : string),
      start_number r = i + Z.of_nat a + 1 /\
      end_number r = i + Z.of_nat b + 1 /\
      (a <= b)%nat /\
      nth_error (l :: more) a = Some la /\ is_start la = true /\
      nth_error (l :: more) b = Some lb /\ is_end lb = true /\
      forall j l', (a <= j < b)%nat -> nth_error (l :: more) j = Some l' ->
                   is_end l' = false).
  { intros skip' Hin.
    destruct (IH _ _ _ Hin) as (a & b & la & lb & Hs & He & Hab & Ha & Hsa
                                & Hb & Heb & Hmid).
    exists (S a), (S b), la, lb. repeat split; try assumption; try lia.
    intros [|j] l' Hj Hl'; [lia|]. apply (Hmid j l'); [lia | exact Hl']. }
  destruct skip as [|skip]; [|apply Hshift].
  destruct (is_start l) eqn:Hstart; [|apply Hshift].
  destruct (first_index is_end (l :: more)) as [d|] eqn:Hd; [|apply Hshift].
  intros [<- | Hin]; [|now apply (Hshift d)].
  destruct (first_index_spec is_end _ d Hd) as (lb & Hlb & Heb & Hbefore).
  exists O, d, l, lb. cbn [start_number end_number].
  repeat split; try assumption; try lia.
  intros j l' Hj. apply Hbefore. lia.
Qed.
End SpecScan.

(** X17.  The locator raises [IndexError] exactly on the snippets that are
    empty or made of white space only; on every other snippet it returns a
    list of ranges. *)
Theorem locator_raises_exactly_on_blank_snippets
    (fuzz_ratio : string -> string -> Z) (code_snippet content : string) :
  (all_chars is_space code_snippet = true ->
   find_line_number_ranges_of_code_snippet_in_content fuzz_ratio
     code_snippet content = Raise IndexError) /\
  (all_chars is_space code_snippet = false ->
   exists ranges,
     find_line_number_ranges_of_code_snippet_in_content fuzz_ratio
       code_snippet content = Ok ranges).
Proof.
  split; intros H.
  - apply blank_snippet_raises. now apply strip_empty_iff.
  - apply locator_returns. intros E. apply strip_empty_iff in E. congruence.
Qed.

Lemma locator_raises_exactly_on_blank_snippets_witness :
  find_line_number_ranges_of_code_snippet_in_content Fuzz.ratio
    ("  " ++ nl ++ " ") Samples.sample_content = Raise IndexError /\
  exists ranges,
    find_line_number_ranges_of_code_snippet_in_content Fuzz.ratio
      Samples.sample_snippet Samples.sample_content = Ok ranges.
Proof.
  split.
  - apply (proj1 (locator_raises_exactly_on_blank_snippets Fuzz.ratio
                    ("  " ++ nl ++ " ") Samples.sample_content)).
    reflexivity.
  - apply (proj2 (locator_raises_exactly_on_blank_snippets Fuzz.ratio
                    Samples.sample_snippet Samples.sample_content)).
    reflexivity.
Defined.

(** X18.  The ranges found in a file lie within the file, from line 1 to
    its last line, and follow one another without overlap: each begins
    after the one before has ended. *)
Theorem located_ranges_in_order_within_file
    (fuzz_ratio : string -> string -> Z)
    (start_line end_line content : string) :
  laid_out 0 (get_number_of_lines content)
    (get_line_number_ranges_in_content fuzz_ratio start_line end_line content).
Proof.
  rewrite ranges_in_content_spec. unfold get_number_of_lines, spec_locate.
  destruct (spec_scan _ _ 0 0 (split_nl content)) as [|r rs] eqn:E.
  - apply (spec_scan_laid_out _ _ (split_nl content) 0 0).
  - rewrite <- E. apply (spec_scan_laid_out _ _ (split_nl content) 0 0).
Qed.

(** X19.  Every range found begins at a file line that passes the start
    test of the pass that found it, and ends at the first line from there on
    that passes its end test.  The tests are those of the fuzzy pass only
    when the exact pass found nothing. *)
Theorem located_ranges_are_delimited
    (fuzz_ratio : string -> string -> Z)
    (start_line end_line content : string) (r : LineNumberRange) :
  In r (get_line_number_ranges_in_content fuzz_ratio start_line end_line
          content) ->
  exists (fuzzy_match : bool) (la lb : string),
    (fuzzy_match = true ->
     scan_content fuzz_ratio start_line end_line (split_nl content) false []
     = []) /\
    1 <= start_number r <= end_number r /\
    nth_error (split_nl content) (Z.to_nat (start_number r - 1)) = Some la /\
    start_test fuzz_ratio start_line fuzzy_match la = true /\
    nth_error (split_nl content) (Z.to_nat (end_number r - 1)) = Some lb /\
    end_test fuzz_ratio end_line fuzzy_match lb = true /\
    forall j l,
      start_number r <= j < end_number r ->
      nth_error (split_nl content) (Z.to_nat (j - 1)) = Some l ->
      end_test fuzz_ratio end_line fuzzy_match l = false.
Proof.
  rewrite ranges_in_content_spec. intros Hin.
  assert (Hfrom : exists fuzzy_match,
    (fuzzy_match = true ->
     scan_content fuzz_ratio start_line end_line (split_nl content) false []
     = []) /\
    In r (spec_scan (start_test fuzz_ratio start_line fuzzy_match)
            (end_test fuzz_ratio end_line fuzzy_match) 0 0
            (split_nl content))).
  { unfold spec_locate in Hin.
    destruct (spec_scan (start_test fuzz_ratio start_line false)
                (end_test fuzz_ratio end_line false) 0 0 (split_nl content))
      as [|r0 rs] eqn:E.
    - exists true. split; [|exact Hin]. intros _.
      rewrite scan_content_spec. exact E.
    - exists false. split; [discriminate|]. now rewrite E. }
  destruct Hfrom as (fuzzy_match & Hexact & Hr).
  apply spec_scan_delimited in Hr
    as (a & b & la & lb & Hs & He & Hab & Ha & Hsa & Hb & Heb & Hmid).
  exists fuzzy_match, la, lb.
  replace (Z.to_nat (start_number r - 1)) with a by lia.
  replace (Z.to_nat (end_number r - 1)) with b by lia.
  repeat split; try assumption; try lia.
  intros j l Hj Hl. apply (Hmid (Z.to_nat (j - 1)) l); [lia | exact Hl].
Qed.

Lemma located_ranges_are_delimited_witness :
  exists (fuzzy_match : bool) (la lb : string),
    (fuzzy_match = true ->
     scan_content Fuzz.ratio "def foo(a, b):" "return"
       (split_nl Samples.drifted_content) false [] = []) /\
    1 <= 2 <= 4 /\
    nth_error (split_nl Samples.drifted_content) (Z.to_nat (2 - 1)) = Some la /\
    start_test Fuzz.ratio "def foo(a, b):" fuzzy_match la = true /\
    nth_error (split_nl Samples.drifted_content) (Z.to_nat (4 - 1)) = Some lb /\
    end_test Fuzz.ratio "return" fuzzy_match lb = true /\
    forall j l,
      2 <= j < 4 ->
      nth_error (split_nl Samples.drifted_content) (Z.to_nat (j - 1)) = Some l ->
      end_test Fuzz.ratio "return" fuzzy_match l = false.
Proof.
  apply (located_ranges_are_delimited Fuzz.ratio "def foo(a, b):" "return"
           Samples.drifted_content (mkRange 2 4)).
  vm_compute. now left.
Defined.

(** X20.  When the exact pass finds a range, the similarity score plays no
    part: the locator returns the same ranges under any two scores. *)
Theorem exact_matches_do_not_depend_on_score
    (fuzz_ratio1 fuzz_ratio2 : string -> string -> Z)
    (start_line end_line content : string) :
  scan_content fuzz_ratio1 start_line end_line (split_nl content) false []
  <> [] ->
  get_line_number_ranges_in_content fuzz_ratio1 start_line end_line content
  = get_line_number_ranges_in_content fuzz_ratio2 start_line end_line content.
Proof.
  rewrite scan_content_spec, !ranges_in_content_spec. cbn [app].
  change (spec_locate (start_test fuzz_ratio2 start_line false)
            (end_test fuzz_ratio2 end_line false) (split_nl content))
    with (spec_locate (start_test fuzz_ratio1 start_line false)
            (end_test fuzz_ratio1 end_line false) (split_nl content)).
  now destruct (spec_locate (start_test fuzz_ratio1 start_line false)
                  (end_test fuzz_ratio1 end_line false) (split_nl content)).
Qed.

Lemma exact_matches_do_not_depend_on_score_witness :
  get_line_number_ranges_in_content Fuzz.ratio "def f(x):" "return x"
    Samples.sample_content
  = get_line_number_ranges_in_content (fun _ _ => 100) "def f(x):" "return x"
      Samples.sample_content.
Proof.
  apply (exact_matches_do_not_depend_on_score Fuzz.ratio (fun _ _ => 100)
           "def f(x):" "return x" Samples.sample_content).
  vm_compute. discriminate.
Defined.

(** X21.  [get_line_idx_in_content] returns -1 exactly when no line passes
    the end test; otherwise it returns the index, counted from 0, of the
    first line that passes. *)
Theorem line_idx_is_first_passing_line
    (fuzz_ratio : string -> string -> Z) (end_line : string)
    (content_lines : list string) (fuzzy_match : bool) :
  let idx :=
    get_line_idx_in_content fuzz_ratio end_line content_lines fuzzy_match in
  (idx = -1 /\
   forall l, In l content_lines ->
             end_test fuzz_ratio end_line fuzzy_match l = false) \/
  (0 <= idx < Z.of_nat (List.length content_lines) /\
   (exists l, nth_error content_lines (Z.to_nat idx) = Some l /\
              end_test fuzz_ratio end_line fuzzy_match l = true) /\
   forall j l, (j < Z.to_nat idx)%nat ->
               nth_error content_lines j = Some l ->
               end_test fuzz_ratio end_line fuzzy_match l = false).
Proof.
  cbv zeta. unfold get_line_idx_in_content.
  rewrite get_line_idx_from_first.
  destruct (first_index (end_test fuzz_ratio end_line fuzzy_match)
              content_lines) as [d|] eqn:E.
  - right. pose proof (first_index_bound _ _ _ E) as Hb.
    destruct (first_index_spec _ _ _ E) as (l & Hl & Ht & Hbefore).
    replace (Z.to_nat (0 + Z.of_nat d)) with d by lia.
    repeat split; try lia; [now exists l | exact Hbefore].
  - left. split; [reflexivity|]. now apply first_index_none.
Qed.

Lemma laid_out_in (lo hi : Z) (rs : list LineNumberRange) :
  laid_out lo hi rs ->
  forall r, In r rs ->
            lo < start_number r /\ start_number r <= end_number r /\
            end_number r <= hi.
Proof.
  revert lo; induction rs as [|r0 rs IH]; intros lo H r; [now intros []|].
  destruct H as (H1 & H2 & H3 & H4). intros [<- | Hin]; [tauto|].
  destruct (IH _ H4 r Hin) as (H5 & H6 & H7). lia.
Qed.

(** X27.  The content between the line numbers of a range found in a file
    has as many lines as the range spans, and its first line is the line of
    the file at which the range starts. *)
Theorem located_range_selects_its_lines
    (fuzz_ratio : string -> string -> Z)
    (start_line end_line content : string) (r : LineNumberRange) :
  In r (get_line_number_ranges_in_content fuzz_ratio start_line end_line
          content) ->
  get_number_of_lines (get_content_between_line_numbers r content)
  = end_number r - start_number r + 1 /\
  nth_error (split_nl (get_content_between_line_numbers r content)) 0
  = nth_error (split_nl content) (Z.to_nat (start_number r - 1)).
Proof.
  intros Hin.
  destruct (laid_out_in _ _ _
              (located_ranges_in_order_within_file fuzz_ratio start_line
                 end_line content) r Hin) as (H1 & H2 & H3).
  destruct r as [a b]. cbn [start_number end_number] in *.
  destruct (content_between_is_the_lines content a b) as [Hs Hn];
    [lia | lia | lia |].
  split; [exact Hn|]. rewrite Hs.
  replace (Z.to_nat (b - a + 1)) with (S (Z.to_nat (b - a))) by lia.
  unfold get_number_of_lines in H3.
  destruct (skipn (Z.to_nat (a - 1)) (split_nl content)) as [|x xs] eqn:E.
  - apply (f_equal (@List.length string)) in E.
    rewrite length_skipn in E. simpl in E. lia.
  - cbn [firstn nth_error].
    rewrite <- (Nat.add_0_r (Z.to_nat (a - 1))).
    now rewrite <- nth_error_skipn, E.
Qed.

Lemma located_range_selects_its_lines_witness :
  get_number_of_lines
    (get_content_between_line_numbers (mkRange 3 5) Samples.sample_content)
  = 5 - 3 + 1 /\
  nth_error (split_nl (get_content_between_line_numbers (mkRange 3 5)
                         Samples.sample_content)) 0
  = nth_error (split_nl Samples.sample_content) (Z.to_nat (3 - 1)).
Proof.
  apply (located_range_selects_its_lines Fuzz.ratio "def f(x):" "return x"
           Samples.sample_content (mkRange 3 5)).
  vm_compute. now left.
Defined.

Lemma strip_from_visible (c : ascii) (s : string) :
  is_space c = false -> exists r, rstrip (String c s) = String c r.
Proof.
  intros Hc. cbn [rstrip]. destruct (rstrip s) as [|d r].
  - rewrite Hc. now exists "".
  - now exists (String d r).
Qed.

Lemma rstrip_idem (s : string) : rstrip (rstrip s) = rstrip s.
Proof.
  induction s as [|c s IH]; [reflexivity|]. cbn [rstrip].
  destruct (rstrip s) as [|d r] eqn:E.
  - destruct (is_space c) eqn:Hc; [reflexivity|]. cbn [rstrip]. now rewrite Hc.
  - cbn [rstrip]. cbn [rstrip] in IH.
    destruct (rstrip r) as [|e r'] eqn:Er.
    + destruct (is_space d); [discriminate IH|]. now rewrite IH.
    + now rewrite IH.
Qed.

Lemma lstrip_visible (s : string) :
  lstrip s = "" \/ exists c r, lstrip s = String c r /\ is_space c = false.
Proof.
  induction s as [|c s IH]; [now left|]. cbn [lstrip].
  destruct (is_space c) eqn:Hc; [exact IH|]. right. now exists c, s.
Qed.

(** Stripping twice is stripping once. *)
Lemma strip_idem (s : string) : strip (strip s) = strip s.
Proof.
  unfold strip.
  destruct (lstrip_visible s) as [-> | (c & r & -> & Hc)]; [reflexivity|].
  destruct (strip_from_visible c r Hc) as [r' E]. rewrite E.
  cbn [lstrip]. rewrite Hc, <- E. apply rstrip_idem.
Qed.

Lemma update_last_length (f : string -> string) (ls ls' : list string) :
  update_last f ls = Ok ls' -> List.length ls' = List.length ls.
Proof.
  revert ls'; induction ls as [|l ls IH]; intros ls'; [discriminate|].
  destruct ls as [|l' ls].
  - now intros [= <-].
  - change (update_last f (l :: l' :: ls))
      with (ls'' <- update_last f (l' :: ls) ;; Ok (l :: ls'')).
    destruct (update_last f (l' :: ls)) as [ls''|e]; [|discriminate].
    cbn [bind]. intros [= <-]. cbn [List.length]. now rewrite (IH ls'' eq_refl).
Qed.

(** X22.  Preprocessing keeps the number of lines of the trimmed snippet,
    and every line it returns is trimmed: stripping it again changes
    nothing. *)
Theorem processed_snippet_lines_are_trimmed
    (code_snippet : string) (code_snippet_lines : list string) :
  split_and_process_snippet code_snippet = Ok code_snippet_lines ->
  List.length code_snippet_lines
  = List.length (splitlines (strip code_snippet)) /\
  Forall (fun line => strip line = line) code_snippet_lines.
Proof.
  unfold split_and_process_snippet.
  destruct (splitlines (strip code_snippet)) as [|l ls]; [discriminate|].
  cbn [update_first bind].
  destruct (update_last (Re.sub_empty regex_ellipsis)
              (Re.sub_empty regex_ellipsis l :: ls)) as [ls'|e] eqn:E;
    [|discriminate].
  cbn [bind]. intros [= <-]. split.
  - rewrite length_map. now apply update_last_length in E.
  - apply Forall_map, Forall_forall. intros x _. apply strip_idem.
Qed.

Lemma processed_snippet_lines_are_trimmed_witness :
  List.length ["def f(x):"; "return x"]
  = List.length (splitlines (strip Samples.sample_snippet)) /\
  Forall (fun line => strip line = line) ["def f(x):"; "return x"].
Proof.
  apply (processed_snippet_lines_are_trimmed Samples.sample_snippet).
  reflexivity.
Defined.

End MoreLocatorProperties.

(* ------------------------------------------------------------------ *)
(** ** Further properties of the parser and of the expansion *)

Module MoreDiffProperties.
Import Py Re PyFacts ReFacts StringSearch DiffRepresentation Headers.
Import DiffParser ExpansionProperties.

Lemma combine_length_min {X Y} (xs : list X) (ys : list Y) :
  List.length (combine xs ys) = Nat.min (List.length xs) (List.length ys).
Proof. apply length_combine. Qed.

Lemma map_snd_combine {X Y} (xs : list X) (ys : list Y) :
  map snd (combine xs ys) = firstn (List.length xs) ys.
Proof.
  revert ys; induction xs as [|x xs IH]; intros [|y ys]; try reflexivity.
  cbn [combine map snd List.length firstn]. now rewrite IH.
Qed.

(** X23.  When expansion returns, the new ranges were parsed, and it
    yields one range for each pair of a header text and a new range, as many
    as the shorter of the two lists has; every range it yields has the end
    of the new range at the same place. *)
Theorem expansion_pairs_headers_with_ranges
    (fuzz_ratio : string -> string -> Z) (diff file_content : string)
    (out : list LineNumberRange) :
  get_extended_diff_line_ranges_by_hunk_header fuzz_ratio diff file_content
  = Ok out ->
  exists news,
    get_line_numbers_edited_in_new_file diff = Ok news /\
    List.length out
    = Nat.min (List.length (header_texts diff)) (List.length news) /\
    map end_number out = firstn (List.length out) (map end_number news).
Proof.
  intros H.
  destruct (expansion_keeps_end_each _ _ _ _ H) as (news & Hnews & Hends).
  exists news. split; [exact Hnews | split; [|exact Hends]].
  apply expansion_keeps_end in H as (news' & Hnews' & H).
  rewrite Hnews in Hnews'. injection Hnews' as <-.
  apply Forall2_length in H. now rewrite <- H, combine_length_min.
Qed.

Lemma expansion_pairs_headers_with_ranges_witness :
  exists news,
    get_line_numbers_edited_in_new_file Samples.cool_diff = Ok news /\
    List.length [mkRange 30 44]
    = Nat.min (List.length (header_texts Samples.cool_diff))
              (List.length news) /\
    map end_number [mkRange 30 44]
    = firstn (List.length [mkRange 30 44]) (map end_number news).
Proof.
  apply (expansion_pairs_headers_with_ranges Fuzz.ratio Samples.cool_diff
           Samples.cool_content).
  vm_compute. reflexivity.
Defined.

(** X24.  On a diff of which no line carries a trailing context, expansion
    does what parsing the new ranges does: it raises [ValueError] when that
    raises, and otherwise returns the new ranges as they are, as many as
    there are header texts, whatever the file content. *)
Theorem expansion_without_context_changes_nothing
    (fuzz_ratio : string -> string -> Z) (diff file_content : string) :
  (forall diff_line,
      In diff_line (split_nl diff) -> trailing_context diff_line = None) ->
  get_extended_diff_line_ranges_by_hunk_header fuzz_ratio diff file_content
  = match get_line_numbers_edited_in_new_file diff with
    | Ok news => Ok (firstn (List.length (header_texts diff)) news)
    | Raise e => Raise e
    end.
Proof.
  intros Hnone.
  destruct (get_line_numbers_edited_in_new_file diff) as [news|e] eqn:Hnews.
  2:{ now rewrite expansion_of_parsed, Hnews. }
  destruct (expansion_returns fuzz_ratio diff file_content news) as [out E];
    [|exact Hnews|].
  { intros l s Hin Hs. rewrite (Hnone l Hin) in Hs. discriminate. }
  rewrite E. f_equal.
  apply expansion_keeps_end in E as (news' & Hnews' & E).
  rewrite Hnews in Hnews'. injection Hnews' as <-.
  rewrite <- map_snd_combine.
  induction E as [|p after ps out' Hp _ IH]; [reflexivity|].
  cbn [map]. rewrite IH. f_equal.
  destruct Hp as (_ & _ & Hsame). apply Hsame.
  intros l s rs Hin (_ & Hs & _). rewrite (Hnone l Hin) in Hs. discriminate.
Qed.

Lemma expansion_without_context_changes_nothing_witness :
  get_extended_diff_line_ranges_by_hunk_header Fuzz.ratio
    Samples.one_line_hunks Samples.sample_content
  = Ok [mkRange 4 5; mkRange 12 13] /\
  get_extended_diff_line_ranges_by_hunk_header Fuzz.ratio
    Samples.oversized_count Samples.sample_content
  = Raise ValueError.
Proof.
  split.
  - apply (expansion_without_context_changes_nothing Fuzz.ratio
             Samples.one_line_hunks Samples.sample_content).
    intros diff_line Hin. vm_compute in Hin.
    repeat (destruct Hin as [<- | Hin]; [reflexivity|]). destruct Hin.
  - apply (expansion_without_context_changes_nothing Fuzz.ratio
             Samples.oversized_count Samples.sample_content).
    intros diff_line Hin. vm_compute in Hin.
    repeat (destruct Hin as [<- | Hin]; [vm_compute; reflexivity|]).
    destruct Hin.
Defined.

(** X25.  No line number that the parser produces is negative: the starts
    and the ends of the old and of the new ranges it returns are at
    least 0. *)
Theorem parsed_line_numbers_are_not_negative (diff : string) :
  (forall olds : list LineNumberRange,
      get_line_numbers_edited_in_old_file diff = Ok olds ->
      Forall (fun r => 0 <= start_number r /\ 0 <= end_number r) olds) /\
  (forall news : list LineNumberRange,
      get_line_numbers_edited_in_new_file diff = Ok news ->
      Forall (fun r => 0 <= start_number r /\ 0 <= end_number r) news).
Proof.
  apply (parsed_ranges_ind
           (fun r => 0 <= start_number r /\ 0 <= end_number r)).
  - intros g h (Ha & Hb & Hc & Hd & _).
    apply is_number_digits, decimal_nonneg in Ha, Hb, Hc, Hd.
    unfold old_range4, new_range4; cbn [start_number end_number]; lia.
  - intros g h (Ha & _ & Hc & _).
    apply is_number_digits, decimal_nonneg in Ha, Hc.
    unfold old_range1, new_range1; cbn [start_number end_number]; lia.
Qed.

Lemma parsed_line_numbers_are_not_negative_witness :
  Forall (fun r => 0 <= start_number r /\ 0 <= end_number r)
         [mkRange 37 44; mkRange 120 123] /\
  Forall (fun r => 0 <= start_number r /\ 0 <= end_number r)
         [mkRange 4 5; mkRange 12 13].
Proof.
  split.
  - apply (proj1 (parsed_line_numbers_are_not_negative Samples.two_hunks)).
    reflexivity.
  - apply (proj2 (parsed_line_numbers_are_not_negative
                    Samples.one_line_hunks)).
    reflexivity.
Defined.

End MoreDiffProperties.

(* ------------------------------------------------------------------ *)
(** ** repository_search.py: counting extensions

    The walk over the directory tree and [os.path.splitext] come from
    outside: the function takes the triples that [os.walk] yields and
    [extension_of], the second component of [os.path.splitext], as
    parameters. *)

Module RepositorySearch.
Import Py.

(** A [Counter], as its items in insertion order. *)
Definition counter : Set := list (string * Z).

(** [c[key]], 0 for a missing key. *)
Fixpoint counter_get (c : counter) (key : string) : Z :=
  match c with
  | [] => 0
  | (k, v) :: c' => if String.eqb k key then v else counter_get c' key
  end.

(** [c[key] += 1] *)
Fixpoint counter_incr (c : counter) (key : string) : counter :=
  match c with
  | [] => [(key, 1)]
  | (k, v) :: c' =>
      if String.eqb k key then (k, v + 1) :: c'
      else (k, v) :: counter_incr c' key
  end.

Section Outside.
Variable extension_of : string -> string.

Definition count_languages_extensions
    (walk : list (string * list string * list string)) : counter :=
  fold_left
    (fun extensions entry =>
       let '(_, _, files) := entry in
       fold_left
         (fun extensions file =>
            let extension := extension_of file in
            if negb (String.eqb extension "")
            then counter_incr extensions extension
            else extensions)
         files extensions)
    walk [].
End Outside.

End RepositorySearch.

Module RepositorySearchProperties.
Import Py RepositorySearch.

(** All file names of a walk. *)
Definition walked_files (walk : list (string * list string * list string))
    : list string :=
  flat_map (fun entry => snd entry) walk.

Lemma counter_get_incr (c : counter) (key key' : string) :
  counter_get (counter_incr c key) key'
  = counter_get c key' + (if String.eqb key key' then 1 else 0).
Proof.
  induction c as [|[k v] c IH]; cbn [counter_incr counter_get].
  - destruct (String.eqb key key'); lia.
  - destruct (String.eqb_spec k key) as [->|Hk]; cbn [counter_get].
    + destruct (String.eqb key key'); lia.
    + destruct (String.eqb_spec k key') as [->|Hk'].
      * destruct (String.eqb_spec key key'); [congruence | lia].
      * exact IH.
Qed.

Lemma counter_keys_incr (c : counter) (key : string) :
  map fst (counter_incr c key)
  = if existsb (String.eqb key) (map fst c) then map fst c
    else (map fst c ++ [key])%list.
Proof.
  induction c as [|[k v] c IH]; cbn [counter_incr map fst existsb];
    [reflexivity|].
  rewrite (String.eqb_sym key k).
  destruct (String.eqb k key); cbn [map fst orb]; [reflexivity|].
  rewrite IH. now destruct (existsb (String.eqb key) (map fst c)).
Qed.

Section Outside.
Variable extension_of : string -> string.

(** The number of the files [files] whose extension is [extension]. *)
Definition files_with (extension : string) (files : list string) : Z :=
  Z.of_nat (List.length
              (filter (fun file => String.eqb (extension_of file) extension)
                      files)).

Lemma count_files (files : list string) (c : counter) (extension : string) :
  extension <> "" ->
  counter_get
    (fold_left
       (fun extensions file =>
          if negb (String.eqb (extension_of file) "")
          then counter_incr extensions (extension_of file)
          else extensions)
       files c) extension
  = counter_get c extension + files_with extension files.
Proof.
  intros Hne. unfold files_with. revert c.
  induction files as [|f files IH]; intros c; cbn [fold_left filter];
    [simpl; lia|].
  rewrite IH.
  destruct (String.eqb_spec (extension_of f) "") as [E|E]; cbn [negb].
  - destruct (String.eqb_spec (extension_of f) extension); [congruence | lia].
  - rewrite counter_get_incr.
    destruct (String.eqb (extension_of f) extension); cbn [List.length]; lia.
Qed.

Lemma keep_key_absent (files : list string) (c : counter) (key : string) :
  (forall f, extension_of f <> key \/ extension_of f = "") ->
  ~ In key (map fst c) ->
  ~ In key
      (map fst
         (fold_left
            (fun extensions file =>
               if negb (String.eqb (extension_of file) "")
               then counter_incr extensions (extension_of file)
               else extensions)
            files c)).
Proof.
  intros Hkey. revert c. induction files as [|f files IH]; intros c Hc;
    cbn [fold_left]; [exact Hc|].
  apply IH.
  destruct (String.eqb_spec (extension_of f) "") as [E|E]; cbn [negb];
    [exact Hc|].
  rewrite counter_keys_incr.
  destruct (existsb (String.eqb (extension_of f)) (map fst c)); [exact Hc|].
  intros Hin. apply in_app_or in Hin as [Hin | [Hin | []]]; [now apply Hc|].
  destruct (Hkey f); congruence.
Qed.
End Outside.

(** X26.  The counter of extensions holds, for every extension that is not
    empty, the number of walked files with that extension; files without
    extension are not counted, and the empty extension is never a key. *)
Theorem extensions_are_counted_per_file
    (extension_of : string -> string)
    (walk : list (string * list string * list string)) (extension : string) :
  (extension <> "" ->
   counter_get (count_languages_extensions extension_of walk) extension
   = files_with extension_of extension (walked_files walk)) /\
  ~ In "" (map fst (count_languages_extensions extension_of walk)).
Proof.
  unfold count_languages_extensions. split.
  - intros Hne.
    assert (H : forall c,
      counter_get
        (fold_left
           (fun extensions entry =>
              let '(_, _, files) := entry in
              fold_left
                (fun extensions file =>
                   let extension := extension_of file in
                   if negb (String.eqb extension "")
                   then counter_incr extensions extension
                   else extensions)
                files extensions)
           walk c) extension
      = counter_get c extension
        + files_with extension_of extension (walked_files walk)).
    { induction walk as [|[[root dirs] files] walk IH]; intros c;
        cbn [fold_left walked_files flat_map snd].
      - unfold files_with. simpl. lia.
      - rewrite IH. cbv zeta. rewrite (count_files extension_of files c) by exact Hne.
        unfold files_with, walked_files.
        rewrite filter_app, length_app. lia. }
    rewrite H. simpl. lia.
  - assert (H : forall c, ~ In "" (map fst c) ->
      ~ In "" (map fst
        (fold_left
           (fun extensions entry =>
              let '(_, _, files) := entry in
              fold_left
                (fun extensions file =>
                   let extension := extension_of file in
                   if negb (String.eqb extension "")
                   then counter_incr extensions extension
                   else extensions)
                files extensions)
           walk c))).
    { induction walk as [|[[root dirs] files] walk IH]; intros c Hc;
        cbn [fold_left]; [exact Hc|].
      apply IH. cbv zeta. apply keep_key_absent; [|exact Hc].
      intros f. destruct (String.eqb_spec (extension_of f) ""); tauto. }
    apply H. now intros [].
Qed.

(** An extension function for the examples: the text from the last dot on,
    when the name has a dot that is not its first character. *)
Fixpoint sample_extension_from (seen : bool) (name : string) : string :=
  match name with
  | EmptyString => EmptyString
  | String c name' =>
      match sample_extension_from true name' with
      | EmptyString =>
          if Ascii.eqb c "." && seen then name else EmptyString
      | found => found
      end
  end.

Definition sample_extension (name : string) : string :=
  sample_extension_from false name.

Lemma extensions_are_counted_per_file_witness :
  counter_get
    (count_languages_extensions sample_extension
       [("/repo", ["src"], ["README.md"; "Makefile"]);
        ("/repo/src", [], ["a.py"; "b.py"; ".gitignore"])]) ".py"
  = files_with sample_extension ".py"
      (walked_files
         [("/repo", ["src"], ["README.md"; "Makefile"]);
          ("/repo/src", [], ["a.py"; "b.py"; ".gitignore"])]).
Proof.
  apply (proj1 (extensions_are_counted_per_file sample_extension
                  [("/repo", ["src"], ["README.md"; "Makefile"]);
                   ("/repo/src", [], ["a.py"; "b.py"; ".gitignore"])] ".py")).
  discriminate.
Defined.

End RepositorySearchProperties.
